(** * WhoaNoise: the noise processors

    A shallow embedding of the two AudioWorklet processors of the
    repository,

    - [DoubleBuffered]: src/noise-processor.js, whose [white] reads
      uniform values from two prefilled buffers, and
    - [Direct]: the variant without buffers, whose [white] calls
      Math.random for every sample,

    together with the properties of the noise engine that the
    specification states about them.

    Numbers.  The processors compute on JavaScript numbers and store
    them in Float32Arrays.  The embedding is generic in the arithmetic
    (class [Number]): the operations of the source, its literals, and
    the conversion [fround] that a store into a Float32Array applies.
    Everything about cursors, buffers, dispatch and frames is proved for
    every [Number].  There are two instances.  [IEEE] is the arithmetic
    of the machine: binary64 operations, and a store that rounds to
    binary32; the processors are run on it at concrete inputs.  [Exact]
    is rational arithmetic where nothing rounds; the bounds are proved
    there, for every sequence of inputs, and say nothing about what
    rounding adds.

    Math.random.  The values Math.random returns are a sequence
    [U : N -> num]; the state counts the calls made so far
    ([randomCalls]). *)

From Stdlib Require Import NArith ZArith QArith Qabs List String Bool Lia Lqa.
From Stdlib Require PrimFloat SpecFloat FloatOps.
Import ListNotations.

Local Open Scope N_scope.

(** ** Numbers *)

Class Number (num : Type) : Type := {
  lit : Q -> num;               (* a numeric literal of the source *)
  add : num -> num -> num;
  sub : num -> num -> num;
  mul : num -> num -> num;
  div : num -> num -> num;
  fround : num -> num           (* conversion on a store into a Float32Array *)
}.

Declare Scope num_scope.
Delimit Scope num_scope with num.
Infix "+" := add : num_scope.
Infix "-" := sub : num_scope.
Infix "*" := mul : num_scope.
Infix "/" := div : num_scope.

(** Exact rational arithmetic: no operation rounds. *)
#[export] Instance Exact : Number Q := {|
  lit q := q;
  add := Qplus;
  sub := Qminus;
  mul := Qmult;
  div := Qdiv;
  fround q := q
|}.

(** The numbers of JavaScript: binary64, every operation rounded to
    nearest, ties to even. *)
Definition double_of_Z (z : Z) : PrimFloat.float :=
  FloatOps.SF2Prim (SpecFloat.binary_normalize 53 1024 z 0 false).

(** What a store into a Float32Array does to a binary64 value: it is
    rounded to the nearest binary32 value (24 bits of precision,
    exponents up to 128, ties to even); zeros, infinities and NaN are
    kept. *)
Definition to_float32 (x : PrimFloat.float) : PrimFloat.float :=
  match FloatOps.Prim2SF x with
  | SpecFloat.S754_finite s m e =>
      FloatOps.SF2Prim
        (SpecFloat.binary_normalize 24 128
           (SpecFloat.cond_Zopp s (Zpos m)) e s)
  | _ => x
  end.

(** A literal is the binary64 value nearest to it: the correctly
    rounded quotient of its numerator and denominator, which binary64
    holds exactly for the literals of the source. *)
#[export] Instance IEEE : Number PrimFloat.float := {|
  lit q := PrimFloat.div (double_of_Z (Qnum q)) (double_of_Z (Zpos (Qden q)));
  add := PrimFloat.add;
  sub := PrimFloat.sub;
  mul := PrimFloat.mul;
  div := PrimFloat.div;
  fround := to_float32
|}.

(** ** Float32Array *)

(** A typed array has a fixed length; a store converts the value with
    [fround]; a store at or beyond the length is ignored.  A read at or
    beyond the length (undefined in JavaScript) does not occur in the
    processors: every read is guarded, see [white_reads_in_range]. *)
Module Float32Array.
Section Float32Array.
Context {num : Type} `{Number num}.

Record t : Type := make { length : N; elem : N -> num }.

(* new Float32Array(n) *)
Definition new (n : N) : t := {| length := n; elem := fun _ => lit 0 |}.

(* a[i] *)
Definition get (a : t) (i : N) : num := elem a i.

(* a[i] = v *)
Definition set (a : t) (i : N) (v : num) : t :=
  if i <? length a
  then {| length := length a;
          elem := fun j => if j =? i then fround v else elem a j |}
  else a.
End Float32Array.
Arguments t : clear implicits.
End Float32Array.

(** ** State passing *)

Definition M (St A : Type) : Type := St -> A * St.

Definition ret {St A} (a : A) : M St A := fun s => (a, s).

Definition bind {St A B} (c : M St A) (k : A -> M St B) : M St B :=
  fun s => let (a, s') := c s in k a s'.

Definition get_state {St} : M St St := fun s => (s, s).

Definition modify {St} (f : St -> St) : M St unit := fun s => (tt, f s).

Definition when {St} (b : bool) (c : M St unit) : M St unit :=
  if b then c else ret tt.

Notation "x <- c ;; k" := (bind c (fun x => k))
  (at level 61, c at next level, right associativity).
Notation "c ;; k" := (bind c (fun _ => k))
  (at level 61, right associativity).

(** [for (let i = 0; i < count && cond(i); i++) body(i)], as [count]
    rounds each of which re-tests [cond]: once the test fails nothing
    changes any more, which is the loop's exit. *)
Definition for_loop {St} (count : N) (cond : N -> St -> bool)
    (body : N -> M St unit) : M St unit :=
  fun s =>
    (tt, snd (N.iter count
                (fun st : N * St =>
                   let (i, s) := st in
                   if cond i s then (i + 1, snd (body i s)) else st)
                (0, s))).

(** The loop of [pink] that counts the changed rows:
    [while ((n & 1) === 0 && numZeros < 16) { numZeros++; n >>= 1; }].
    The test bounds the loop by 16 rounds, the fuel. *)
Fixpoint count_zeros (fuel : nat) (n numZeros : N) : N :=
  match fuel with
  | O => numZeros
  | S fuel' =>
      if (N.land n 1 =? 0) && (numZeros <? 16)
      then count_zeros fuel' (N.shiftr n 1) (numZeros + 1)
      else numZeros
  end.

(** A control message, [event.data]. *)
Record Message : Type := { type : string; msgNoiseType : string }.

(** The two buffer objects; [activeBuffer] and [inactiveBuffer] hold
    references to them. *)
Inductive BufRef : Type := RefA | RefB.

(** * src/noise-processor.js *)

Module DoubleBuffered.
Section Processor.
Context {num : Type} `{Number num}.
Variable U : N -> num.     (* the values of Math.random() *)

#[projections(primitive)] Record State : Type := {
  noiseType : string;
  bufferSize : N;
  bufferA : Float32Array.t num;
  bufferB : Float32Array.t num;
  index : N;
  activeBuffer : BufRef;
  inactiveBuffer : BufRef;
  fillPointer : N;
  pinkRows : Float32Array.t num;
  pinkRunningSum : num;
  pinkIndex : N;
  pinkIndexMask : N;
  brownLast : num;
  blueLast : num;
  frameCount : N;
  violetLast : num * num;
  randomCalls : N           (* calls of Math.random() so far *)
}.

Definition set_noiseType (v : string) (s : State) : State :=
  {| noiseType := v; bufferSize := bufferSize s; bufferA := bufferA s;
     bufferB := bufferB s; index := index s; activeBuffer := activeBuffer s;
     inactiveBuffer := inactiveBuffer s; fillPointer := fillPointer s; pinkRows := pinkRows s;
     pinkRunningSum := pinkRunningSum s; pinkIndex := pinkIndex s; pinkIndexMask := pinkIndexMask s;
     brownLast := brownLast s; blueLast := blueLast s; frameCount := frameCount s;
     violetLast := violetLast s; randomCalls := randomCalls s |}.

Definition set_bufferA (v : Float32Array.t num) (s : State) : State :=
  {| noiseType := noiseType s; bufferSize := bufferSize s; bufferA := v;
     bufferB := bufferB s; index := index s; activeBuffer := activeBuffer s;
     inactiveBuffer := inactiveBuffer s; fillPointer := fillPointer s; pinkRows := pinkRows s;
     pinkRunningSum := pinkRunningSum s; pinkIndex := pinkIndex s; pinkIndexMask := pinkIndexMask s;
     brownLast := brownLast s; blueLast := blueLast s; frameCount := frameCount s;
     violetLast := violetLast s; randomCalls := randomCalls s |}.

Definition set_bufferB (v : Float32Array.t num) (s : State) : State :=
  {| noiseType := noiseType s; bufferSize := bufferSize s; bufferA := bufferA s;
     bufferB := v; index := index s; activeBuffer := activeBuffer s;
     inactiveBuffer := inactiveBuffer s; fillPointer := fillPointer s; pinkRows := pinkRows s;
     pinkRunningSum := pinkRunningSum s; pinkIndex := pinkIndex s; pinkIndexMask := pinkIndexMask s;
     brownLast := brownLast s; blueLast := blueLast s; frameCount := frameCount s;
     violetLast := violetLast s; randomCalls := randomCalls s |}.

Definition set_index (v : N) (s : State) : State :=
  {| noiseType := noiseType s; bufferSize := bufferSize s; bufferA := bufferA s;
     bufferB := bufferB s; index := v; activeBuffer := activeBuffer s;
     inactiveBuffer := inactiveBuffer s; fillPointer := fillPointer s; pinkRows := pinkRows s;
     pinkRunningSum := pinkRunningSum s; pinkIndex := pinkIndex s; pinkIndexMask := pinkIndexMask s;
     brownLast := brownLast s; blueLast := blueLast s; frameCount := frameCount s;
     violetLast := violetLast s; randomCalls := randomCalls s |}.

Definition set_activeBuffer (v : BufRef) (s : State) : State :=
  {| noiseType := noiseType s; bufferSize := bufferSize s; bufferA := bufferA s;
     bufferB := bufferB s; index := index s; activeBuffer := v;
     inactiveBuffer := inactiveBuffer s; fillPointer := fillPointer s; pinkRows := pinkRows s;
     pinkRunningSum := pinkRunningSum s; pinkIndex := pinkIndex s; pinkIndexMask := pinkIndexMask s;
     brownLast := brownLast s; blueLast := blueLast s; frameCount := frameCount s;
     violetLast := violetLast s; randomCalls := randomCalls s |}.

Definition set_inactiveBuffer (v : BufRef) (s : State) : State :=
  {| noiseType := noiseType s; bufferSize := bufferSize s; bufferA := bufferA s;
     bufferB := bufferB s; index := index s; activeBuffer := activeBuffer s;
     inactiveBuffer := v; fillPointer := fillPointer s; pinkRows := pinkRows s;
     pinkRunningSum := pinkRunningSum s; pinkIndex := pinkIndex s; pinkIndexMask := pinkIndexMask s;
     brownLast := brownLast s; blueLast := blueLast s; frameCount := frameCount s;
     violetLast := violetLast s; randomCalls := randomCalls s |}.

Definition set_fillPointer (v : N) (s : State) : State :=
  {| noiseType := noiseType s; bufferSize := bufferSize s; bufferA := bufferA s;
     bufferB := bufferB s; index := index s; activeBuffer := activeBuffer s;
     inactiveBuffer := inactiveBuffer s; fillPointer := v; pinkRows := pinkRows s;
     pinkRunningSum := pinkRunningSum s; pinkIndex := pinkIndex s; pinkIndexMask := pinkIndexMask s;
     brownLast := brownLast s; blueLast := blueLast s; frameCount := frameCount s;
     violetLast := violetLast s; randomCalls := randomCalls s |}.

Definition set_pinkRows (v : Float32Array.t num) (s : State) : State :=
  {| noiseType := noiseType s; bufferSize := bufferSize s; bufferA := bufferA s;
     bufferB := bufferB s; index := index s; activeBuffer := activeBuffer s;
     inactiveBuffer := inactiveBuffer s; fillPointer := fillPointer s; pinkRows := v;
     pinkRunningSum := pinkRunningSum s; pinkIndex := pinkIndex s; pinkIndexMask := pinkIndexMask s;
     brownLast := brownLast s; blueLast := blueLast s; frameCount := frameCount s;
     violetLast := violetLast s; randomCalls := randomCalls s |}.

Definition set_pinkRunningSum (v : num) (s : State) : State :=
  {| noiseType := noiseType s; bufferSize := bufferSize s; bufferA := bufferA s;
     bufferB := bufferB s; index := index s; activeBuffer := activeBuffer s;
     inactiveBuffer := inactiveBuffer s; fillPointer := fillPointer s; pinkRows := pinkRows s;
     pinkRunningSum := v; pinkIndex := pinkIndex s; pinkIndexMask := pinkIndexMask s;
     brownLast := brownLast s; blueLast := blueLast s; frameCount := frameCount s;
     violetLast := violetLast s; randomCalls := randomCalls s |}.

Definition set_pinkIndex (v : N) (s : State) : State :=
  {| noiseType := noiseType s; bufferSize := bufferSize s; bufferA := bufferA s;
     bufferB := bufferB s; index := index s; activeBuffer := activeBuffer s;
     inactiveBuffer := inactiveBuffer s; fillPointer := fillPointer s; pinkRows := pinkRows s;
     pinkRunningSum := pinkRunningSum s; pinkIndex := v; pinkIndexMask := pinkIndexMask s;
     brownLast := brownLast s; blueLast := blueLast s; frameCount := frameCount s;
     violetLast := violetLast s; randomCalls := randomCalls s |}.

Definition set_brownLast (v : num) (s : State) : State :=
  {| noiseType := noiseType s; bufferSize := bufferSize s; bufferA := bufferA s;
     bufferB := bufferB s; index := index s; activeBuffer := activeBuffer s;
     inactiveBuffer := inactiveBuffer s; fillPointer := fillPointer s; pinkRows := pinkRows s;
     pinkRunningSum := pinkRunningSum s; pinkIndex := pinkIndex s; pinkIndexMask := pinkIndexMask s;
     brownLast := v; blueLast := blueLast s; frameCount := frameCount s;
     violetLast := violetLast s; randomCalls := randomCalls s |}.

Definition set_blueLast (v : num) (s : State) : State :=
  {| noiseType := noiseType s; bufferSize := bufferSize s; bufferA := bufferA s;
     bufferB := bufferB s; index := index s; activeBuffer := activeBuffer s;
     inactiveBuffer := inactiveBuffer s; fillPointer := fillPointer s; pinkRows := pinkRows s;
     pinkRunningSum := pinkRunningSum s; pinkIndex := pinkIndex s; pinkIndexMask := pinkIndexMask s;
     brownLast := brownLast s; blueLast := v; frameCount := frameCount s;
     violetLast := violetLast s; randomCalls := randomCalls s |}.

Definition set_frameCount (v : N) (s : State) : State :=
  {| noiseType := noiseType s; bufferSize := bufferSize s; bufferA := bufferA s;
     bufferB := bufferB s; index := index s; activeBuffer := activeBuffer s;
     inactiveBuffer := inactiveBuffer s; fillPointer := fillPointer s; pinkRows := pinkRows s;
     pinkRunningSum := pinkRunningSum s; pinkIndex := pinkIndex s; pinkIndexMask := pinkIndexMask s;
     brownLast := brownLast s; blueLast := blueLast s; frameCount := v;
     violetLast := violetLast s; randomCalls := randomCalls s |}.

Definition set_violetLast (v : num * num) (s : State) : State :=
  {| noiseType := noiseType s; bufferSize := bufferSize s; bufferA := bufferA s;
     bufferB := bufferB s; index := index s; activeBuffer := activeBuffer s;
     inactiveBuffer := inactiveBuffer s; fillPointer := fillPointer s; pinkRows := pinkRows s;
     pinkRunningSum := pinkRunningSum s; pinkIndex := pinkIndex s; pinkIndexMask := pinkIndexMask s;
     brownLast := brownLast s; blueLast := blueLast s; frameCount := frameCount s;
     violetLast := v; randomCalls := randomCalls s |}.

Definition set_randomCalls (v : N) (s : State) : State :=
  {| noiseType := noiseType s; bufferSize := bufferSize s; bufferA := bufferA s;
     bufferB := bufferB s; index := index s; activeBuffer := activeBuffer s;
     inactiveBuffer := inactiveBuffer s; fillPointer := fillPointer s; pinkRows := pinkRows s;
     pinkRunningSum := pinkRunningSum s; pinkIndex := pinkIndex s; pinkIndexMask := pinkIndexMask s;
     brownLast := brownLast s; blueLast := blueLast s; frameCount := frameCount s;
     violetLast := violetLast s; randomCalls := v |}.


Definition buffer (r : BufRef) (s : State) : Float32Array.t num :=
  match r with RefA => bufferA s | RefB => bufferB s end.

Definition set_buffer (r : BufRef) (b : Float32Array.t num) : State -> State :=
  match r with RefA => set_bufferA b | RefB => set_bufferB b end.

(* Math.random() *)
Definition random : M State num :=
  s <- get_state ;;
  modify (set_randomCalls (randomCalls s + 1)) ;;
  ret (U (randomCalls s)).

(* buffer[start + i] = Math.random() * 2 - 1 *)
Definition bufferFill_body (b : BufRef) (start i : N) : M State unit :=
  r <- random ;;
  s <- get_state ;;
  modify (set_buffer b
            (Float32Array.set (buffer b s) (start + i)
               (r * lit 2 - lit 1)%num)).

Definition bufferFill (b : BufRef) (start count : N) : M State unit :=
  for_loop count
    (fun i s => start + i <? Float32Array.length (buffer b s))
    (bufferFill_body b start).

Definition white : M State num :=
  s <- get_state ;;
  let sample := Float32Array.get (buffer (activeBuffer s) s) (index s) in
  modify (set_index (index s + 1)) ;;
  s <- get_state ;;
  when (Float32Array.length (buffer (activeBuffer s) s) <=? index s)
    (let temp := activeBuffer s in
     modify (set_activeBuffer (inactiveBuffer s)) ;;
     modify (set_inactiveBuffer temp) ;;
     modify (set_index 0) ;;
     modify (set_fillPointer 0)) ;;
  ret sample.

Definition pink : M State num :=
  white <- white ;;
  s <- get_state ;;
  modify (set_pinkIndex (N.land (pinkIndex s + 1) (pinkIndexMask s))) ;;
  s <- get_state ;;
  let numZeros := count_zeros 16 (pinkIndex s) 0 in
  when (numZeros <? 16)
    (s <- get_state ;;
     modify (set_pinkRunningSum
               (pinkRunningSum s - Float32Array.get (pinkRows s) numZeros)%num) ;;
     let newValue := white in
     s <- get_state ;;
     modify (set_pinkRunningSum (pinkRunningSum s + newValue)%num) ;;
     s <- get_state ;;
     modify (set_pinkRows (Float32Array.set (pinkRows s) numZeros newValue))) ;;
  s <- get_state ;;
  ret ((pinkRunningSum s + white) / lit 17)%num.

Definition brown : M State num :=
  white <- white ;;
  s <- get_state ;;
  modify (set_brownLast ((brownLast s + lit 0.02 * white) / lit 1.02)%num) ;;
  s <- get_state ;;
  ret (brownLast s * lit 3.5)%num.

Definition blue : M State num :=
  white <- white ;;
  s <- get_state ;;
  let blue := (white - blueLast s)%num in
  modify (set_blueLast white) ;;
  ret (blue * lit 0.7)%num.

Definition violet : M State num :=
  white <- white ;;
  s <- get_state ;;
  let diff1 := (white - fst (violetLast s))%num in
  let diff2 := (diff1 - snd (violetLast s))%num in
  modify (set_violetLast (white, snd (violetLast s))) ;;
  s <- get_state ;;
  modify (set_violetLast (fst (violetLast s), diff1)) ;;
  ret (diff2 * lit 0.5)%num.

Definition getSample : M State num :=
  s <- get_state ;;
  if (noiseType s =? "pink")%string then pink
  else if (noiseType s =? "brown")%string then brown
  else if (noiseType s =? "blue")%string then blue
  else if (noiseType s =? "violet")%string then violet
  else white.

(* the inner loop of process:
   for (let i = 0; i < outputChannel.length; i++)
     outputChannel[i] = this.getSample(); *)
Definition fill_channel (outputChannel : Float32Array.t num)
    : M State (Float32Array.t num) :=
  fun s =>
    let '(_, ch, s') :=
      N.iter (Float32Array.length outputChannel)
        (fun st : N * Float32Array.t num * State =>
           let '(i, ch, s) := st in
           let (x, s') := getSample s in
           (i + 1, Float32Array.set ch i x, s'))
        (0, outputChannel, s)
    in (ch, s').

(* the outer loop of process, over the channels of outputs[0] *)
Fixpoint fill_channels (output : list (Float32Array.t num))
    : M State (list (Float32Array.t num)) :=
  match output with
  | [] => ret []
  | outputChannel :: rest =>
      ch <- fill_channel outputChannel ;;
      rest' <- fill_channels rest ;;
      ret (ch :: rest')
  end.

(** [process(inputs, outputs, parameters)]: [output] is [outputs[0]];
    the result is the block as written and the returned flag. *)
Definition process (output : list (Float32Array.t num))
    : M State (list (Float32Array.t num) * bool) :=
  output' <- fill_channels output ;;
  s <- get_state ;;
  modify (set_frameCount (frameCount s + 1)) ;;
  s <- get_state ;;
  when ((frameCount s mod 10 =? 0) && (fillPointer s <? bufferSize s))
    (let refillAmount := 4800 in
     bufferFill (inactiveBuffer s) (fillPointer s) refillAmount ;;
     s <- get_state ;;
     modify (set_fillPointer (fillPointer s + refillAmount))) ;;
  ret (output', true).

(* this.port.onmessage *)
Definition onmessage (data : Message) : M State unit :=
  when (type data =? "setNoiseType")%string
    (modify (set_noiseType (msgNoiseType data))).

(** The constructor: the fields as initialised, then the initial fill
    of both buffers (which touches the buffers and Math.random only). *)
Definition constructor : State :=
  let size := 48000 * 30 in
  let this :=
    {| noiseType := "white";
       bufferSize := size;
       bufferA := Float32Array.new size;
       bufferB := Float32Array.new size;
       index := 0;
       activeBuffer := RefA;
       inactiveBuffer := RefB;
       fillPointer := 0;
       pinkRows := Float32Array.new 16;
       pinkRunningSum := lit 0;
       pinkIndex := 0;
       pinkIndexMask := N.shiftl 1 16 - 1;
       brownLast := lit 0;
       blueLast := lit 0;
       frameCount := 0;
       violetLast := (lit 0, lit 0);
       randomCalls := 0 |} in
  snd ((bufferFill RefA 0 (bufferSize this) ;;
        bufferFill RefB 0 (bufferSize this)) this).

End Processor.
Arguments State : clear implicits.
End DoubleBuffered.


(** * The processor without buffers *)

Module Direct.
Section Processor.
Context {num : Type} `{Number num}.
Variable U : N -> num.     (* the values of Math.random() *)

#[projections(primitive)] Record State : Type := {
  noiseType : string;
  pinkRows : Float32Array.t num;
  pinkRunningSum : num;
  pinkIndex : N;
  pinkIndexMask : N;
  brownLast : num;
  blueLast : num;
  violetLast : num * num;
  randomCalls : N           (* calls of Math.random() so far *)
}.

Definition set_noiseType (v : string) (s : State) : State :=
  {| noiseType := v; pinkRows := pinkRows s; pinkRunningSum := pinkRunningSum s;
     pinkIndex := pinkIndex s; pinkIndexMask := pinkIndexMask s; brownLast := brownLast s;
     blueLast := blueLast s; violetLast := violetLast s; randomCalls := randomCalls s |}.

Definition set_pinkRows (v : Float32Array.t num) (s : State) : State :=
  {| noiseType := noiseType s; pinkRows := v; pinkRunningSum := pinkRunningSum s;
     pinkIndex := pinkIndex s; pinkIndexMask := pinkIndexMask s; brownLast := brownLast s;
     blueLast := blueLast s; violetLast := violetLast s; randomCalls := randomCalls s |}.

Definition set_pinkRunningSum (v : num) (s : State) : State :=
  {| noiseType := noiseType s; pinkRows := pinkRows s; pinkRunningSum := v;
     pinkIndex := pinkIndex s; pinkIndexMask := pinkIndexMask s; brownLast := brownLast s;
     blueLast := blueLast s; violetLast := violetLast s; randomCalls := randomCalls s |}.

Definition set_pinkIndex (v : N) (s : State) : State :=
  {| noiseType := noiseType s; pinkRows := pinkRows s; pinkRunningSum := pinkRunningSum s;
     pinkIndex := v; pinkIndexMask := pinkIndexMask s; brownLast := brownLast s;
     blueLast := blueLast s; violetLast := violetLast s; randomCalls := randomCalls s |}.

Definition set_brownLast (v : num) (s : State) : State :=
  {| noiseType := noiseType s; pinkRows := pinkRows s; pinkRunningSum := pinkRunningSum s;
     pinkIndex := pinkIndex s; pinkIndexMask := pinkIndexMask s; brownLast := v;
     blueLast := blueLast s; violetLast := violetLast s; randomCalls := randomCalls s |}.

Definition set_blueLast (v : num) (s : State) : State :=
  {| noiseType := noiseType s; pinkRows := pinkRows s; pinkRunningSum := pinkRunningSum s;
     pinkIndex := pinkIndex s; pinkIndexMask := pinkIndexMask s; brownLast := brownLast s;
     blueLast := v; violetLast := violetLast s; randomCalls := randomCalls s |}.

Definition set_violetLast (v : num * num) (s : State) : State :=
  {| noiseType := noiseType s; pinkRows := pinkRows s; pinkRunningSum := pinkRunningSum s;
     pinkIndex := pinkIndex s; pinkIndexMask := pinkIndexMask s; brownLast := brownLast s;
     blueLast := blueLast s; violetLast := v; randomCalls := randomCalls s |}.

Definition set_randomCalls (v : N) (s : State) : State :=
  {| noiseType := noiseType s; pinkRows := pinkRows s; pinkRunningSum := pinkRunningSum s;
     pinkIndex := pinkIndex s; pinkIndexMask := pinkIndexMask s; brownLast := brownLast s;
     blueLast := blueLast s; violetLast := violetLast s; randomCalls := v |}.


(* Math.random() *)
Definition random : M State num :=
  s <- get_state ;;
  modify (set_randomCalls (randomCalls s + 1)) ;;
  ret (U (randomCalls s)).

Definition white : M State num :=
  r <- random ;;
  ret (r * lit 2 - lit 1)%num.

Definition pink : M State num :=
  white <- white ;;
  s <- get_state ;;
  modify (set_pinkIndex (N.land (pinkIndex s + 1) (pinkIndexMask s))) ;;
  s <- get_state ;;
  let numZeros := count_zeros 16 (pinkIndex s) 0 in
  when (numZeros <? 16)
    (s <- get_state ;;
     modify (set_pinkRunningSum
               (pinkRunningSum s - Float32Array.get (pinkRows s) numZeros)%num) ;;
     let newValue := white in
     s <- get_state ;;
     modify (set_pinkRunningSum (pinkRunningSum s + newValue)%num) ;;
     s <- get_state ;;
     modify (set_pinkRows (Float32Array.set (pinkRows s) numZeros newValue))) ;;
  s <- get_state ;;
  ret ((pinkRunningSum s + white) / lit 17)%num.

Definition brown : M State num :=
  white <- white ;;
  s <- get_state ;;
  modify (set_brownLast ((brownLast s + lit 0.02 * white) / lit 1.02)%num) ;;
  s <- get_state ;;
  ret (brownLast s * lit 3.5)%num.

Definition blue : M State num :=
  white <- white ;;
  s <- get_state ;;
  let blue := (white - blueLast s)%num in
  modify (set_blueLast white) ;;
  ret (blue * lit 0.7)%num.

Definition violet : M State num :=
  white <- white ;;
  s <- get_state ;;
  let diff1 := (white - fst (violetLast s))%num in
  let diff2 := (diff1 - snd (violetLast s))%num in
  modify (set_violetLast (white, snd (violetLast s))) ;;
  s <- get_state ;;
  modify (set_violetLast (fst (violetLast s), diff1)) ;;
  ret (diff2 * lit 0.5)%num.

Definition getSample : M State num :=
  s <- get_state ;;
  if (noiseType s =? "pink")%string then pink
  else if (noiseType s =? "brown")%string then brown
  else if (noiseType s =? "blue")%string then blue
  else if (noiseType s =? "violet")%string then violet
  else white.

Definition fill_channel (outputChannel : Float32Array.t num)
    : M State (Float32Array.t num) :=
  fun s =>
    let '(_, ch, s') :=
      N.iter (Float32Array.length outputChannel)
        (fun st : N * Float32Array.t num * State =>
           let '(i, ch, s) := st in
           let (x, s') := getSample s in
           (i + 1, Float32Array.set ch i x, s'))
        (0, outputChannel, s)
    in (ch, s').

Fixpoint fill_channels (output : list (Float32Array.t num))
    : M State (list (Float32Array.t num)) :=
  match output with
  | [] => ret []
  | outputChannel :: rest =>
      ch <- fill_channel outputChannel ;;
      rest' <- fill_channels rest ;;
      ret (ch :: rest')
  end.

Definition process (output : list (Float32Array.t num))
    : M State (list (Float32Array.t num) * bool) :=
  output' <- fill_channels output ;;
  ret (output', true).

(* this.port.onmessage *)
Definition onmessage (data : Message) : M State unit :=
  when (type data =? "setNoiseType")%string
    (modify (set_noiseType (msgNoiseType data))).

Definition constructor : State :=
  {| noiseType := "white";
     pinkRows := Float32Array.new 16;
     pinkRunningSum := lit 0;
     pinkIndex := 0;
     pinkIndexMask := N.shiftl 1 16 - 1;
     brownLast := lit 0;
     blueLast := lit 0;
     violetLast := (lit 0, lit 0);
     randomCalls := 0 |}.

End Processor.
Arguments State : clear implicits.
End Direct.

(** * Definitions used by the statements *)

Module DB := DoubleBuffered.
Module Dir := Direct.

(** The state after [n] calls of [c], and the result of the call that
    follows them. *)
Definition run {St A} (n : N) (c : M St A) (s : St) : St :=
  N.iter n (fun s => snd (c s)) s.

Definition result_after {St A} (n : N) (c : M St A) (s : St) : A :=
  fst (c (run n c s)).

(** The five Noise Kinds. *)
Definition kinds : list string :=
  ["white"; "pink"; "brown"; "blue"; "violet"]%string.

Definition setNoiseType (kind : string) : Message :=
  {| type := "setNoiseType"; msgNoiseType := kind |}.

(** The capacity of each buffer: 30 seconds at 48 kHz. *)
Definition capacity : N := 48000 * 30.

(** A uniform source that always returns 0, for concrete runs in exact
    arithmetic. *)
Definition zeros : N -> Q := fun _ => 0%Q.

(** Two uniform sources in binary64: Math.random always returning
    0.1, and always returning 1 - 2^-26 - 2^-52. *)
Definition tenth : N -> PrimFloat.float := fun _ => lit 0.1.

Definition near_one : N -> PrimFloat.float :=
  fun _ => lit ((2 ^ 52 - 2 ^ 26 - 1) # (2 ^ 52)).

(** A block of two channels of 128 slots, and a uniform source whose
    first 128 values are 0 and whose later values are 1/2. *)
Definition stereo_block : list (Float32Array.t Q) :=
  [Float32Array.new 128; Float32Array.new 128].

Definition step_source : N -> Q := fun k => if k <? 128 then 0%Q else (1 # 2)%Q.

(** A small well-formed state of the double-buffered engine (buffers of
    one chunk, all slots 0), for concrete runs. *)
Definition small_engine : DB.State Q :=
  {| DB.noiseType := "white";
     DB.bufferSize := 4800;
     DB.bufferA := Float32Array.new 4800;
     DB.bufferB := Float32Array.new 4800;
     DB.index := 0;
     DB.activeBuffer := RefA;
     DB.inactiveBuffer := RefB;
     DB.fillPointer := 0;
     DB.pinkRows := Float32Array.new 16;
     DB.pinkRunningSum := 0%Q;
     DB.pinkIndex := 0;
     DB.pinkIndexMask := 65535;
     DB.brownLast := 0%Q;
     DB.blueLast := 0%Q;
     DB.frameCount := 9;
     DB.violetLast := (0%Q, 0%Q);
     DB.randomCalls := 0 |}.

Section Invariants.
Context {num : Type} `{Number num}.

(** What the buffer machinery of the double-buffered processor keeps
    true: both buffers have the capacity, the cursor is inside the
    active buffer, the two references name different buffers, and the
    refill marker is a multiple of the chunk that does not exceed the
    capacity (which is itself a multiple of the chunk). *)
Definition WellFormed (s : DB.State num) : Prop :=
  Float32Array.length (DB.bufferA s) = DB.bufferSize s /\
  Float32Array.length (DB.bufferB s) = DB.bufferSize s /\
  DB.index s < DB.bufferSize s /\
  DB.activeBuffer s <> DB.inactiveBuffer s /\
  DB.fillPointer s mod 4800 = 0 /\
  DB.bufferSize s mod 4800 = 0 /\
  DB.fillPointer s <= DB.bufferSize s.

(** The part of the state the uniform source lives in. *)
Definition source (s : DB.State num) :=
  (DB.bufferSize s, DB.bufferA s, DB.bufferB s, DB.index s,
   DB.activeBuffer s, DB.inactiveBuffer s, DB.fillPointer s,
   DB.frameCount s, DB.randomCalls s).

(** The part of the state the generators live in. *)
Definition generator (s : DB.State num) :=
  (DB.noiseType s, DB.pinkRows s, DB.pinkRunningSum s, DB.pinkIndex s,
   DB.pinkIndexMask s, DB.brownLast s, DB.blueLast s, DB.violetLast s).

(** The part of the source a read depends on: the two buffers, the
    cursor and which buffer is being played. *)
Definition reading (s : DB.State num) :=
  (DB.bufferA s, DB.bufferB s, DB.index s, DB.activeBuffer s,
   DB.inactiveBuffer s).

(** The cursor after one more read from a buffer of length [len]. *)
Definition advance (len i : N) : N :=
  if len <=? i + 1 then 0 else i + 1.

(** [b] is [b0] with the [n] slots from [start] on overwritten by the
    next [n] uniform values, Math.random calls number [r], [r + 1], ...
    each mapped to [-1, 1) and stored. *)
Definition refilled (U : N -> num) (b0 : Float32Array.t num)
    (start n r : N) (b : Float32Array.t num) : Prop :=
  Float32Array.length b = Float32Array.length b0 /\
  forall j,
    Float32Array.elem b j =
    if (start <=? j) && (j <? start + n)
    then fround (U (r + (j - start))%N * lit 2 - lit 1)%num
    else Float32Array.elem b0 j.

(** The number of slots of a block, all channels together, and the
    number of slots in the channels before channel [c]. *)
Fixpoint slots (output : list (Float32Array.t num)) : N :=
  match output with
  | [] => 0
  | ch :: rest => Float32Array.length ch + slots rest
  end.

Definition offset (output : list (Float32Array.t num)) (c : nat) : N :=
  slots (firstn c output).

End Invariants.

(** ** The generators as functions of the white value

    Both processors compute a sample by reading one white value and
    then updating the fields of the generators.  [generator_step]
    is that second part on its own, on the generator fields [Gen];
    [DB_getSample_step] and [Dir_getSample_step] below show that
    getSample is [white] followed by it, in both processors. *)

Section GeneratorStep.
Context {num : Type} `{Number num}.

#[projections(primitive)] Record Gen : Type := {
  g_pinkRows : Float32Array.t num;
  g_pinkRunningSum : num;
  g_pinkIndex : N;
  g_pinkIndexMask : N;
  g_brownLast : num;
  g_blueLast : num;
  g_violetLast : num * num
}.

Definition pink_step (white : num) (g : Gen) : num * Gen :=
  let pinkIndex := N.land (g_pinkIndex g + 1) (g_pinkIndexMask g) in
  let numZeros := count_zeros 16 pinkIndex 0 in
  if numZeros <? 16
  then
    let sum :=
      (g_pinkRunningSum g - Float32Array.get (g_pinkRows g) numZeros
       + white)%num in
    ((sum + white) / lit 17,
     {| g_pinkRows := Float32Array.set (g_pinkRows g) numZeros white;
        g_pinkRunningSum := sum;
        g_pinkIndex := pinkIndex;
        g_pinkIndexMask := g_pinkIndexMask g;
        g_brownLast := g_brownLast g;
        g_blueLast := g_blueLast g;
        g_violetLast := g_violetLast g |})%num
  else
    ((g_pinkRunningSum g + white) / lit 17,
     {| g_pinkRows := g_pinkRows g;
        g_pinkRunningSum := g_pinkRunningSum g;
        g_pinkIndex := pinkIndex;
        g_pinkIndexMask := g_pinkIndexMask g;
        g_brownLast := g_brownLast g;
        g_blueLast := g_blueLast g;
        g_violetLast := g_violetLast g |})%num.

Definition brown_step (white : num) (g : Gen) : num * Gen :=
  let brownLast := ((g_brownLast g + lit 0.02 * white) / lit 1.02)%num in
  ((brownLast * lit 3.5)%num,
   {| g_pinkRows := g_pinkRows g;
      g_pinkRunningSum := g_pinkRunningSum g;
      g_pinkIndex := g_pinkIndex g;
      g_pinkIndexMask := g_pinkIndexMask g;
      g_brownLast := brownLast;
      g_blueLast := g_blueLast g;
      g_violetLast := g_violetLast g |}).

Definition blue_step (white : num) (g : Gen) : num * Gen :=
  (((white - g_blueLast g) * lit 0.7)%num,
   {| g_pinkRows := g_pinkRows g;
      g_pinkRunningSum := g_pinkRunningSum g;
      g_pinkIndex := g_pinkIndex g;
      g_pinkIndexMask := g_pinkIndexMask g;
      g_brownLast := g_brownLast g;
      g_blueLast := white;
      g_violetLast := g_violetLast g |}).

Definition violet_step (white : num) (g : Gen) : num * Gen :=
  let diff1 := (white - fst (g_violetLast g))%num in
  let diff2 := (diff1 - snd (g_violetLast g))%num in
  ((diff2 * lit 0.5)%num,
   {| g_pinkRows := g_pinkRows g;
      g_pinkRunningSum := g_pinkRunningSum g;
      g_pinkIndex := g_pinkIndex g;
      g_pinkIndexMask := g_pinkIndexMask g;
      g_brownLast := g_brownLast g;
      g_blueLast := g_blueLast g;
      g_violetLast := (white, diff1) |}).

Definition generator_step (kind : string) (white : num) (g : Gen)
    : num * Gen :=
  if (kind =? "pink")%string then pink_step white g
  else if (kind =? "brown")%string then brown_step white g
  else if (kind =? "blue")%string then blue_step white g
  else if (kind =? "violet")%string then violet_step white g
  else (white, g).

Definition DB_gen (s : DB.State num) : Gen :=
  {| g_pinkRows := DB.pinkRows s;
     g_pinkRunningSum := DB.pinkRunningSum s;
     g_pinkIndex := DB.pinkIndex s;
     g_pinkIndexMask := DB.pinkIndexMask s;
     g_brownLast := DB.brownLast s;
     g_blueLast := DB.blueLast s;
     g_violetLast := DB.violetLast s |}.

Definition DB_set_gen (g : Gen) (s : DB.State num) : DB.State num :=
  {| DB.noiseType := DB.noiseType s;
     DB.bufferSize := DB.bufferSize s;
     DB.bufferA := DB.bufferA s;
     DB.bufferB := DB.bufferB s;
     DB.index := DB.index s;
     DB.activeBuffer := DB.activeBuffer s;
     DB.inactiveBuffer := DB.inactiveBuffer s;
     DB.fillPointer := DB.fillPointer s;
     DB.pinkRows := g_pinkRows g;
     DB.pinkRunningSum := g_pinkRunningSum g;
     DB.pinkIndex := g_pinkIndex g;
     DB.pinkIndexMask := g_pinkIndexMask g;
     DB.brownLast := g_brownLast g;
     DB.blueLast := g_blueLast g;
     DB.frameCount := DB.frameCount s;
     DB.violetLast := g_violetLast g;
     DB.randomCalls := DB.randomCalls s |}.

Definition Dir_gen (s : Dir.State num) : Gen :=
  {| g_pinkRows := Dir.pinkRows s;
     g_pinkRunningSum := Dir.pinkRunningSum s;
     g_pinkIndex := Dir.pinkIndex s;
     g_pinkIndexMask := Dir.pinkIndexMask s;
     g_brownLast := Dir.brownLast s;
     g_blueLast := Dir.blueLast s;
     g_violetLast := Dir.violetLast s |}.

Definition Dir_set_gen (g : Gen) (s : Dir.State num) : Dir.State num :=
  {| Dir.noiseType := Dir.noiseType s;
     Dir.pinkRows := g_pinkRows g;
     Dir.pinkRunningSum := g_pinkRunningSum g;
     Dir.pinkIndex := g_pinkIndex g;
     Dir.pinkIndexMask := g_pinkIndexMask g;
     Dir.brownLast := g_brownLast g;
     Dir.blueLast := g_blueLast g;
     Dir.violetLast := g_violetLast g;
     Dir.randomCalls := Dir.randomCalls s |}.

End GeneratorStep.
Arguments Gen : clear implicits.

(** ** The host, and the two processors in step *)

Section SideBySide.
Context {num : Type} `{Number num}.
Variable U : N -> num.

(** The host calls [process] block after block; the result is the list
    of the blocks as written. *)
Fixpoint DB_blocks (blocks : list (list (Float32Array.t num)))
    : M (DB.State num) (list (list (Float32Array.t num))) :=
  match blocks with
  | [] => ret []
  | output :: rest =>
      r <- DB.process U output ;;
      rs <- DB_blocks rest ;;
      ret (fst r :: rs)
  end.

Fixpoint Dir_blocks (blocks : list (list (Float32Array.t num)))
    : M (Dir.State num) (list (list (Float32Array.t num))) :=
  match blocks with
  | [] => ret []
  | output :: rest =>
      r <- Dir.process U output ;;
      rs <- Dir_blocks rest ;;
      ret (fst r :: rs)
  end.

Fixpoint total_slots (blocks : list (list (Float32Array.t num))) : N :=
  match blocks with
  | [] => 0
  | output :: rest => slots output + total_slots rest
  end.

(** The two processors are in step after [k] samples: same generator
    fields and kind, [k] values of Math.random used by the processor
    without buffers and, while [k] is below the capacity, the
    double-buffered processor about to read slot [k] of buffer A, which
    holds the uniform values in the order Math.random gave them. *)
Definition InStep (k : N) (sb : DB.State num) (sd : Dir.State num) : Prop :=
  DB_gen sb = Dir_gen sd /\
  DB.noiseType sb = Dir.noiseType sd /\
  Dir.randomCalls sd = k /\
  (k < capacity ->
   WellFormed sb /\
   DB.bufferSize sb = capacity /\
   DB.index sb = k /\
   DB.activeBuffer sb = RefA /\
   forall j, j < capacity ->
     Float32Array.elem (DB.bufferA sb) j = (U j * lit 2 - lit 1)%num).

(** A block of one channel of 128 slots; [capacity] is 11250 of them. *)
Definition mono_block : list (Float32Array.t num) := [Float32Array.new 128].

(** The double-buffered engine after [n] mono blocks, while it still
    reads its first buffer ([n] at most 11249): white, on buffer A at
    slot [128 * n]; before the 10th block nothing has been refilled;
    from the 10th block on slot 0 of buffer B holds the value of
    Math.random number [2 * capacity]. *)
Definition MonoRun (n : N) (s : DB.State num) : Prop :=
  WellFormed s /\
  DB.bufferSize s = capacity /\
  DB.index s = 128 * n /\
  DB.activeBuffer s = RefA /\
  DB.inactiveBuffer s = RefB /\
  DB.noiseType s = "white"%string /\
  DB.frameCount s = n /\
  (n < 10 -> DB.fillPointer s = 0 /\ DB.randomCalls s = 2 * capacity) /\
  (10 <= n ->
   4800 <= DB.fillPointer s /\
   Float32Array.elem (DB.bufferB s) 0
   = fround (U (2 * capacity)%N * lit 2 - lit 1)%num).

(** The states the double-buffered engine can be in: the host
    constructs it, then calls [process] and delivers control messages,
    in any order. *)
Inductive reachable : DB.State num -> Prop :=
| reach_constructor : reachable (DB.constructor U)
| reach_process (output : list (Float32Array.t num)) (s : DB.State num) :
    reachable s -> reachable (snd (DB.process U output s))
| reach_onmessage (data : Message) (s : DB.State num) :
    reachable s -> reachable (snd (DB.onmessage data s)).

End SideBySide.

(** ** Exact arithmetic: sums and bounds *)

(** The sum of the 16 rows of the pink generator. *)
Definition row_indices : list N :=
  [0; 1; 2; 3; 4; 5; 6; 7; 8; 9; 10; 11; 12; 13; 14; 15].

Definition sum_rows (rows : Float32Array.t Q) : Q :=
  fold_right (fun i acc => (Float32Array.get rows i + acc)%Q) 0%Q row_indices.

(** The same sum in any arithmetic. *)
Definition row_total {num : Type} `{Number num} (rows : Float32Array.t num)
  : num :=
  fold_right (fun i acc => (Float32Array.get rows i + acc)%num) (lit 0)
    row_indices.

(** The pink invariant: 16 rows, and the running sum is their sum. *)
Definition PinkSum (g : Gen Q) : Prop :=
  Float32Array.length (g_pinkRows g) = 16 /\
  (g_pinkRunningSum g == sum_rows (g_pinkRows g))%Q.

(** What the generators keep true of their fields when every white
    value lies in [-1, 1]. *)
Definition GenBounded (g : Gen Q) : Prop :=
  PinkSum g /\
  (forall i, (-1 <= Float32Array.get (g_pinkRows g) i <= 1)%Q) /\
  (-1 <= g_brownLast g <= 1)%Q /\
  (-1 <= g_blueLast g <= 1)%Q /\
  (-1 <= fst (g_violetLast g) <= 1)%Q /\
  (-2 <= snd (g_violetLast g) <= 2)%Q.

(** Every slot of both buffers lies in [-1, 1]. *)
Definition BuffersBounded (s : DB.State Q) : Prop :=
  (forall j, (-1 <= Float32Array.elem (DB.bufferA s) j <= 1)%Q) /\
  (forall j, (-1 <= Float32Array.elem (DB.bufferB s) j <= 1)%Q).

(** The bound of the samples of each kind. *)
Definition kind_bound (kind : string) : Q :=
  if (kind =? "pink")%string then 1
  else if (kind =? "brown")%string then 3.5
  else if (kind =? "blue")%string then 1.4
  else if (kind =? "violet")%string then 2
  else 1.

(** A uniform source whose white values are -1, +1, -1, +1, ... *)
Definition alternating : N -> Q := fun k => if N.even k then 0%Q else 1%Q.

(** A uniform source that returns 0 for the first [2 * capacity] calls
    and 1/2 from then on. *)
Definition late_source : N -> Q :=
  fun k => if k <? 2 * capacity then 0%Q else (1 # 2)%Q.

(** A uniform source whose white values are -1, 1/2, 1/2, ... *)
Definition low_then_high : N -> Q :=
  fun k => if k =? 0 then 0%Q else (3 # 4)%Q.

(** * The application: previous and next track

    The handlers the application registers with the media session for
    'previoustrack' and 'nexttrack'.  Each computes a kind from the
    current one and passes it to selectNoiseType; [previoustrack] and
    [nexttrack] are that kind ([None] for an undefined array element). *)

Module App.

Definition noiseTypes : list string :=
  ["white"; "pink"; "brown"; "blue"; "violet"]%string.

(* Array.prototype.indexOf: the first index holding the value, or -1 *)
Fixpoint indexOf_from (a : list string) (x : string) (i : Z) : Z :=
  match a with
  | [] => (-1)%Z
  | y :: rest => if (y =? x)%string then i else indexOf_from rest x (i + 1)%Z
  end.

Definition indexOf (a : list string) (x : string) : Z := indexOf_from a x 0%Z.

(* a[i], undefined outside the array *)
Definition element (a : list string) (i : Z) : option string :=
  if (i <? 0)%Z then None else nth_error a (Z.to_nat i).

Definition length (a : list string) : Z := Z.of_nat (List.length a).

(* the % of JavaScript takes the sign of the dividend: Z.rem *)
Definition previoustrack (currentNoiseType : string) : option string :=
  let currentIndex := indexOf noiseTypes currentNoiseType in
  let previousIndex :=
    Z.rem (currentIndex - 1 + length noiseTypes) (length noiseTypes) in
  element noiseTypes previousIndex.

Definition nexttrack (currentNoiseType : string) : option string :=
  let currentIndex := indexOf noiseTypes currentNoiseType in
  let nextIndex := Z.rem (currentIndex + 1) (length noiseTypes) in
  element noiseTypes nextIndex.

End App.

(** * Properties *)

(** Running the state-passing code: the plumbing and the record
    updates are unfolded, fields of updated records are projected, and
    nothing else is touched. *)
Ltac run_monad :=
  unfold bind, ret, get_state, modify, when;
  cbn beta iota zeta delta
    [
     bind ret get_state modify when fst snd DB.buffer DB.set_buffer
     DB.noiseType DB.bufferSize DB.bufferA DB.bufferB DB.index
     DB.activeBuffer DB.inactiveBuffer DB.fillPointer DB.pinkRows
     DB.pinkRunningSum DB.pinkIndex DB.pinkIndexMask DB.brownLast
     DB.blueLast DB.frameCount DB.violetLast DB.randomCalls
     DB.set_noiseType DB.set_bufferA DB.set_bufferB DB.set_index
     DB.set_activeBuffer DB.set_inactiveBuffer DB.set_fillPointer
     DB.set_pinkRows DB.set_pinkRunningSum DB.set_pinkIndex
     DB.set_brownLast DB.set_blueLast DB.set_frameCount
     DB.set_violetLast DB.set_randomCalls Dir.noiseType Dir.pinkRows
     Dir.pinkRunningSum Dir.pinkIndex Dir.pinkIndexMask Dir.brownLast
     Dir.blueLast Dir.violetLast Dir.randomCalls Dir.set_noiseType
     Dir.set_pinkRows Dir.set_pinkRunningSum Dir.set_pinkIndex
     Dir.set_brownLast Dir.set_blueLast Dir.set_violetLast
     Dir.set_randomCalls g_pinkRows g_pinkRunningSum g_pinkIndex
     g_pinkIndexMask g_brownLast g_blueLast g_violetLast DB_gen
     DB_set_gen Dir_gen Dir_set_gen].

Ltac split_and := repeat match goal with |- _ /\ _ => split end.

(** Bounds in exact arithmetic, also of a quotient by a positive constant. *)
Ltac bound :=
  first [ assumption
        | lra
        | apply Qle_shift_div_l; [reflexivity|lra]
        | apply Qle_shift_div_r; [reflexivity|lra] ].

Tactic Notation "run_monad" "in" hyp(H) :=
  unfold bind, ret, get_state, modify, when in H;
  cbn beta iota zeta delta
    [
     bind ret get_state modify when fst snd DB.buffer DB.set_buffer
     DB.noiseType DB.bufferSize DB.bufferA DB.bufferB DB.index
     DB.activeBuffer DB.inactiveBuffer DB.fillPointer DB.pinkRows
     DB.pinkRunningSum DB.pinkIndex DB.pinkIndexMask DB.brownLast
     DB.blueLast DB.frameCount DB.violetLast DB.randomCalls
     DB.set_noiseType DB.set_bufferA DB.set_bufferB DB.set_index
     DB.set_activeBuffer DB.set_inactiveBuffer DB.set_fillPointer
     DB.set_pinkRows DB.set_pinkRunningSum DB.set_pinkIndex
     DB.set_brownLast DB.set_blueLast DB.set_frameCount
     DB.set_violetLast DB.set_randomCalls Dir.noiseType Dir.pinkRows
     Dir.pinkRunningSum Dir.pinkIndex Dir.pinkIndexMask Dir.brownLast
     Dir.blueLast Dir.violetLast Dir.randomCalls Dir.set_noiseType
     Dir.set_pinkRows Dir.set_pinkRunningSum Dir.set_pinkIndex
     Dir.set_brownLast Dir.set_blueLast Dir.set_violetLast
     Dir.set_randomCalls g_pinkRows g_pinkRunningSum g_pinkIndex
     g_pinkIndexMask g_brownLast g_blueLast g_violetLast DB_gen
     DB_set_gen Dir_gen Dir_set_gen] in H.

(** Two states are equal when their fields are. *)
Lemma DB_state_ext {num : Type} (s s' : DB.State num) :
  DB.noiseType s = DB.noiseType s' ->
  DB.bufferSize s = DB.bufferSize s' ->
  DB.bufferA s = DB.bufferA s' ->
  DB.bufferB s = DB.bufferB s' ->
  DB.index s = DB.index s' ->
  DB.activeBuffer s = DB.activeBuffer s' ->
  DB.inactiveBuffer s = DB.inactiveBuffer s' ->
  DB.fillPointer s = DB.fillPointer s' ->
  DB.pinkRows s = DB.pinkRows s' ->
  DB.pinkRunningSum s = DB.pinkRunningSum s' ->
  DB.pinkIndex s = DB.pinkIndex s' ->
  DB.pinkIndexMask s = DB.pinkIndexMask s' ->
  DB.brownLast s = DB.brownLast s' ->
  DB.blueLast s = DB.blueLast s' ->
  DB.frameCount s = DB.frameCount s' ->
  DB.violetLast s = DB.violetLast s' ->
  DB.randomCalls s = DB.randomCalls s' ->
  s = s'.
Proof.
  destruct s, s'; cbn; intros; subst; reflexivity.
Qed.

Lemma Dir_state_ext {num : Type} (s s' : Dir.State num) :
  Dir.noiseType s = Dir.noiseType s' ->
  Dir.pinkRows s = Dir.pinkRows s' ->
  Dir.pinkRunningSum s = Dir.pinkRunningSum s' ->
  Dir.pinkIndex s = Dir.pinkIndex s' ->
  Dir.pinkIndexMask s = Dir.pinkIndexMask s' ->
  Dir.brownLast s = Dir.brownLast s' ->
  Dir.blueLast s = Dir.blueLast s' ->
  Dir.violetLast s = Dir.violetLast s' ->
  Dir.randomCalls s = Dir.randomCalls s' ->
  s = s'.
Proof.
  destruct s, s'; cbn; intros; subst; reflexivity.
Qed.

Ltac state_eq :=
  unfold DB.set_buffer, DB.buffer;
  repeat match goal with
         | |- context [match ?b with RefA => _ | RefB => _ end] => destruct b
         end;
  (apply DB_state_ext || apply Dir_state_ext);
  run_monad; try reflexivity; try lia.

Section Frame.
Context {num : Type} `{Number num}.

(** C10. Handling a control message changes the noiseType field and
    nothing else, in both processors: every generator field and every
    buffer field of the state is as before, and the new noiseType is the
    message's when the message is a setNoiseType message and the old one
    otherwise.  Hence setting the kind back to the previous one gives
    back the very state the engine was in. *)
Theorem onmessage_changes_noiseType_only :
  (forall (data : Message) (s : DB.State num),
      let s' := snd (DB.onmessage data s) in
      DB.noiseType s' =
        (if (type data =? "setNoiseType")%string
         then msgNoiseType data else DB.noiseType s) /\
      DB.pinkRows s' = DB.pinkRows s /\
      DB.pinkRunningSum s' = DB.pinkRunningSum s /\
      DB.pinkIndex s' = DB.pinkIndex s /\
      DB.pinkIndexMask s' = DB.pinkIndexMask s /\
      DB.brownLast s' = DB.brownLast s /\
      DB.blueLast s' = DB.blueLast s /\
      DB.violetLast s' = DB.violetLast s /\
      DB.bufferSize s' = DB.bufferSize s /\
      DB.bufferA s' = DB.bufferA s /\
      DB.bufferB s' = DB.bufferB s /\
      DB.activeBuffer s' = DB.activeBuffer s /\
      DB.inactiveBuffer s' = DB.inactiveBuffer s /\
      DB.index s' = DB.index s /\
      DB.fillPointer s' = DB.fillPointer s /\
      DB.frameCount s' = DB.frameCount s /\
      DB.randomCalls s' = DB.randomCalls s /\
      snd (DB.onmessage (setNoiseType (DB.noiseType s)) s') = s) /\
  (forall (data : Message) (s : Dir.State num),
      let s' := snd (Dir.onmessage data s) in
      Dir.noiseType s' =
        (if (type data =? "setNoiseType")%string
         then msgNoiseType data else Dir.noiseType s) /\
      Dir.pinkRows s' = Dir.pinkRows s /\
      Dir.pinkRunningSum s' = Dir.pinkRunningSum s /\
      Dir.pinkIndex s' = Dir.pinkIndex s /\
      Dir.pinkIndexMask s' = Dir.pinkIndexMask s /\
      Dir.brownLast s' = Dir.brownLast s /\
      Dir.blueLast s' = Dir.blueLast s /\
      Dir.violetLast s' = Dir.violetLast s /\
      Dir.randomCalls s' = Dir.randomCalls s /\
      snd (Dir.onmessage (setNoiseType (Dir.noiseType s)) s') = s).
Proof.
  split; intros data s s'; subst s';
    unfold DB.onmessage, Dir.onmessage, setNoiseType;
    destruct (type data =? "setNoiseType")%string;
    destruct s; simpl; run_monad; repeat split; reflexivity.
Qed.

(** C8. A control message that sets a kind outside the five known ones
    does not stop the engine: the handler stores the string, and from
    then on getSample is the white generator, result and state. *)
Theorem unknown_kind_falls_back_to_white :
  forall (U : N -> num) (kind : string),
    ~ In kind kinds ->
    (forall s : DB.State num,
        let s' := snd (DB.onmessage (setNoiseType kind) s) in
        DB.noiseType s' = kind /\ DB.getSample s' = DB.white s') /\
    (forall s : Dir.State num,
        let s' := snd (Dir.onmessage (setNoiseType kind) s) in
        Dir.noiseType s' = kind /\ Dir.getSample U s' = Dir.white U s').
Proof.
  intros U kind Hk.
  assert (Hp : (kind =? "pink")%string = false)
    by (apply String.eqb_neq; intro; subst; apply Hk; simpl; tauto).
  assert (Hb : (kind =? "brown")%string = false)
    by (apply String.eqb_neq; intro; subst; apply Hk; simpl; tauto).
  assert (Hl : (kind =? "blue")%string = false)
    by (apply String.eqb_neq; intro; subst; apply Hk; simpl; tauto).
  assert (Hv : (kind =? "violet")%string = false)
    by (apply String.eqb_neq; intro; subst; apply Hk; simpl; tauto).
  split; intros s s'; subst s'; split; try reflexivity;
    unfold DB.getSample, Dir.getSample, DB.onmessage, Dir.onmessage;
    simpl; run_monad; rewrite Hp, Hb, Hl, Hv; reflexivity.
Qed.

End Frame.

Lemma unknown_kind_falls_back_to_white_witness :
  ~ In "purple"%string kinds /\
  (forall s : DB.State Q,
      DB.getSample (snd (DB.onmessage (setNoiseType "purple") s))
      = DB.white (snd (DB.onmessage (setNoiseType "purple") s))).
Proof.
  assert (Hk : ~ In "purple"%string kinds).
  { simpl. intros [E|[E|[E|[E|[E|[]]]]]]; discriminate E. }
  split; [exact Hk|].
  intros s.
  exact (proj2 (proj1 (unknown_kind_falls_back_to_white (fun _ => 0%Q) "purple" Hk) s)).
Defined.

(** ** The double-buffered uniform source *)

Section Source.
Context {num : Type} `{Number num}.
Variable U : N -> num.

Lemma white_eq (s : DB.State num) :
  DB.white s =
  (Float32Array.get (DB.buffer (DB.activeBuffer s) s) (DB.index s),
   if Float32Array.length (DB.buffer (DB.activeBuffer s) s) <=? DB.index s + 1
   then DB.set_fillPointer 0
          (DB.set_index 0
             (DB.set_inactiveBuffer (DB.activeBuffer s)
                (DB.set_activeBuffer (DB.inactiveBuffer s)
                   (DB.set_index (DB.index s + 1) s))))
   else DB.set_index (DB.index s + 1) s).
Proof.
  unfold DB.white. run_monad.
  destruct (DB.activeBuffer s); simpl;
    match goal with |- context [?a <=? ?b] => destruct (a <=? b) end;
    reflexivity.
Qed.

Lemma white_index (s : DB.State num) :
  DB.index (snd (DB.white s)) =
  advance (Float32Array.length (DB.buffer (DB.activeBuffer s) s)) (DB.index s).
Proof.
  rewrite white_eq. unfold advance. simpl.
  destruct (_ <=? _); reflexivity.
Qed.

Lemma white_randomCalls (s : DB.State num) :
  DB.randomCalls (snd (DB.white s)) = DB.randomCalls s.
Proof. rewrite white_eq. simpl. destruct (_ <=? _); reflexivity. Qed.

(** Each of the four coloured generators reads the source exactly as
    [white] does: once. *)
Lemma pink_source (s : DB.State num) :
  source (snd (DB.pink s)) = source (snd (DB.white s)).
Proof.
  unfold DB.pink, source. run_monad. destruct (DB.white s) as [w s1].
  run_monad. destruct (_ <? 16); reflexivity.
Qed.

Lemma brown_source (s : DB.State num) :
  source (snd (DB.brown s)) = source (snd (DB.white s)).
Proof.
  unfold DB.brown, source. run_monad. destruct (DB.white s) as [w s1].
  reflexivity.
Qed.

Lemma blue_source (s : DB.State num) :
  source (snd (DB.blue s)) = source (snd (DB.white s)).
Proof.
  unfold DB.blue, source. run_monad. destruct (DB.white s) as [w s1].
  reflexivity.
Qed.

Lemma violet_source (s : DB.State num) :
  source (snd (DB.violet s)) = source (snd (DB.white s)).
Proof.
  unfold DB.violet, source. run_monad. destruct (DB.white s) as [w s1].
  reflexivity.
Qed.

Lemma getSample_source (s : DB.State num) :
  source (snd (DB.getSample s)) = source (snd (DB.white s)).
Proof.
  unfold DB.getSample, bind, get_state.
  repeat match goal with |- context [if ?b then _ else _] => destruct b end;
    auto using pink_source, brown_source, blue_source, violet_source.
Qed.

Lemma set_buffer_frame (b : BufRef) (buf : Float32Array.t num) (s : DB.State num) :
  DB.buffer b (DB.set_buffer b buf s) = buf /\
  (forall b', b' <> b -> DB.buffer b' (DB.set_buffer b buf s) = DB.buffer b' s).
Proof.
  split; [destruct b; reflexivity|].
  intros b' Hb. destruct b, b'; try reflexivity; congruence.
Qed.

Lemma bufferFill_iter (b : BufRef) (start : N) (s : DB.State num) (count : N) :
  let len := Float32Array.length (DB.buffer b s) in
  let n := N.min count (len - start) in
  exists buf,
    N.iter count
      (fun st : N * DB.State num =>
         let (i, s) := st in
         if start + i <? Float32Array.length (DB.buffer b s)
         then (i + 1, snd (DB.bufferFill_body U b start i s)) else st)
      (0, s)
    = (n, DB.set_randomCalls (DB.randomCalls s + n) (DB.set_buffer b buf s)) /\
    refilled U (DB.buffer b s) start n (DB.randomCalls s) buf.
Proof.
  intros len. induction count as [|k IH] using N.peano_ind; intros n.
  - exists (DB.buffer b s). subst n. rewrite N.min_0_l. simpl. split.
    + rewrite N.add_0_r. destruct s, b; reflexivity.
    + split; [reflexivity|]. intros j.
      destruct (N.leb_spec start j), (N.ltb_spec j (start + 0)); simpl;
        try reflexivity; lia.
  - destruct IH as (buf & Hit & Hlen & Hel).
    rewrite N.iter_succ, Hit. clear Hit.
    set (m := N.min k (len - start)) in *.
    assert (Hb : DB.buffer b
                   (DB.set_randomCalls (DB.randomCalls s + m) (DB.set_buffer b buf s))
                 = buf) by (destruct b; reflexivity).
    cbv beta iota. rewrite Hb, Hlen. fold len.
    destruct (N.ltb_spec (start + m) len) as [Hlt|Hge].
    + assert (Hm : m = k) by lia.
      assert (Hn : n = k + 1) by (subst n; lia).
      exists (Float32Array.set buf (start + k)
                (U (DB.randomCalls s + k)%N * lit 2 - lit 1)%num).
      split.
      * rewrite Hn, Hm. unfold DB.bufferFill_body, DB.random. run_monad.
        f_equal. destruct b; simpl; rewrite N.add_assoc; reflexivity.
      * unfold Float32Array.set. rewrite Hlen. fold len.
        destruct (N.ltb_spec (start + k) len); [|lia].
        split; [reflexivity|]. intros j. simpl. rewrite Hel, Hm, Hn.
        destruct (N.eqb_spec j (start + k)) as [->|Hj].
        -- destruct (N.leb_spec start (start + k)),
             (N.ltb_spec (start + k) (start + (k + 1))); simpl; try lia.
           replace (start + k - start) with k by lia. reflexivity.
        -- destruct (N.leb_spec start j), (N.ltb_spec j (start + k)),
             (N.ltb_spec j (start + (k + 1))); simpl; try reflexivity; lia.
    + assert (Hn : n = m) by (subst n m; lia).
      exists buf. rewrite Hn. split; [reflexivity|]. split; assumption.
Qed.

(** [bufferFill(buffer, start, count)] overwrites the slots from [start]
    on, [count] of them or as many as the buffer still has, with the
    next values of Math.random, and touches nothing else. *)
Lemma bufferFill_spec (b : BufRef) (start count : N) (s : DB.State num) :
  let n := N.min count (Float32Array.length (DB.buffer b s) - start) in
  exists buf,
    snd (DB.bufferFill U b start count s)
    = DB.set_randomCalls (DB.randomCalls s + n) (DB.set_buffer b buf s) /\
    refilled U (DB.buffer b s) start n (DB.randomCalls s) buf.
Proof.
  intros n. destruct (bufferFill_iter b start s count) as (buf & Hit & Hr).
  exists buf. split; [|exact Hr].
  unfold DB.bufferFill, for_loop. cbv beta. unfold snd at 1.
  fold n in Hit. rewrite Hit. reflexivity.
Qed.

(** The freshly constructed engine: buffer A holds the first
    [capacity] uniform values, buffer B the next [capacity]; A is
    active, the cursor and the refill marker are 0. *)
Lemma constructor_spec :
  exists bufA bufB,
    DB.constructor U =
    {| DB.noiseType := "white";
       DB.bufferSize := capacity;
       DB.bufferA := bufA;
       DB.bufferB := bufB;
       DB.index := 0;
       DB.activeBuffer := RefA;
       DB.inactiveBuffer := RefB;
       DB.fillPointer := 0;
       DB.pinkRows := Float32Array.new 16;
       DB.pinkRunningSum := lit 0;
       DB.pinkIndex := 0;
       DB.pinkIndexMask := 65535;
       DB.brownLast := lit 0;
       DB.blueLast := lit 0;
       DB.frameCount := 0;
       DB.violetLast := (lit 0, lit 0);
       DB.randomCalls := capacity + capacity |} /\
    refilled U (Float32Array.new capacity) 0 capacity 0 bufA /\
    refilled U (Float32Array.new capacity) 0 capacity capacity bufB.
Proof.
  unfold DB.constructor. cbv zeta. unfold bind.
  match goal with
  | |- context [DB.bufferFill U RefA 0 ?c ?s] =>
      destruct (bufferFill_spec RefA 0 c s) as (bufA & EA & HA);
      destruct (DB.bufferFill U RefA 0 c s) as [[] s1]
  end.
  cbv [snd] in EA. subst s1.
  match goal with
  | |- context [DB.bufferFill U RefB 0 ?c ?s] =>
      destruct (bufferFill_spec RefB 0 c s) as (bufB & EB & HB);
      destruct (DB.bufferFill U RefB 0 c s) as [[] s2]
  end.
  cbv [snd] in EB |- *. subst s2.
  exists bufA, bufB. split; [reflexivity|]. split.
  - exact HA.
  - exact HB.
Qed.

Lemma source_fields (s s' : DB.State num) :
  source s = source s' ->
  DB.bufferSize s = DB.bufferSize s' /\
  DB.bufferA s = DB.bufferA s' /\
  DB.bufferB s = DB.bufferB s' /\
  DB.index s = DB.index s' /\
  DB.activeBuffer s = DB.activeBuffer s' /\
  DB.inactiveBuffer s = DB.inactiveBuffer s' /\
  DB.fillPointer s = DB.fillPointer s' /\
  DB.frameCount s = DB.frameCount s' /\
  DB.randomCalls s = DB.randomCalls s'.
Proof.
  unfold source. intros E. injection E. intros. repeat split; assumption.
Qed.

Lemma WellFormed_source (s s' : DB.State num) :
  source s = source s' -> WellFormed s -> WellFormed s'.
Proof.
  intros E. apply source_fields in E.
  destruct E as (E1 & E2 & E3 & E4 & E5 & E6 & E7 & _ & _).
  unfold WellFormed. rewrite E1, E2, E3, E4, E5, E6, E7. tauto.
Qed.

Lemma WellFormed_active_length (s : DB.State num) :
  WellFormed s ->
  Float32Array.length (DB.buffer (DB.activeBuffer s) s) = DB.bufferSize s.
Proof.
  intros (HA & HB & _). destruct (DB.activeBuffer s); assumption.
Qed.

Lemma white_WellFormed (s : DB.State num) :
  WellFormed s -> WellFormed (snd (DB.white s)).
Proof.
  intros W. pose proof (WellFormed_active_length s W) as HL.
  destruct W as (HA & HB & Hi & Hne & Hf & Hc & Hle).
  rewrite white_eq, HL. unfold WellFormed.
  destruct (N.leb_spec (DB.bufferSize s) (DB.index s + 1)); run_monad;
    repeat split; try assumption; try lia; try congruence;
    try reflexivity; try (intro; congruence).
Qed.

Lemma getSample_WellFormed (s : DB.State num) :
  WellFormed s -> WellFormed (snd (DB.getSample s)).
Proof.
  intros W. apply (WellFormed_source (snd (DB.white s))).
  - symmetry. apply getSample_source.
  - apply white_WellFormed, W.
Qed.

Lemma constructor_WellFormed : WellFormed (DB.constructor U).
Proof.
  destruct constructor_spec as (bufA & bufB & E & (HA & _) & (HB & _)).
  rewrite E. unfold WellFormed. run_monad.
  repeat split; try assumption; try reflexivity; try discriminate.
Qed.

(** Reading on inside the active buffer only moves the cursor. *)
Lemma run_white_inside (s : DB.State num) (k : N) :
  DB.index s + k < Float32Array.length (DB.buffer (DB.activeBuffer s) s) ->
  run k DB.white s = DB.set_index (DB.index s + k) s.
Proof.
  unfold run. induction k as [|k IH] using N.peano_ind; intros Hk.
  - rewrite N.add_0_r. reflexivity.
  - rewrite N.iter_succ, IH by lia. rewrite white_eq.
    replace (Float32Array.length _)
      with (Float32Array.length (DB.buffer (DB.activeBuffer s) s))
      by (destruct s as [? ? ? ? ? [] ? ? ? ? ? ? ? ? ? ? ?]; reflexivity).
    replace (DB.index (DB.set_index (DB.index s + k) s)) with (DB.index s + k)
      by reflexivity.
    destruct (N.leb_spec
                (Float32Array.length (DB.buffer (DB.activeBuffer s) s))
                (DB.index s + k + 1)); [lia|].
    state_eq.
Qed.

(** The read that empties the active buffer swaps the two buffers and
    resets the cursor and the refill marker. *)
Lemma run_white_swap (s : DB.State num) (k : N) :
  DB.index s + k + 1 = Float32Array.length (DB.buffer (DB.activeBuffer s) s) ->
  run (N.succ k) DB.white s =
  DB.set_fillPointer 0
    (DB.set_index 0
       (DB.set_inactiveBuffer (DB.activeBuffer s)
          (DB.set_activeBuffer (DB.inactiveBuffer s) s))).
Proof.
  intros Hk. unfold run. rewrite N.iter_succ.
  fold (run k DB.white s). rewrite run_white_inside by lia.
  rewrite white_eq.
  replace (Float32Array.length _)
    with (Float32Array.length (DB.buffer (DB.activeBuffer s) s))
    by (destruct s as [? ? ? ? ? [] ? ? ? ? ? ? ? ? ? ? ?]; reflexivity).
  replace (DB.index (DB.set_index (DB.index s + k) s)) with (DB.index s + k)
    by reflexivity.
  destruct (N.leb_spec
              (Float32Array.length (DB.buffer (DB.activeBuffer s) s))
              (DB.index s + k + 1)); [|lia].
  reflexivity.
Qed.

End Source.

(** ** Reads of the uniform source per sample *)

Section Reads.
Context {num : Type} `{Number num}.

Lemma direct_white_eq (U : N -> num) (s : Dir.State num) :
  Dir.white U s =
  ((U (Dir.randomCalls s) * lit 2 - lit 1)%num,
   Dir.set_randomCalls (Dir.randomCalls s + 1) s).
Proof. reflexivity. Qed.

Lemma direct_generators_randomCalls (U : N -> num) (s : Dir.State num) :
  Dir.randomCalls (snd (Dir.white U s)) = Dir.randomCalls s + 1 /\
  Dir.randomCalls (snd (Dir.pink U s)) = Dir.randomCalls s + 1 /\
  Dir.randomCalls (snd (Dir.brown U s)) = Dir.randomCalls s + 1 /\
  Dir.randomCalls (snd (Dir.blue U s)) = Dir.randomCalls s + 1 /\
  Dir.randomCalls (snd (Dir.violet U s)) = Dir.randomCalls s + 1.
Proof.
  repeat split; try reflexivity.
  unfold Dir.pink. run_monad. rewrite direct_white_eq. run_monad.
  destruct (_ <? 16); reflexivity.
Qed.

End Reads.

(** C2, as stated, fails on the code: on the fresh engine one call of
    pink leaves the read cursor at 1, not at 2, and in the processor
    without buffers it has called Math.random once, not twice. *)
Lemma pink_does_not_read_twice :
  DB.index (snd (DB.pink (DB.constructor zeros)))
    <> DB.index (DB.constructor zeros) + 2 /\
  Dir.randomCalls (snd (Dir.pink zeros Dir.constructor))
    <> Dir.randomCalls (Dir.constructor (num := Q)) + 2.
Proof.
  split.
  - pose proof (source_fields _ _ (pink_source (DB.constructor zeros)))
      as (_&_&_&Pi&_).
    rewrite Pi, white_index.
    destruct (constructor_spec zeros) as (bufA & bufB & E & (HA & _) & _).
    rewrite E. run_monad. rewrite HA. discriminate.
  - destruct (direct_generators_randomCalls zeros Dir.constructor)
      as (_ & P & _).
    rewrite P. discriminate.
Qed.

(** ** The swap of the two buffers *)

Section Swap.
Context {num : Type} `{Number num}.
Variable U : N -> num.

(** Reading a well-formed engine from cursor 0: the first [bufferSize]
    reads walk through the active buffer; the last of them swaps. *)
Lemma reads_until_swap (s0 : DB.State num) :
  WellFormed s0 -> DB.index s0 = 0 ->
  (forall k, k < DB.bufferSize s0 ->
     DB.index (run k DB.white s0) = k /\
     DB.activeBuffer (run k DB.white s0) = DB.activeBuffer s0 /\
     result_after k DB.white s0
       = Float32Array.get (DB.buffer (DB.activeBuffer s0) s0) k) /\
  run (DB.bufferSize s0) DB.white s0 =
    DB.set_fillPointer 0
      (DB.set_index 0
         (DB.set_inactiveBuffer (DB.activeBuffer s0)
            (DB.set_activeBuffer (DB.inactiveBuffer s0) s0))).
Proof.
  intros W Hi. pose proof (WellFormed_active_length s0 W) as HL.
  destruct W as (_ & _ & Hlt & _). split.
  - intros k Hk. unfold result_after.
    rewrite run_white_inside by (rewrite Hi, HL; exact Hk).
    rewrite white_eq, Hi. run_monad. repeat split.
  - replace (DB.bufferSize s0) with (N.succ (DB.bufferSize s0 - 1)) at 1 by lia.
    apply run_white_swap. rewrite Hi, HL. lia.
Qed.

Lemma constructor_fields :
  DB.index (DB.constructor U) = 0 /\
  DB.bufferSize (DB.constructor U) = capacity /\
  DB.activeBuffer (DB.constructor U) = RefA /\
  DB.inactiveBuffer (DB.constructor U) = RefB /\
  DB.fillPointer (DB.constructor U) = 0 /\
  DB.frameCount (DB.constructor U) = 0 /\
  DB.randomCalls (DB.constructor U) = capacity + capacity /\
  DB.noiseType (DB.constructor U) = "white"%string.
Proof.
  destruct (constructor_spec U) as (bufA & bufB & E & _).
  rewrite E. run_monad. repeat split.
Qed.

(** C3. On the fresh engine, reading through [white]: each of the first
    [capacity] reads returns the slot of the active buffer under the
    cursor and moves the cursor on by one; the read that empties the
    buffer swaps the roles of the two buffers and resets the cursor and
    the refill marker to 0; so the read after [capacity] reads returns
    slot 0 of the buffer that was inactive at the start, and leaves the
    cursor at 1. *)
Theorem swap_after_capacity_reads :
  (forall k, k < capacity ->
     DB.index (run k DB.white (DB.constructor U)) = k /\
     DB.activeBuffer (run k DB.white (DB.constructor U))
       = DB.activeBuffer (DB.constructor U) /\
     result_after k DB.white (DB.constructor U)
       = Float32Array.get
           (DB.buffer (DB.activeBuffer (DB.constructor U)) (DB.constructor U)) k) /\
  DB.index (run capacity DB.white (DB.constructor U)) = 0 /\
  DB.activeBuffer (run capacity DB.white (DB.constructor U))
    = DB.inactiveBuffer (DB.constructor U) /\
  DB.inactiveBuffer (run capacity DB.white (DB.constructor U))
    = DB.activeBuffer (DB.constructor U) /\
  DB.fillPointer (run capacity DB.white (DB.constructor U)) = 0 /\
  result_after capacity DB.white (DB.constructor U)
    = Float32Array.get
        (DB.buffer (DB.inactiveBuffer (DB.constructor U)) (DB.constructor U)) 0 /\
  DB.index (run (capacity + 1) DB.white (DB.constructor U)) = 1.
Proof.
  pose proof (constructor_WellFormed U) as W.
  destruct constructor_fields as (Hi & Hsz & _).
  revert W Hi Hsz. generalize (DB.constructor U). intros s0 W Hi Hsz.
  destruct (reads_until_swap s0 W Hi) as [Hk Hswap].
  assert (HL : Float32Array.length (DB.buffer (DB.inactiveBuffer s0) s0)
               = capacity).
  { destruct W as (HA & HB & _). rewrite <- Hsz.
    destruct (DB.inactiveBuffer s0); assumption. }
  rewrite Hsz in Hk, Hswap. clear Hsz W.
  assert (Hnext : run (capacity + 1) DB.white s0
                  = snd (DB.white (run capacity DB.white s0))).
  { unfold run. rewrite N.add_1_r. apply N.iter_succ. }
  unfold result_after. rewrite Hnext, Hswap, white_eq. clear Hnext Hswap.
  split; [exact Hk|]. run_monad.
  replace (Float32Array.length _) with capacity
    by (rewrite <- HL; destruct (DB.inactiveBuffer s0); reflexivity).
  repeat split.
Qed.

End Swap.

Lemma swap_after_capacity_reads_witness :
  5 < capacity /\ DB.index (run 5 DB.white (DB.constructor zeros)) = 5.
Proof.
  split; [reflexivity|].
  pose proof (swap_after_capacity_reads zeros) as T.
  destruct T as [T _]. destruct (T 5 eq_refl) as [T5 _]. exact T5.
Defined.

(** ** Blocks *)

Section ChannelLoop.
Context {num : Type} `{Number num}.
Context {St : Type}.
Variable getSample : M St num.

(** The loop over the slots of one channel, common to both processors:
    after [k] rounds the first [k] slots hold the results of [k]
    successive calls and the state is the state after those calls. *)
Lemma channel_loop (ch : Float32Array.t num) (s : St) (k : N) :
  k <= Float32Array.length ch ->
  exists ch',
    N.iter k
      (fun st : N * Float32Array.t num * St =>
         let '(i, ch, s) := st in
         let (x, s') := getSample s in
         (i + 1, Float32Array.set ch i x, s'))
      (0, ch, s)
    = (k, ch', run k getSample s) /\
    Float32Array.length ch' = Float32Array.length ch /\
    forall i,
      Float32Array.elem ch' i =
      if i <? k then fround (result_after i getSample s)
      else Float32Array.elem ch i.
Proof.
  induction k as [|k IH] using N.peano_ind; intros Hk.
  - exists ch. repeat split. intros i. destruct (N.ltb_spec i 0); [lia|reflexivity].
  - destruct IH as (ch' & E & Hlen & Hel); [lia|].
    rewrite N.iter_succ, E. clear E.
    unfold run at 2. rewrite N.iter_succ. fold (run k getSample s).
    destruct (getSample (run k getSample s)) as [x s'] eqn:Ex.
    exists (Float32Array.set ch' k x). split; [|split].
    + rewrite N.add_1_r. reflexivity.
    + unfold Float32Array.set. destruct (k <? _); exact Hlen.
    + intros i. unfold Float32Array.set. rewrite Hlen.
      destruct (N.ltb_spec k (Float32Array.length ch)); [|lia].
      cbn [Float32Array.elem]. rewrite Hel.
      destruct (N.eqb_spec i k) as [->|Hik].
      * destruct (N.ltb_spec k (N.succ k)); [|lia].
        unfold result_after. rewrite Ex. reflexivity.
      * destruct (N.ltb_spec i k), (N.ltb_spec i (N.succ k));
          try reflexivity; lia.
Qed.

End ChannelLoop.

Section Blocks.
Context {num : Type} `{Number num}.

Lemma run_add {St A} (c : M St A) (n m : N) (s : St) :
  run (n + m) c s = run m c (run n c s).
Proof. unfold run. rewrite N.add_comm. apply N.iter_add. Qed.

Lemma result_after_add {St A} (c : M St A) (n m : N) (s : St) :
  result_after (n + m) c s = result_after m c (run n c s).
Proof. unfold result_after. rewrite run_add. reflexivity. Qed.

Lemma DB_fill_channel_spec (ch : Float32Array.t num) (s : DB.State num) :
  snd (DB.fill_channel ch s) = run (Float32Array.length ch) DB.getSample s /\
  Float32Array.length (fst (DB.fill_channel ch s)) = Float32Array.length ch /\
  forall i, i < Float32Array.length ch ->
    Float32Array.elem (fst (DB.fill_channel ch s)) i
    = fround (result_after i DB.getSample s).
Proof.
  destruct (channel_loop DB.getSample ch s (Float32Array.length ch))
    as (ch' & E & Hlen & Hel); [lia|].
  unfold DB.fill_channel. rewrite E. cbn [fst snd].
  repeat split; [exact Hlen|]. intros i Hi. rewrite Hel.
  destruct (N.ltb_spec i (Float32Array.length ch)); [reflexivity|lia].
Qed.

Lemma Dir_fill_channel_spec (U : N -> num) (ch : Float32Array.t num)
    (s : Dir.State num) :
  snd (Dir.fill_channel U ch s)
    = run (Float32Array.length ch) (Dir.getSample U) s /\
  Float32Array.length (fst (Dir.fill_channel U ch s)) = Float32Array.length ch /\
  forall i, i < Float32Array.length ch ->
    Float32Array.elem (fst (Dir.fill_channel U ch s)) i
    = fround (result_after i (Dir.getSample U) s).
Proof.
  destruct (channel_loop (Dir.getSample U) ch s (Float32Array.length ch))
    as (ch' & E & Hlen & Hel); [lia|].
  unfold Dir.fill_channel. rewrite E. cbn [fst snd].
  repeat split; [exact Hlen|]. intros i Hi. rewrite Hel.
  destruct (N.ltb_spec i (Float32Array.length ch)); [reflexivity|lia].
Qed.

(** Slot [i] of channel [c] of a block holds the result of the call of
    getSample number [offset output c + i] of the block. *)
Lemma DB_fill_channels_spec (output : list (Float32Array.t num)) :
  forall s : DB.State num,
    snd (DB.fill_channels output s) = run (slots output) DB.getSample s /\
    List.length (fst (DB.fill_channels output s)) = List.length output /\
    forall (c : nat) (d : Float32Array.t num) (i : N),
      (c < List.length output)%nat ->
      i < Float32Array.length (nth c output d) ->
      Float32Array.elem (nth c (fst (DB.fill_channels output s)) d) i
      = fround (result_after (offset output c + i) DB.getSample s).
Proof.
  induction output as [|ch rest IH]; intros s.
  - repeat split. intros c d i Hc. inversion Hc.
  - cbn [DB.fill_channels]. unfold bind, ret.
    destruct (DB_fill_channel_spec ch s) as (E1 & L1 & V1).
    destruct (DB.fill_channel ch s) as [ch' s1]. cbn [fst snd] in E1, L1, V1.
    specialize (IH s1). destruct (DB.fill_channels rest s1) as [rest' s2].
    cbn [fst snd] in IH |- *. destruct IH as (E2 & L2 & V2).
    split; [|split].
    + cbn [slots]. rewrite run_add. subst s1. exact E2.
    + cbn [List.length]. rewrite L2. reflexivity.
    + intros [|c] d i Hc Hi.
      * cbn [nth] in Hi |- *. unfold offset. cbn [firstn slots].
        rewrite N.add_0_l. apply V1, Hi.
      * cbn [nth] in Hi |- *. cbn [List.length] in Hc.
        unfold offset. cbn [firstn slots]. fold (offset rest c).
        rewrite <- N.add_assoc, result_after_add. subst s1.
        apply V2; [lia|exact Hi].
Qed.

Lemma Dir_fill_channels_spec (U : N -> num) (output : list (Float32Array.t num)) :
  forall s : Dir.State num,
    snd (Dir.fill_channels U output s)
      = run (slots output) (Dir.getSample U) s /\
    List.length (fst (Dir.fill_channels U output s)) = List.length output /\
    forall (c : nat) (d : Float32Array.t num) (i : N),
      (c < List.length output)%nat ->
      i < Float32Array.length (nth c output d) ->
      Float32Array.elem (nth c (fst (Dir.fill_channels U output s)) d) i
      = fround (result_after (offset output c + i) (Dir.getSample U) s).
Proof.
  induction output as [|ch rest IH]; intros s.
  - repeat split. intros c d i Hc. inversion Hc.
  - cbn [Dir.fill_channels]. unfold bind, ret.
    destruct (Dir_fill_channel_spec U ch s) as (E1 & L1 & V1).
    destruct (Dir.fill_channel U ch s) as [ch' s1]. cbn [fst snd] in E1, L1, V1.
    specialize (IH s1). destruct (Dir.fill_channels U rest s1) as [rest' s2].
    cbn [fst snd] in IH |- *. destruct IH as (E2 & L2 & V2).
    split; [|split].
    + cbn [slots]. rewrite run_add. subst s1. exact E2.
    + cbn [List.length]. rewrite L2. reflexivity.
    + intros [|c] d i Hc Hi.
      * cbn [nth] in Hi |- *. unfold offset. cbn [firstn slots].
        rewrite N.add_0_l. apply V1, Hi.
      * cbn [nth] in Hi |- *. cbn [List.length] in Hc.
        unfold offset. cbn [firstn slots]. fold (offset rest c).
        rewrite <- N.add_assoc, result_after_add. subst s1.
        apply V2; [lia|exact Hi].
Qed.

Lemma DB_process_output (U : N -> num) (output : list (Float32Array.t num))
    (s : DB.State num) :
  fst (DB.process U output s) = (fst (DB.fill_channels output s), true).
Proof.
  unfold DB.process. unfold bind at 1.
  destruct (DB.fill_channels output s) as [out s1]. run_monad.
  destruct (_ && _).
  - destruct (DB.bufferFill U _ _ _ _) as [[] s2]. reflexivity.
  - reflexivity.
Qed.

Lemma Dir_process_output (U : N -> num) (output : list (Float32Array.t num))
    (s : Dir.State num) :
  fst (Dir.process U output s) = (fst (Dir.fill_channels U output s), true).
Proof.
  unfold Dir.process, bind, ret.
  destruct (Dir.fill_channels U output s) as [out s1]. reflexivity.
Qed.

Lemma DB_process_slot (U : N -> num) (output : list (Float32Array.t num))
    (s : DB.State num) (c : nat) (d : Float32Array.t num) (i : N) :
  (c < List.length output)%nat ->
  i < Float32Array.length (nth c output d) ->
  Float32Array.elem (nth c (fst (fst (DB.process U output s))) d) i
  = fround (result_after (offset output c + i) DB.getSample s).
Proof.
  intros Hc Hi. rewrite DB_process_output. cbn [fst].
  apply DB_fill_channels_spec; assumption.
Qed.

Lemma Dir_process_slot (U : N -> num) (output : list (Float32Array.t num))
    (s : Dir.State num) (c : nat) (d : Float32Array.t num) (i : N) :
  (c < List.length output)%nat ->
  i < Float32Array.length (nth c output d) ->
  Float32Array.elem (nth c (fst (fst (Dir.process U output s))) d) i
  = fround (result_after (offset output c + i) (Dir.getSample U) s).
Proof.
  intros Hc Hi. rewrite Dir_process_output. cbn [fst].
  apply Dir_fill_channels_spec; assumption.
Qed.

(** C1, as the code has it.  A block is filled by successive calls of
    getSample, channel after channel: slot [i] of channel [c] receives
    (converted by the store) the result of the call number
    [offset output c + i] of the block, so every slot of every channel
    gets a sample of its own; two channels do not share their values. *)
Theorem every_slot_gets_its_own_sample :
  (forall (U : N -> num) (output : list (Float32Array.t num))
          (s : DB.State num) (c : nat) (d : Float32Array.t num) (i : N),
      (c < List.length output)%nat ->
      i < Float32Array.length (nth c output d) ->
      Float32Array.elem (nth c (fst (fst (DB.process U output s))) d) i
      = fround (result_after (offset output c + i) DB.getSample s)) /\
  (forall (U : N -> num) (output : list (Float32Array.t num))
          (s : Dir.State num) (c : nat) (d : Float32Array.t num) (i : N),
      (c < List.length output)%nat ->
      i < Float32Array.length (nth c output d) ->
      Float32Array.elem (nth c (fst (fst (Dir.process U output s))) d) i
      = fround (result_after (offset output c + i) (Dir.getSample U) s)).
Proof.
  split; intros; [apply DB_process_slot|apply Dir_process_slot]; assumption.
Qed.

End Blocks.

Lemma every_slot_gets_its_own_sample_witness :
  (1 < List.length stereo_block)%nat /\
  0 < Float32Array.length (nth 1 stereo_block (Float32Array.new 0)) /\
  Float32Array.elem
    (nth 1 (fst (fst (DB.process zeros stereo_block small_engine)))
       (Float32Array.new 0)) 0
  = fround (result_after (offset stereo_block 1 + 0) DB.getSample small_engine).
Proof.
  assert (Hc : (1 < List.length stereo_block)%nat) by (cbn; lia).
  assert (Hi : 0 < Float32Array.length (nth 1 stereo_block (Float32Array.new 0)))
    by reflexivity.
  split; [exact Hc|]. split; [exact Hi|].
  exact (proj1 every_slot_gets_its_own_sample zeros stereo_block small_engine
           1%nat (Float32Array.new 0) 0 Hc Hi).
Defined.

(** ** The samples of the fresh engine *)

Section Fresh.
Context {num : Type} `{Number num}.
Variable U : N -> num.

Lemma white_generator (s : DB.State num) :
  generator (snd (DB.white s)) = generator s.
Proof.
  rewrite white_eq. unfold generator. cbn [snd].
  destruct (_ <=? _); reflexivity.
Qed.

Lemma getSample_white (s : DB.State num) :
  DB.noiseType s = "white"%string -> DB.getSample s = DB.white s.
Proof.
  intros E. unfold DB.getSample, bind, get_state. rewrite E. reflexivity.
Qed.

Lemma run_white_noiseType (k : N) (s : DB.State num) :
  DB.noiseType (run k DB.white s) = DB.noiseType s.
Proof.
  unfold run. induction k as [|k IH] using N.peano_ind; [reflexivity|].
  rewrite N.iter_succ.
  pose proof (white_generator (N.iter k (fun s => snd (DB.white s)) s)) as G.
  unfold generator in G. injection G. intros. congruence.
Qed.

Lemma run_getSample_white (k : N) (s : DB.State num) :
  DB.noiseType s = "white"%string ->
  run k DB.getSample s = run k DB.white s.
Proof.
  intros E. unfold run. induction k as [|k IH] using N.peano_ind; [reflexivity|].
  rewrite !N.iter_succ, IH, getSample_white; [reflexivity|].
  fold (run k DB.white s). rewrite run_white_noiseType. exact E.
Qed.

Lemma constructor_buffers (j : N) :
  j < capacity ->
  Float32Array.elem (DB.bufferA (DB.constructor U)) j
    = fround (U j * lit 2 - lit 1)%num /\
  Float32Array.elem (DB.bufferB (DB.constructor U)) j
    = fround (U (capacity + j)%N * lit 2 - lit 1)%num.
Proof.
  intros Hj.
  destruct (constructor_spec U) as (bufA & bufB & E & (_ & HA) & (_ & HB)).
  rewrite E. run_monad. rewrite HA, HB.
  destruct (N.leb_spec 0 j); [|lia].
  destruct (N.ltb_spec j (0 + capacity)); [|lia].
  cbn [andb]. rewrite N.sub_0_r. split; reflexivity.
Qed.

(** While the fresh engine reads its first buffer and the kind is
    white, sample number [k] is the value of Math.random number [k]. *)
Lemma fresh_white_samples (k : N) :
  k < capacity ->
  result_after k DB.getSample (DB.constructor U)
  = fround (U k * lit 2 - lit 1)%num.
Proof.
  intros Hk.
  destruct (constructor_buffers k Hk) as [EA _].
  pose proof (constructor_WellFormed U) as W.
  destruct (constructor_fields U) as (Hi & Hsz & Hact & _ & _ & _ & _ & Hnt).
  revert EA W Hi Hsz Hact Hnt. generalize (DB.constructor U).
  intros s0 EA W Hi Hsz Hact Hnt.
  destruct (reads_until_swap s0 W Hi) as [Hr _].
  rewrite Hsz in Hr. destruct (Hr k Hk) as (_ & _ & Hres).
  unfold result_after in *.
  rewrite run_getSample_white, getSample_white by
    (try rewrite run_white_noiseType; exact Hnt).
  rewrite Hres, Hact. exact EA.
Qed.

End Fresh.

(** C1, as stated, fails on the code: on the fresh engine, with a block
    of two channels of 128 slots and a uniform source that changes
    after 128 values, slot 0 of the second channel holds sample 128 and
    slot 0 of the first channel holds sample 0, and they differ (0 and
    -1); in the processor without buffers as well. *)
Lemma channels_receive_different_samples :
  ~ (Float32Array.elem
       (nth 1 (fst (fst (DB.process step_source stereo_block
                           (DB.constructor step_source))))
          (Float32Array.new 0)) 0
     == Float32Array.elem
          (nth 0 (fst (fst (DB.process step_source stereo_block
                              (DB.constructor step_source))))
             (Float32Array.new 0)) 0)%Q /\
  ~ (Float32Array.elem
       (nth 1 (fst (fst (Dir.process step_source stereo_block Dir.constructor)))
          (Float32Array.new 0)) 0
     == Float32Array.elem
          (nth 0 (fst (fst (Dir.process step_source stereo_block Dir.constructor)))
             (Float32Array.new 0)) 0)%Q.
Proof.
  split.
  - assert (E0 : result_after 0 DB.getSample (DB.constructor step_source)
                 = (-1)%Q)
      by (rewrite fresh_white_samples; reflexivity).
    assert (E1 : result_after 128 DB.getSample (DB.constructor step_source)
                 = (0 # 2)%Q)
      by (rewrite fresh_white_samples; reflexivity).
    revert E0 E1. generalize (DB.constructor step_source). intros s0 E0 E1.
    rewrite (DB_process_slot step_source stereo_block s0 1 (Float32Array.new 0) 0)
      by (cbn; lia || reflexivity).
    rewrite (DB_process_slot step_source stereo_block s0 0 (Float32Array.new 0) 0)
      by (cbn; lia || reflexivity).
    change (offset stereo_block 1 + 0) with 128.
    change (offset stereo_block 0 + 0) with 0.
    rewrite E0, E1. intros Hq. vm_compute in Hq. discriminate Hq.
  - intros Hq. vm_compute in Hq. discriminate Hq.
Qed.

(** ** The refill of the inactive buffer *)

Section Refill.
Context {num : Type} `{Number num}.
Variable U : N -> num.

Lemma getSample_frameCount (s : DB.State num) :
  DB.frameCount (snd (DB.getSample s)) = DB.frameCount s.
Proof.
  destruct (source_fields _ _ (getSample_source s)) as (_&_&_&_&_&_&_&E&_).
  rewrite E, white_eq. cbn [snd]. destruct (_ <=? _); reflexivity.
Qed.

Lemma run_getSample_invariant (n : N) (s : DB.State num) :
  WellFormed s ->
  WellFormed (run n DB.getSample s) /\
  DB.frameCount (run n DB.getSample s) = DB.frameCount s.
Proof.
  intros W. unfold run.
  induction n as [|n IH] using N.peano_ind; [split; [exact W|reflexivity]|].
  rewrite N.iter_succ. destruct IH as [IW IF]. split.
  - apply getSample_WellFormed, IW.
  - rewrite getSample_frameCount. exact IF.
Qed.

Lemma chunk_fits (fp size : N) :
  fp mod 4800 = 0 -> size mod 4800 = 0 -> fp < size -> fp + 4800 <= size.
Proof.
  intros Hf Hs Hlt.
  pose proof (N.div_mod fp 4800) as Df. pose proof (N.div_mod size 4800) as Ds.
  rewrite Hf in Df. rewrite Hs in Ds.
  specialize (Df ltac:(discriminate)). specialize (Ds ltac:(discriminate)).
  lia.
Qed.

Lemma chunk_next (fp : N) : fp mod 4800 = 0 -> (fp + 4800) mod 4800 = 0.
Proof.
  intros Hf. replace (fp + 4800) with (fp + 1 * 4800) by lia.
  rewrite N.Div0.mod_add. exact Hf.
Qed.

Lemma process_state (output : list (Float32Array.t num)) (s : DB.State num) :
  snd (DB.process U output s) =
  (let s1 := snd (DB.fill_channels output s) in
   let s' := DB.set_frameCount (DB.frameCount s1 + 1) s1 in
   if ((DB.frameCount s1 + 1) mod 10 =? 0)
        && (DB.fillPointer s1 <? DB.bufferSize s1)
   then
     let s'' := snd (DB.bufferFill U (DB.inactiveBuffer s1)
                       (DB.fillPointer s1) 4800 s') in
     DB.set_fillPointer (DB.fillPointer s'' + 4800) s''
   else s').
Proof.
  unfold DB.process. unfold bind at 1.
  destruct (DB.fill_channels output s) as [out s1]. run_monad.
  destruct (_ && _).
  - destruct (DB.bufferFill U _ _ _ _) as [[] s2]. reflexivity.
  - reflexivity.
Qed.

(** The tail of [process]: the frame counter and the throttled refill. *)
Lemma process_refill (output : list (Float32Array.t num)) (s : DB.State num) :
  WellFormed (snd (DB.fill_channels output s)) ->
  let s1 := snd (DB.fill_channels output s) in
  let s2 := snd (DB.process U output s) in
  DB.frameCount s2 = DB.frameCount s1 + 1 /\
  DB.activeBuffer s2 = DB.activeBuffer s1 /\
  DB.inactiveBuffer s2 = DB.inactiveBuffer s1 /\
  DB.index s2 = DB.index s1 /\
  DB.bufferSize s2 = DB.bufferSize s1 /\
  generator s2 = generator s1 /\
  DB.buffer (DB.activeBuffer s1) s2 = DB.buffer (DB.activeBuffer s1) s1 /\
  (if ((DB.frameCount s1 + 1) mod 10 =? 0)
        && (DB.fillPointer s1 <? DB.bufferSize s1)
   then refilled U (DB.buffer (DB.inactiveBuffer s1) s1) (DB.fillPointer s1)
          4800 (DB.randomCalls s1) (DB.buffer (DB.inactiveBuffer s1) s2) /\
        DB.fillPointer s2 = DB.fillPointer s1 + 4800 /\
        DB.randomCalls s2 = DB.randomCalls s1 + 4800
   else DB.buffer (DB.inactiveBuffer s1) s2
          = DB.buffer (DB.inactiveBuffer s1) s1 /\
        DB.fillPointer s2 = DB.fillPointer s1 /\
        DB.randomCalls s2 = DB.randomCalls s1) /\
  WellFormed s2.
Proof.
  intros W s1 s2. subst s2. rewrite process_state.
  change (WellFormed s1) in W. fold s1. cbv zeta. clearbody s1.
  destruct W as (HA & HB & Hi & Hne & Hf & Hc & Hle).
  destruct (((DB.frameCount s1 + 1) mod 10 =? 0)
              && (DB.fillPointer s1 <? DB.bufferSize s1)) eqn:Hcond.
  - apply andb_prop in Hcond. destruct Hcond as [_ Hlt].
    apply N.ltb_lt in Hlt. pose proof (chunk_fits _ _ Hf Hc Hlt) as Hfit.
    pose proof (chunk_next _ Hf) as Hnext.
    match goal with
    | |- context [DB.bufferFill U ?b ?st ?c ?s'] =>
        destruct (bufferFill_spec U b st c s') as (buf & E & R);
        destruct (DB.bufferFill U b st c s') as [[] s2]
    end.
    cbn [snd] in E. rewrite E. clear E.
    unfold WellFormed, generator, refilled in *.
    destruct R as [RL RE].
    destruct (DB.activeBuffer s1) eqn:Ea, (DB.inactiveBuffer s1) eqn:Ei;
      try congruence; run_monad; run_monad in RL; run_monad in RE;
      rewrite ?HA, ?HB in *;
      replace (N.min 4800 (DB.bufferSize s1 - DB.fillPointer s1)) with 4800
        in * by lia;
      repeat split; try assumption; try reflexivity; try congruence; try lia.
  - unfold WellFormed, generator. run_monad.
    repeat split; try assumption; try reflexivity.
Qed.

(** C7. The fresh engine is well-formed with frame counter 0, and one
    call of [process] on a well-formed engine, after it has filled the
    block (state [s1]): adds 1 to the frame counter; when the new
    counter is a multiple of 10 and the refill marker is below the
    capacity, overwrites exactly the 4800 slots of the inactive buffer
    from the marker on with the next 4800 uniform values and adds 4800
    to the marker; otherwise writes nothing and leaves the marker (so
    nothing is written once the marker has reached the capacity, until
    a swap resets it); in either case leaves the active buffer, the
    roles and the cursor as they are, and the engine well-formed. *)
Theorem refill_policy :
  (WellFormed (DB.constructor U) /\ DB.frameCount (DB.constructor U) = 0) /\
  forall (output : list (Float32Array.t num)) (s : DB.State num),
    WellFormed s ->
    let s1 := snd (DB.fill_channels output s) in
    let s2 := snd (DB.process U output s) in
    DB.frameCount s2 = DB.frameCount s + 1 /\
    DB.activeBuffer s2 = DB.activeBuffer s1 /\
    DB.inactiveBuffer s2 = DB.inactiveBuffer s1 /\
    DB.index s2 = DB.index s1 /\
    DB.buffer (DB.activeBuffer s1) s2 = DB.buffer (DB.activeBuffer s1) s1 /\
    (if ((DB.frameCount s + 1) mod 10 =? 0)
          && (DB.fillPointer s1 <? DB.bufferSize s1)
     then refilled U (DB.buffer (DB.inactiveBuffer s1) s1) (DB.fillPointer s1)
            4800 (DB.randomCalls s1) (DB.buffer (DB.inactiveBuffer s1) s2) /\
          DB.fillPointer s2 = DB.fillPointer s1 + 4800 /\
          DB.randomCalls s2 = DB.randomCalls s1 + 4800
     else DB.buffer (DB.inactiveBuffer s1) s2
            = DB.buffer (DB.inactiveBuffer s1) s1 /\
          DB.fillPointer s2 = DB.fillPointer s1 /\
          DB.randomCalls s2 = DB.randomCalls s1) /\
    WellFormed s2.
Proof.
  split.
  - destruct (constructor_fields U) as (_ & _ & _ & _ & _ & Hfc & _).
    split; [exact (constructor_WellFormed U)|exact Hfc].
  - intros output s W s1 s2.
    destruct (DB_fill_channels_spec output s) as (E & _).
    destruct (run_getSample_invariant (slots output) s W) as [W1 F1].
    rewrite <- E in W1, F1. fold s1 in W1, F1.
    destruct (process_refill output s W1) as (P1&P2&P3&P4&_&_&P7&P8&P9).
    fold s1 s2 in P1, P2, P3, P4, P7, P8, P9. rewrite F1 in P1, P8.
    exact (conj P1 (conj P2 (conj P3 (conj P4 (conj P7 (conj P8 P9)))))).
Qed.

End Refill.

Lemma refill_policy_witness :
  WellFormed small_engine /\
  DB.fillPointer (snd (DB.process zeros stereo_block small_engine))
  = DB.fillPointer (snd (DB.fill_channels stereo_block small_engine)) + 4800.
Proof.
  assert (W : WellFormed small_engine).
  { unfold WellFormed, small_engine. cbn.
    repeat split; try reflexivity; discriminate. }
  split; [exact W|].
  pose proof (proj2 (refill_policy zeros) stereo_block small_engine W) as T.
  cbv zeta in T. destruct T as (_&_&_&_&_&T&_).
  replace (((DB.frameCount small_engine + 1) mod 10 =? 0)
           && (DB.fillPointer (snd (DB.fill_channels stereo_block small_engine))
               <? DB.bufferSize (snd (DB.fill_channels stereo_block small_engine))))
    with true in T by (vm_compute; reflexivity).
  exact (proj1 (proj2 T)).
Defined.

(** ** getSample is white followed by the generator step *)

Section Step.
Context {num : Type} `{Number num}.

Lemma white_gen (s : DB.State num) :
  DB_gen (snd (DB.white s)) = DB_gen s /\
  DB.noiseType (snd (DB.white s)) = DB.noiseType s.
Proof.
  rewrite white_eq. cbn [snd]. destruct (_ <=? _); split; reflexivity.
Qed.

Lemma DB_pink_step (s : DB.State num) :
  DB.pink s =
  (fst (pink_step (fst (DB.white s)) (DB_gen s)),
   DB_set_gen (snd (pink_step (fst (DB.white s)) (DB_gen s))) (snd (DB.white s))).
Proof.
  destruct (white_gen s) as [G _].
  unfold DB.pink, pink_step. run_monad.
  destruct (DB.white s) as [w s1]. cbn [fst snd] in *. run_monad.
  injection G as G1 G2 G3 G4 G5 G6 G7.
  rewrite G3, G4. destruct (_ <? 16).
  - run_monad. rewrite G1, G2. f_equal. state_eq; congruence.
  - run_monad. rewrite G2. f_equal. state_eq; congruence.
Qed.

Lemma DB_brown_step (s : DB.State num) :
  DB.brown s =
  (fst (brown_step (fst (DB.white s)) (DB_gen s)),
   DB_set_gen (snd (brown_step (fst (DB.white s)) (DB_gen s))) (snd (DB.white s))).
Proof.
  destruct (white_gen s) as [G _].
  unfold DB.brown, brown_step. run_monad.
  destruct (DB.white s) as [w s1]. cbn [fst snd] in *. run_monad.
  injection G as G1 G2 G3 G4 G5 G6 G7.
  rewrite G5. f_equal. state_eq; congruence.
Qed.

Lemma DB_blue_step (s : DB.State num) :
  DB.blue s =
  (fst (blue_step (fst (DB.white s)) (DB_gen s)),
   DB_set_gen (snd (blue_step (fst (DB.white s)) (DB_gen s))) (snd (DB.white s))).
Proof.
  destruct (white_gen s) as [G _].
  unfold DB.blue, blue_step. run_monad.
  destruct (DB.white s) as [w s1]. cbn [fst snd] in *. run_monad.
  injection G as G1 G2 G3 G4 G5 G6 G7.
  rewrite G6. f_equal. state_eq; congruence.
Qed.

Lemma DB_violet_step (s : DB.State num) :
  DB.violet s =
  (fst (violet_step (fst (DB.white s)) (DB_gen s)),
   DB_set_gen (snd (violet_step (fst (DB.white s)) (DB_gen s))) (snd (DB.white s))).
Proof.
  destruct (white_gen s) as [G _].
  unfold DB.violet, violet_step. run_monad.
  destruct (DB.white s) as [w s1]. cbn [fst snd] in *. run_monad.
  injection G as G1 G2 G3 G4 G5 G6 G7.
  rewrite G7. f_equal. state_eq; congruence.
Qed.

Lemma DB_getSample_step (s : DB.State num) :
  DB.getSample s =
  (fst (generator_step (DB.noiseType s) (fst (DB.white s)) (DB_gen s)),
   DB_set_gen (snd (generator_step (DB.noiseType s) (fst (DB.white s)) (DB_gen s)))
     (snd (DB.white s))).
Proof.
  unfold DB.getSample, generator_step, bind at 1, get_state at 1.
  destruct (DB.noiseType s =? "pink")%string; [apply DB_pink_step|].
  destruct (DB.noiseType s =? "brown")%string; [apply DB_brown_step|].
  destruct (DB.noiseType s =? "blue")%string; [apply DB_blue_step|].
  destruct (DB.noiseType s =? "violet")%string; [apply DB_violet_step|].
  destruct (white_gen s) as [G _].
  destruct (DB.white s) as [w s1]. cbn [fst snd] in *.
  injection G as G1 G2 G3 G4 G5 G6 G7.
  f_equal. state_eq; congruence.
Qed.

Lemma Dir_pink_step (U : N -> num) (s : Dir.State num) :
  Dir.pink U s =
  (fst (pink_step (fst (Dir.white U s)) (Dir_gen s)),
   Dir_set_gen (snd (pink_step (fst (Dir.white U s)) (Dir_gen s)))
     (snd (Dir.white U s))).
Proof.
  unfold Dir.pink, pink_step. run_monad. rewrite direct_white_eq. run_monad.
  destruct (_ <? 16); run_monad; f_equal; state_eq.
Qed.

Lemma Dir_brown_step (U : N -> num) (s : Dir.State num) :
  Dir.brown U s =
  (fst (brown_step (fst (Dir.white U s)) (Dir_gen s)),
   Dir_set_gen (snd (brown_step (fst (Dir.white U s)) (Dir_gen s)))
     (snd (Dir.white U s))).
Proof.
  unfold Dir.brown, brown_step. run_monad. rewrite direct_white_eq.
  run_monad. f_equal; try state_eq.
Qed.

Lemma Dir_blue_step (U : N -> num) (s : Dir.State num) :
  Dir.blue U s =
  (fst (blue_step (fst (Dir.white U s)) (Dir_gen s)),
   Dir_set_gen (snd (blue_step (fst (Dir.white U s)) (Dir_gen s)))
     (snd (Dir.white U s))).
Proof.
  unfold Dir.blue, blue_step. run_monad. rewrite direct_white_eq.
  run_monad. f_equal; try state_eq.
Qed.

Lemma Dir_violet_step (U : N -> num) (s : Dir.State num) :
  Dir.violet U s =
  (fst (violet_step (fst (Dir.white U s)) (Dir_gen s)),
   Dir_set_gen (snd (violet_step (fst (Dir.white U s)) (Dir_gen s)))
     (snd (Dir.white U s))).
Proof.
  unfold Dir.violet, violet_step. run_monad. rewrite direct_white_eq.
  run_monad. f_equal; try state_eq.
Qed.

Lemma Dir_getSample_step (U : N -> num) (s : Dir.State num) :
  Dir.getSample U s =
  (fst (generator_step (Dir.noiseType s) (fst (Dir.white U s)) (Dir_gen s)),
   Dir_set_gen
     (snd (generator_step (Dir.noiseType s) (fst (Dir.white U s)) (Dir_gen s)))
     (snd (Dir.white U s))).
Proof.
  unfold Dir.getSample, generator_step, bind at 1, get_state at 1.
  destruct (Dir.noiseType s =? "pink")%string; [apply Dir_pink_step|].
  destruct (Dir.noiseType s =? "brown")%string; [apply Dir_brown_step|].
  destruct (Dir.noiseType s =? "blue")%string; [apply Dir_blue_step|].
  destruct (Dir.noiseType s =? "violet")%string; [apply Dir_violet_step|].
  rewrite direct_white_eq. cbn [fst snd]. f_equal; try state_eq.
Qed.

End Step.

(** ** One read per sample *)

Section OneRead.
Context {num : Type} `{Number num}.

(** What one call of pink does with the value it read, in terms of the
    generator fields. *)
Lemma DB_pink_uses (s : DB.State num) :
  let w := fst (DB.white s) in
  let z := count_zeros 16 (DB.pinkIndex (snd (DB.pink s))) 0 in
  fst (DB.pink s)
  = ((DB.pinkRunningSum (snd (DB.pink s)) + w) / lit 17)%num /\
  (if z <? 16
   then DB.pinkRunningSum (snd (DB.pink s))
        = (DB.pinkRunningSum s - Float32Array.get (DB.pinkRows s) z + w)%num /\
        DB.pinkRows (snd (DB.pink s)) = Float32Array.set (DB.pinkRows s) z w
   else DB.pinkRunningSum (snd (DB.pink s)) = DB.pinkRunningSum s /\
        DB.pinkRows (snd (DB.pink s)) = DB.pinkRows s).
Proof.
  intros w z. subst w z. rewrite DB_pink_step. unfold pink_step. cbv zeta.
  cbn [fst snd].
  destruct (count_zeros 16 (N.land (g_pinkIndex (DB_gen s) + 1)
                              (g_pinkIndexMask (DB_gen s))) 0 <? 16) eqn:E;
    cbn [fst snd DB_set_gen DB_gen DB.pinkIndex DB.pinkRunningSum DB.pinkRows
         g_pinkRows g_pinkRunningSum g_pinkIndex g_pinkIndexMask];
    cbn [DB_gen g_pinkIndex g_pinkIndexMask] in E; rewrite E;
    repeat split; reflexivity.
Qed.

Lemma Dir_pink_uses (U : N -> num) (s : Dir.State num) :
  let w := (U (Dir.randomCalls s) * lit 2 - lit 1)%num in
  let z := count_zeros 16 (Dir.pinkIndex (snd (Dir.pink U s))) 0 in
  fst (Dir.pink U s)
  = ((Dir.pinkRunningSum (snd (Dir.pink U s)) + w) / lit 17)%num /\
  (if z <? 16
   then Dir.pinkRunningSum (snd (Dir.pink U s))
        = (Dir.pinkRunningSum s - Float32Array.get (Dir.pinkRows s) z + w)%num /\
        Dir.pinkRows (snd (Dir.pink U s)) = Float32Array.set (Dir.pinkRows s) z w
   else Dir.pinkRunningSum (snd (Dir.pink U s)) = Dir.pinkRunningSum s /\
        Dir.pinkRows (snd (Dir.pink U s)) = Dir.pinkRows s).
Proof.
  intros w z. subst w z. rewrite Dir_pink_step, direct_white_eq.
  unfold pink_step. cbv zeta. cbn [fst snd].
  destruct (count_zeros 16 (N.land (g_pinkIndex (Dir_gen s) + 1)
                              (g_pinkIndexMask (Dir_gen s))) 0 <? 16) eqn:E;
    cbn [fst snd Dir_set_gen Dir_gen Dir.pinkIndex Dir.pinkRunningSum
         Dir.pinkRows g_pinkRows g_pinkRunningSum g_pinkIndex g_pinkIndexMask];
    cbn [Dir_gen g_pinkIndex g_pinkIndexMask] in E; rewrite E;
    repeat split; reflexivity.
Qed.

(** C2, as the code has it.  Every generator, pink included, reads the
    uniform source exactly once per sample.  In the double-buffered
    processor the read cursor moves on by one (and wraps to 0 at the
    swap) and Math.random is not called; in the processor without
    buffers Math.random is called once.  Pink uses the one value it
    read, [w], both for the row update and for the term added before
    the division by 17: its result is (pinkRunningSum + w) / 17 with
    the running sum as the call leaves it, and when a row is replaced
    (row [z], the number of trailing zeros of the new counter, below
    16) the running sum becomes pinkRunningSum - pinkRows[z] + w and
    the row receives [w]; otherwise sum and rows stay.  In the
    double-buffered processor [w] is what [white] returns in the state
    before the call, in the other one it is Math.random number
    [randomCalls], doubled, minus 1. *)
Theorem every_generator_reads_once :
  (forall s : DB.State num,
      let next :=
        advance (Float32Array.length (DB.buffer (DB.activeBuffer s) s))
          (DB.index s) in
      (DB.index (snd (DB.white s)) = next /\
       DB.index (snd (DB.pink s)) = next /\
       DB.index (snd (DB.brown s)) = next /\
       DB.index (snd (DB.blue s)) = next /\
       DB.index (snd (DB.violet s)) = next) /\
      (DB.randomCalls (snd (DB.white s)) = DB.randomCalls s /\
       DB.randomCalls (snd (DB.pink s)) = DB.randomCalls s /\
       DB.randomCalls (snd (DB.brown s)) = DB.randomCalls s /\
       DB.randomCalls (snd (DB.blue s)) = DB.randomCalls s /\
       DB.randomCalls (snd (DB.violet s)) = DB.randomCalls s)) /\
  (forall (U : N -> num) (s : Dir.State num),
      Dir.randomCalls (snd (Dir.white U s)) = Dir.randomCalls s + 1 /\
      Dir.randomCalls (snd (Dir.pink U s)) = Dir.randomCalls s + 1 /\
      Dir.randomCalls (snd (Dir.brown U s)) = Dir.randomCalls s + 1 /\
      Dir.randomCalls (snd (Dir.blue U s)) = Dir.randomCalls s + 1 /\
      Dir.randomCalls (snd (Dir.violet U s)) = Dir.randomCalls s + 1) /\
  (forall s : DB.State num,
      let w := fst (DB.white s) in
      let z := count_zeros 16 (DB.pinkIndex (snd (DB.pink s))) 0 in
      source (snd (DB.pink s)) = source (snd (DB.white s)) /\
      fst (DB.pink s)
      = ((DB.pinkRunningSum (snd (DB.pink s)) + w) / lit 17)%num /\
      (if z <? 16
       then DB.pinkRunningSum (snd (DB.pink s))
            = (DB.pinkRunningSum s - Float32Array.get (DB.pinkRows s) z + w)%num /\
            DB.pinkRows (snd (DB.pink s))
            = Float32Array.set (DB.pinkRows s) z w
       else DB.pinkRunningSum (snd (DB.pink s)) = DB.pinkRunningSum s /\
            DB.pinkRows (snd (DB.pink s)) = DB.pinkRows s)) /\
  (forall (U : N -> num) (s : Dir.State num),
      let w := (U (Dir.randomCalls s) * lit 2 - lit 1)%num in
      let z := count_zeros 16 (Dir.pinkIndex (snd (Dir.pink U s))) 0 in
      fst (Dir.pink U s)
      = ((Dir.pinkRunningSum (snd (Dir.pink U s)) + w) / lit 17)%num /\
      (if z <? 16
       then Dir.pinkRunningSum (snd (Dir.pink U s))
            = (Dir.pinkRunningSum s - Float32Array.get (Dir.pinkRows s) z + w)%num /\
            Dir.pinkRows (snd (Dir.pink U s))
            = Float32Array.set (Dir.pinkRows s) z w
       else Dir.pinkRunningSum (snd (Dir.pink U s)) = Dir.pinkRunningSum s /\
            Dir.pinkRows (snd (Dir.pink U s)) = Dir.pinkRows s)).
Proof.
  split; [|split; [apply direct_generators_randomCalls|split]].
  - intros s next.
    pose proof (source_fields _ _ (pink_source s)) as (_&_&_&Pi&_&_&_&_&Pr).
    pose proof (source_fields _ _ (brown_source s)) as (_&_&_&Bi&_&_&_&_&Br).
    pose proof (source_fields _ _ (blue_source s)) as (_&_&_&Li&_&_&_&_&Lr).
    pose proof (source_fields _ _ (violet_source s)) as (_&_&_&Vi&_&_&_&_&Vr).
    rewrite Pi, Bi, Li, Vi, Pr, Br, Lr, Vr, white_index, white_randomCalls.
    repeat split; reflexivity.
  - intros s w z. split; [apply pink_source|]. apply DB_pink_uses.
  - intros U s. apply Dir_pink_uses.
Qed.

End OneRead.

(** ** The two processors side by side *)

Section Simulation.
Context {num : Type} `{Number num}.
Variable U : N -> num.

Lemma white_source_congr (s s' : DB.State num) :
  source s = source s' ->
  fst (DB.white s) = fst (DB.white s') /\
  source (snd (DB.white s)) = source (snd (DB.white s')).
Proof.
  intros E. apply source_fields in E.
  destruct E as (E1 & E2 & E3 & E4 & E5 & E6 & E7 & E8 & E9).
  rewrite !white_eq. unfold source, DB.buffer. cbn [fst snd].
  rewrite E2, E3, E4, E5. split; [reflexivity|].
  destruct (_ <=? _); run_monad; congruence.
Qed.

Lemma run_getSample_source (k : N) (s : DB.State num) :
  source (run k DB.getSample s) = source (run k DB.white s).
Proof.
  unfold run. induction k as [|k IH] using N.peano_ind; [reflexivity|].
  rewrite !N.iter_succ, getSample_source.
  apply white_source_congr, IH.
Qed.

(** Whatever the kind, the white value read for sample number [m] from
    now is slot [index + m] of the active buffer, as long as that slot
    exists; and the cursor is there. *)
Lemma white_value_in_run (s : DB.State num) (m : N) :
  DB.index s + m < Float32Array.length (DB.buffer (DB.activeBuffer s) s) ->
  fst (DB.white (run m DB.getSample s))
    = Float32Array.get (DB.buffer (DB.activeBuffer s) s) (DB.index s + m) /\
  source (run m DB.getSample s) = source (DB.set_index (DB.index s + m) s).
Proof.
  intros Hm. pose proof (run_getSample_source m s) as Es.
  rewrite run_white_inside in Es by exact Hm. split; [|exact Es].
  destruct (white_source_congr _ _ Es) as [E _].
  rewrite E, white_eq. reflexivity.
Qed.

(** One sample in both processors: when the generator fields and the
    kind agree and the two white values agree, the samples agree and
    the generator fields and the kind agree afterwards. *)
Lemma sample_in_step (sb : DB.State num) (sd : Dir.State num) :
  DB_gen sb = Dir_gen sd ->
  DB.noiseType sb = Dir.noiseType sd ->
  fst (DB.white sb) = fst (Dir.white U sd) ->
  fst (DB.getSample sb) = fst (Dir.getSample U sd) /\
  DB_gen (snd (DB.getSample sb)) = Dir_gen (snd (Dir.getSample U sd)) /\
  DB.noiseType (snd (DB.getSample sb)) = Dir.noiseType (snd (Dir.getSample U sd)).
Proof.
  intros G T Wv. rewrite DB_getSample_step, Dir_getSample_step.
  rewrite G, T, Wv. cbn [fst snd]. repeat split.
  destruct (white_gen sb) as [_ Tw]. run_monad. rewrite Tw, T. reflexivity.
Qed.

Lemma Dir_getSample_randomCalls (s : Dir.State num) :
  Dir.randomCalls (snd (Dir.getSample U s)) = Dir.randomCalls s + 1.
Proof. rewrite Dir_getSample_step. reflexivity. Qed.

(** [m] samples in both processors, from states in step. *)
Lemma samples_in_step (k : N) (sb : DB.State num) (sd : Dir.State num) (m : N) :
  InStep U k sb sd -> k + m <= capacity ->
  (forall i, i < m ->
     result_after i DB.getSample sb = result_after i (Dir.getSample U) sd) /\
  DB_gen (run m DB.getSample sb) = Dir_gen (run m (Dir.getSample U) sd) /\
  DB.noiseType (run m DB.getSample sb)
    = Dir.noiseType (run m (Dir.getSample U) sd) /\
  Dir.randomCalls (run m (Dir.getSample U) sd) = k + m.
Proof.
  intros (G & T & R & B).
  induction m as [|m IH] using N.peano_ind; intros Hm.
  - repeat split; try assumption; [intros i Hi; lia|].
    cbn. rewrite R. lia.
  - destruct IH as (Hres & Gm & Tm & Rm); [lia|].
    destruct (B ltac:(lia)) as (W & Hsz & Hi & Hact & HA).
    assert (Hw : fst (DB.white (run m DB.getSample sb))
                 = fst (Dir.white U (run m (Dir.getSample U) sd))).
    { destruct (white_value_in_run sb m) as [Ew _].
      - rewrite (WellFormed_active_length sb W), Hsz, Hi. lia.
      - rewrite Ew, Hact, Hi, direct_white_eq, Rm. cbn [fst DB.buffer].
        apply HA. lia. }
    destruct (sample_in_step _ _ Gm Tm Hw) as (Es & Gs & Ts).
    unfold run in *. rewrite !N.iter_succ.
    repeat split; try assumption.
    + intros i Hi'. destruct (N.eq_dec i m) as [->|Hne].
      * exact Es.
      * apply Hres. lia.
    + rewrite Dir_getSample_randomCalls, Rm. lia.
Qed.

Hypothesis stored_exactly :
  forall j, fround (U j * lit 2 - lit 1)%num = (U j * lit 2 - lit 1)%num.

Lemma fresh_in_step (kind : string) :
  InStep U 0 (snd (DB.onmessage (setNoiseType kind) (DB.constructor U)))
    (snd (Dir.onmessage (setNoiseType kind) Dir.constructor)).
Proof.
  assert (HA : forall j, j < capacity ->
            Float32Array.elem (DB.bufferA (DB.constructor U)) j
            = (U j * lit 2 - lit 1)%num).
  { intros j Hj. destruct (constructor_buffers U j Hj) as [E _].
    rewrite E. apply stored_exactly. }
  pose proof (constructor_WellFormed U) as W.
  destruct (constructor_spec U) as (bufA & bufB & E & _).
  revert HA W. rewrite E. clear E. intros HA W.
  unfold InStep, DB.onmessage, Dir.onmessage, setNoiseType, Dir.constructor.
  cbn [type msgNoiseType String.eqb Ascii.eqb Bool.eqb]. run_monad.
  split; [reflexivity|split; [reflexivity|split; [reflexivity|]]].
  intros _. split; [exact W|].
  split; [reflexivity|split; [reflexivity|split; [reflexivity|exact HA]]].
Qed.

(** One block in both processors, from states in step. *)
Lemma block_in_step (k : N) (sb : DB.State num) (sd : Dir.State num)
    (output : list (Float32Array.t num)) :
  InStep U k sb sd -> k + slots output <= capacity ->
  (forall (c : nat) (d : Float32Array.t num) (i : N),
      (c < List.length output)%nat ->
      i < Float32Array.length (nth c output d) ->
      Float32Array.elem (nth c (fst (fst (DB.process U output sb))) d) i
      = Float32Array.elem (nth c (fst (fst (Dir.process U output sd))) d) i) /\
  List.length (fst (fst (DB.process U output sb))) = List.length output /\
  List.length (fst (fst (Dir.process U output sd))) = List.length output /\
  InStep U (k + slots output) (snd (DB.process U output sb))
    (snd (Dir.process U output sd)).
Proof.
  intros J Hk.
  destruct (samples_in_step k sb sd (slots output) J Hk) as (Hres & Gm & Tm & Rm).
  destruct (DB_fill_channels_spec output sb) as (Eb & Lb & _).
  destruct (Dir_fill_channels_spec U output sd) as (Ed & Ld & _).
  assert (Hoff : forall c d i, (c < List.length output)%nat ->
            i < Float32Array.length (nth c output d) ->
            offset output c + i < slots output).
  { clear. induction output as [|ch rest IH]; intros c d i Hc Hi.
    - inversion Hc.
    - destruct c as [|c]; unfold offset; cbn [firstn slots nth] in *.
      + lia.
      + cbn [List.length] in Hc. specialize (IH c d i ltac:(lia) Hi).
        unfold offset in IH. lia. }
  split; [|split; [|split]].
  - intros c d i Hc Hi.
    rewrite DB_process_slot, Dir_process_slot by assumption.
    f_equal. apply Hres. eapply Hoff; eassumption.
  - rewrite DB_process_output. exact Lb.
  - rewrite Dir_process_output. exact Ld.
  - assert (Sd : snd (Dir.process U output sd)
                 = run (slots output) (Dir.getSample U) sd).
    { unfold Dir.process, bind, ret.
      destruct (Dir.fill_channels U output sd) as [o s1]. exact Ed. }
    rewrite Sd. rewrite <- Eb in Gm, Tm.
    destruct J as (G & T & R & B).
    unfold InStep. split; [|split; [|split]].
    + destruct (N.lt_ge_cases k capacity) as [Hlt|Hge].
      * destruct (B Hlt) as (W & _).
        assert (W1 : WellFormed (snd (DB.fill_channels output sb)))
          by (rewrite Eb; apply run_getSample_invariant, W).
        destruct (process_refill U output sb W1) as (_&_&_&_&_&P6&_).
        cbv zeta in P6. unfold generator in P6. injection P6 as Q1 Q2 Q3 Q4 Q5 Q6 Q7 Q8.
        rewrite <- Gm. unfold DB_gen. congruence.
      * assert (slots output = 0) by lia.
        (* no slot: the block leaves the generators alone *)
        rewrite <- Gm. rewrite process_state. cbv zeta.
        destruct (_ && _).
        -- match goal with
           | |- context [DB.bufferFill U ?b ?st ?c ?s'] =>
               destruct (bufferFill_spec U b st c s') as (buf & E & _);
               rewrite E
           end.
           destruct (DB.inactiveBuffer _); reflexivity.
        -- reflexivity.
    + rewrite <- Tm. rewrite process_state. cbv zeta.
      destruct (_ && _).
      * match goal with
        | |- context [DB.bufferFill U ?b ?st ?c ?s'] =>
            destruct (bufferFill_spec U b st c s') as (buf & E & _);
            rewrite E
        end.
        destruct (DB.inactiveBuffer _); reflexivity.
      * reflexivity.
    + exact Rm.
    + intros Hlt. destruct (B ltac:(lia)) as (W & Hsz & Hi & Hact & HA).
      assert (Hin : DB.index sb + slots output
                    < Float32Array.length (DB.buffer (DB.activeBuffer sb) sb))
        by (rewrite (WellFormed_active_length sb W), Hsz, Hi; exact Hlt).
      destruct (white_value_in_run sb (slots output) Hin) as [_ Es].
      rewrite <- Eb in Es. apply source_fields in Es.
      destruct Es as (S1 & S2 & S3 & S4 & S5 & S6 & S7 & S8 & S9).
      cbn in S1, S2, S3, S4, S5, S6, S7, S8, S9.
      assert (W1 : WellFormed (snd (DB.fill_channels output sb)))
        by (rewrite Eb; apply run_getSample_invariant, W).
      destruct (process_refill U output sb W1) as (_&P2&_&P4&P5&_&P7&_&P9).
      cbv zeta in P2, P4, P5, P7, P9.
      rewrite S5, Hact in P2, P7. cbn [DB.buffer] in P7.
      repeat split; try apply P9.
      * rewrite P5, S1. exact Hsz.
      * rewrite P4, S4, Hi. reflexivity.
      * exact P2.
      * intros j Hj. rewrite P7, S2. apply HA, Hj.
Qed.

Lemma blocks_in_step (blocks : list (list (Float32Array.t num))) :
  forall (k : N) (sb : DB.State num) (sd : Dir.State num),
    InStep U k sb sd -> k + total_slots blocks <= capacity ->
    forall (b c : nat) (d : Float32Array.t num) (i : N),
      (b < List.length blocks)%nat ->
      (c < List.length (nth b blocks []))%nat ->
      i < Float32Array.length (nth c (nth b blocks []) d) ->
      Float32Array.elem (nth c (nth b (fst (DB_blocks U blocks sb)) []) d) i
      = Float32Array.elem (nth c (nth b (fst (Dir_blocks U blocks sd)) []) d) i.
Proof.
  induction blocks as [|output rest IH]; intros k sb sd J Hk b c d i Hb Hc Hi.
  - inversion Hb.
  - cbn [total_slots] in Hk.
    destruct (block_in_step k sb sd output J ltac:(lia)) as (Hs & _ & _ & J').
    cbn [DB_blocks Dir_blocks]. unfold bind, ret.
    destruct (DB.process U output sb) as [rb sb'].
    destruct (Dir.process U output sd) as [rd sd'].
    cbn [fst snd] in Hs, J'.
    specialize (IH (k + slots output) sb' sd' J' ltac:(lia)).
    destruct (DB_blocks U rest sb') as [rsb sb''].
    destruct (Dir_blocks U rest sd') as [rsd sd''].
    cbn [fst snd] in IH |- *.
    destruct b as [|b]; cbn [nth] in Hc, Hi |- *.
    + apply Hs; assumption.
    + cbn [List.length] in Hb. apply IH; try assumption. lia.
Qed.

(** C9, as the code has it.  Fed by the same Math.random sequence, and
    when the stores into the buffers do not round its values, the two
    processors produce the same samples as long as the double-buffered
    one reads its first buffer: the first [capacity] samples agree for
    every kind, and so does every slot of every block the host asks
    for while the slots asked for do not exceed [capacity] in all. *)
Theorem processors_agree_up_to_capacity :
  (forall (kind : string) (k : N),
      k < capacity ->
      result_after k DB.getSample
        (snd (DB.onmessage (setNoiseType kind) (DB.constructor U)))
      = result_after k (Dir.getSample U)
          (snd (Dir.onmessage (setNoiseType kind) Dir.constructor))) /\
  (forall (kind : string) (blocks : list (list (Float32Array.t num))),
      total_slots blocks <= capacity ->
      forall (b c : nat) (d : Float32Array.t num) (i : N),
        (b < List.length blocks)%nat ->
        (c < List.length (nth b blocks []))%nat ->
        i < Float32Array.length (nth c (nth b blocks []) d) ->
        Float32Array.elem
          (nth c (nth b (fst (DB_blocks U blocks
                                (snd (DB.onmessage (setNoiseType kind)
                                        (DB.constructor U))))) []) d) i
        = Float32Array.elem
            (nth c (nth b (fst (Dir_blocks U blocks
                                  (snd (Dir.onmessage (setNoiseType kind)
                                          Dir.constructor)))) []) d) i).
Proof.
  split.
  - intros kind k Hk. pose proof (fresh_in_step kind) as J.
    revert J. generalize (DB.constructor U). intros s0 J.
    destruct (samples_in_step 0 _ _ (k + 1) J ltac:(lia)) as (Hres & _).
    apply Hres. lia.
  - intros kind blocks Ht b c d i Hb Hc Hi.
    pose proof (fresh_in_step kind) as J.
    revert J. generalize (DB.constructor U). intros s0 J.
    apply (blocks_in_step blocks 0 _ _ J); assumption.
Qed.

End Simulation.

Lemma processors_agree_up_to_capacity_witness :
  (forall j, fround (zeros j * lit 2 - lit 1)%num = (zeros j * lit 2 - lit 1)%num) /\
  result_after 7 DB.getSample
    (snd (DB.onmessage (setNoiseType "pink") (DB.constructor zeros)))
  = result_after 7 (Dir.getSample zeros)
      (snd (Dir.onmessage (setNoiseType "pink") Dir.constructor)).
Proof.
  assert (Hs : forall j, fround (zeros j * lit 2 - lit 1)%num
                         = (zeros j * lit 2 - lit 1)%num)
    by (intros j; reflexivity).
  split; [exact Hs|].
  pose proof (processors_agree_up_to_capacity zeros Hs) as [T _].
  exact (T "pink"%string 7 eq_refl).
Defined.

(** ** Exact arithmetic: the generator step *)

Section ExactStep.
Local Open Scope Q_scope.

Lemma sum_rows_set (rows : Float32Array.t Q) (i : N) (v : Q) :
  (i < 16)%N -> Float32Array.length rows = 16%N ->
  sum_rows (Float32Array.set rows i v)
  == sum_rows rows - Float32Array.get rows i + v.
Proof.
  intros Hi Hl. unfold Float32Array.set. rewrite Hl.
  destruct (N.ltb_spec i 16); [|lia].
  assert (Hc : In i row_indices).
  { unfold row_indices.
    destruct i as [|[[[[|[]|]|[|[]|]|]|[[|[]|]|[|[]|]|]|]|[[[|[]|]|[|[]|]|]|[[|[]|]|[|[]|]|]|]|]];
      cbn; try lia; tauto. }
  unfold row_indices in Hc. cbn [In] in Hc.
  unfold sum_rows, row_indices, Float32Array.get.
  cbn [fold_right Float32Array.elem fround Exact].
  repeat (destruct Hc as [Hc|Hc]; [subst i; cbn [N.eqb Pos.eqb]; ring|]).
  destruct Hc.
Qed.

Lemma sum_rows_bounded (rows : Float32Array.t Q) :
  (forall i, -1 <= Float32Array.get rows i <= 1) ->
  -16 <= sum_rows rows <= 16.
Proof.
  intros Hb. unfold sum_rows, row_indices. cbn [fold_right].
  pose proof (Hb 0%N); pose proof (Hb 1%N); pose proof (Hb 2%N);
  pose proof (Hb 3%N); pose proof (Hb 4%N); pose proof (Hb 5%N);
  pose proof (Hb 6%N); pose proof (Hb 7%N); pose proof (Hb 8%N);
  pose proof (Hb 9%N); pose proof (Hb 10%N); pose proof (Hb 11%N);
  pose proof (Hb 12%N); pose proof (Hb 13%N); pose proof (Hb 14%N);
  pose proof (Hb 15%N). lra.
Qed.

(** The pink step keeps the running sum equal to the sum of the rows,
    whatever the white value. *)
Lemma pink_step_PinkSum (w : Q) (g : Gen Q) :
  PinkSum g -> PinkSum (snd (pink_step w g)).
Proof.
  intros [Hl Hs]. unfold pink_step, PinkSum.
  destruct (N.ltb_spec (count_zeros 16
              (N.land (g_pinkIndex g + 1) (g_pinkIndexMask g)) 0) 16)
    as [Hz|Hz]; cbn [snd g_pinkRows g_pinkRunningSum].
  - split.
    + unfold Float32Array.set. destruct (_ <? _)%N; exact Hl.
    + rewrite sum_rows_set by assumption.
      cbn [add sub Exact]. rewrite Hs. reflexivity.
  - split; assumption.
Qed.

Lemma generator_step_PinkSum (kind : string) (w : Q) (g : Gen Q) :
  PinkSum g -> PinkSum (snd (generator_step kind w g)).
Proof.
  intros P. unfold generator_step.
  destruct (kind =? "pink")%string; [apply pink_step_PinkSum, P|].
  destruct (kind =? "brown")%string; [exact P|].
  destruct (kind =? "blue")%string; [exact P|].
  destruct (kind =? "violet")%string; exact P.
Qed.

End ExactStep.

(** ** The pink invariant *)

Section PinkInvariant.
Local Open Scope Q_scope.

Lemma fresh_PinkSum (U : N -> Q) :
  PinkSum (DB_gen (DB.constructor U)) /\ PinkSum (Dir_gen Dir.constructor).
Proof.
  destruct (constructor_spec U) as (bufA & bufB & E & _). rewrite E.
  split; (split; [reflexivity|]); unfold sum_rows; cbn; ring.
Qed.

Lemma DB_run_pink_PinkSum (n : N) (s : DB.State Q) :
  PinkSum (DB_gen s) -> PinkSum (DB_gen (run n DB.pink s)).
Proof.
  intros P. unfold run. induction n as [|n IH] using N.peano_ind; [exact P|].
  rewrite N.iter_succ, DB_pink_step. cbn [snd].
  destruct (white_gen (N.iter n (fun s => snd (DB.pink s)) s)) as [G _].
  apply (pink_step_PinkSum _ _ IH).
Qed.

Lemma Dir_run_pink_PinkSum (U : N -> Q) (n : N) (s : Dir.State Q) :
  PinkSum (Dir_gen s) -> PinkSum (Dir_gen (run n (Dir.pink U) s)).
Proof.
  intros P. unfold run. induction n as [|n IH] using N.peano_ind; [exact P|].
  rewrite N.iter_succ, Dir_pink_step. cbn [snd].
  apply (pink_step_PinkSum _ _ IH).
Qed.

End PinkInvariant.

(** C4 fails on the code of the processor without buffers, run in the
    arithmetic of the machine.  There [pinkRows] is a Float32Array, so
    a row receives the binary32 rounding of the white value, while the
    running sum receives the binary64 value itself.

    - With Math.random returning 0.1, after one call of pink on the
      fresh engine row 0 holds the binary32 rounding of the running
      sum, and the running sum is not the sum of the rows.
    - The difference is not bounded by a rounding tolerance: every
      replaced row adds the error of its store.  With Math.random
      always returning 1 - 2^-26 - 2^-52, after 32768 calls the running
      sum exceeds the sum of the rows by more than 0.0009, and the pink
      sample number 32767 is above 1. *)
Theorem direct_pink_sum_drifts :
  Float32Array.get (Dir.pinkRows (run 1 (Dir.pink tenth) Dir.constructor)) 0
  = to_float32 (Dir.pinkRunningSum (run 1 (Dir.pink tenth) Dir.constructor)) /\
  PrimFloat.eqb
    (Dir.pinkRunningSum (run 1 (Dir.pink tenth) Dir.constructor))
    (row_total (Dir.pinkRows (run 1 (Dir.pink tenth) Dir.constructor)))
  = false /\
  PrimFloat.ltb (lit (9 # 10000))
    (Dir.pinkRunningSum (run 32768 (Dir.pink near_one) Dir.constructor)
     - row_total (Dir.pinkRows (run 32768 (Dir.pink near_one) Dir.constructor)))%num
  = true /\
  PrimFloat.ltb (lit 1) (result_after 32767 (Dir.pink near_one) Dir.constructor)
  = true.
Proof.
  split; [|split; [|split]]; vm_compute; reflexivity.
Qed.

(** ** Bounds of the samples *)

Section Bounds.
Local Open Scope Q_scope.

Lemma kind_bound_cases (kind : string) (x : Q) :
  ((kind =? "pink")%string = true -> -1 <= x <= 1) ->
  ((kind =? "pink")%string = false -> (kind =? "brown")%string = true ->
   -(7 # 2) <= x <= 7 # 2) ->
  ((kind =? "pink")%string = false -> (kind =? "brown")%string = false ->
   (kind =? "blue")%string = true -> -(7 # 5) <= x <= 7 # 5) ->
  ((kind =? "pink")%string = false -> (kind =? "brown")%string = false ->
   (kind =? "blue")%string = false -> (kind =? "violet")%string = true ->
   -2 <= x <= 2) ->
  ((kind =? "pink")%string = false -> (kind =? "brown")%string = false ->
   (kind =? "blue")%string = false -> (kind =? "violet")%string = false ->
   -1 <= x <= 1) ->
  Qabs x <= kind_bound kind.
Proof.
  intros Hp Hb Hl Hv Hw. apply Qabs_Qle_condition. unfold kind_bound.
  destruct (kind =? "pink")%string; [apply Hp; reflexivity|].
  destruct (kind =? "brown")%string;
    [specialize (Hb eq_refl eq_refl); split; lra|].
  destruct (kind =? "blue")%string;
    [specialize (Hl eq_refl eq_refl eq_refl); split; lra|].
  destruct (kind =? "violet")%string; [apply Hv; reflexivity|].
  apply Hw; reflexivity.
Qed.

Lemma rows_set_bounded (rows : Float32Array.t Q) (i : N) (w : Q) :
  (forall j, -1 <= Float32Array.get rows j <= 1) -> -1 <= w <= 1 ->
  forall j, -1 <= Float32Array.get (Float32Array.set rows i w) j <= 1.
Proof.
  intros Hr Hw j. unfold Float32Array.set, Float32Array.get.
  destruct (_ <? _)%N; [|apply Hr]. cbn [Float32Array.elem fround Exact].
  destruct (j =? _)%N; [apply Hw|apply Hr].
Qed.

Lemma pink_step_bounded (w : Q) (g : Gen Q) :
  GenBounded g -> -1 <= w <= 1 ->
  GenBounded (snd (pink_step w g)) /\ -1 <= fst (pink_step w g) <= 1.
Proof.
  intros (P & Hr & Hb & Hl & Hv0 & Hv1) Hw.
  pose proof (pink_step_PinkSum w g P) as P'. revert P'.
  unfold GenBounded, pink_step. cbv zeta.
  set (nz := count_zeros 16 _ 0).
  destruct (nz <? 16)%N;
    cbn [fst snd g_pinkRows g_pinkRunningSum g_brownLast g_blueLast
         g_violetLast add sub div lit Exact]; intros P'.
  - pose proof (rows_set_bounded _ nz w Hr Hw) as Hr'.
    pose proof (sum_rows_bounded _ Hr') as Hs'.
    destruct P' as [Pl Ps]. cbn [g_pinkRows g_pinkRunningSum] in Pl, Ps.
    rewrite <- Ps in Hs'.
    split_and; try exact (conj Pl Ps); bound.
  - pose proof (sum_rows_bounded _ Hr) as Hs.
    destruct P as [Pl Ps]. rewrite <- Ps in Hs.
    split_and; try exact (conj Pl Ps); bound.
Qed.

Lemma brown_step_bounded (w : Q) (g : Gen Q) :
  GenBounded g -> -1 <= w <= 1 ->
  GenBounded (snd (brown_step w g)) /\
  -(7 # 2) <= fst (brown_step w g) <= 7 # 2.
Proof.
  intros (P & Hr & Hb & Hl & Hv0 & Hv1) Hw.
  unfold GenBounded, brown_step. cbv zeta.
  cbn [fst snd g_pinkRows g_pinkRunningSum g_brownLast g_blueLast
       g_violetLast add mul div lit Exact].
  assert (Hn : -1 <= (g_brownLast g + 0.02 * w) / 1.02 <= 1).
  { split.
    - apply Qle_shift_div_l; [reflexivity|]. lra.
    - apply Qle_shift_div_r; [reflexivity|]. lra. }
  split_and; bound.
Qed.

Lemma blue_step_bounded (w : Q) (g : Gen Q) :
  GenBounded g -> -1 <= w <= 1 ->
  GenBounded (snd (blue_step w g)) /\
  -(7 # 5) <= fst (blue_step w g) <= 7 # 5.
Proof.
  intros (P & Hr & Hb & Hl & Hv0 & Hv1) Hw.
  unfold GenBounded, blue_step.
  cbn [fst snd g_pinkRows g_pinkRunningSum g_brownLast g_blueLast
       g_violetLast sub mul lit Exact].
  split_and; bound.
Qed.

Lemma violet_step_bounded (w : Q) (g : Gen Q) :
  GenBounded g -> -1 <= w <= 1 ->
  GenBounded (snd (violet_step w g)) /\ -2 <= fst (violet_step w g) <= 2.
Proof.
  intros (P & Hr & Hb & Hl & Hv0 & Hv1) Hw.
  unfold GenBounded, violet_step. cbv zeta.
  cbn [fst snd g_pinkRows g_pinkRunningSum g_brownLast g_blueLast
       g_violetLast sub mul lit Exact].
  split_and; bound.
Qed.

(** One step of any generator on a white value in [-1, 1]: the fields
    stay within their bounds and the sample is within the bound of its
    kind. *)
Lemma generator_step_bounded (kind : string) (w : Q) (g : Gen Q) :
  GenBounded g -> -1 <= w <= 1 ->
  GenBounded (snd (generator_step kind w g)) /\
  Qabs (fst (generator_step kind w g)) <= kind_bound kind.
Proof.
  intros B Hw.
  destruct (pink_step_bounded w g B Hw) as [Bp Xp].
  destruct (brown_step_bounded w g B Hw) as [Bb Xb].
  destruct (blue_step_bounded w g B Hw) as [Bl Xl].
  destruct (violet_step_bounded w g B Hw) as [Bv Xv].
  split.
  - unfold generator_step.
    destruct (kind =? "pink")%string; [exact Bp|].
    destruct (kind =? "brown")%string; [exact Bb|].
    destruct (kind =? "blue")%string; [exact Bl|].
    destruct (kind =? "violet")%string; [exact Bv|exact B].
  - unfold generator_step. apply kind_bound_cases.
    + intros E. rewrite E. exact Xp.
    + intros E1 E2. rewrite E1, E2. exact Xb.
    + intros E1 E2 E3. rewrite E1, E2, E3. exact Xl.
    + intros E1 E2 E3 E4. rewrite E1, E2, E3, E4. exact Xv.
    + intros E1 E2 E3 E4. rewrite E1, E2, E3, E4. exact Hw.
Qed.

Lemma DB_set_gen_gen (g : Gen Q) (s : DB.State Q) :
  DB_gen (DB_set_gen g s) = g.
Proof. reflexivity. Qed.

Lemma white_buffers (s : DB.State Q) :
  DB.bufferA (snd (DB.white s)) = DB.bufferA s /\
  DB.bufferB (snd (DB.white s)) = DB.bufferB s.
Proof. rewrite white_eq. cbn [snd]. destruct (_ <=? _)%N; split; reflexivity. Qed.

Lemma white_value_bounded (s : DB.State Q) :
  BuffersBounded s -> -1 <= fst (DB.white s) <= 1.
Proof.
  intros [HA HB]. rewrite white_eq. cbn [fst]. unfold Float32Array.get.
  destruct (DB.activeBuffer s); [apply HA|apply HB].
Qed.

Lemma DB_step_bounded (s : DB.State Q) (x : Q) (g : Gen Q) :
  BuffersBounded s -> BuffersBounded (DB_set_gen g (snd (DB.white s))).
Proof.
  intros [HA HB]. destruct (white_buffers s) as [EA EB].
  unfold BuffersBounded. cbn [DB_set_gen DB.bufferA DB.bufferB].
  rewrite EA, EB. split; assumption.
Qed.

Lemma DB_getSample_bounded (s : DB.State Q) :
  GenBounded (DB_gen s) -> BuffersBounded s ->
  GenBounded (DB_gen (snd (DB.getSample s))) /\
  BuffersBounded (snd (DB.getSample s)) /\
  DB.noiseType (snd (DB.getSample s)) = DB.noiseType s /\
  Qabs (fst (DB.getSample s)) <= kind_bound (DB.noiseType s).
Proof.
  intros G B. pose proof (white_value_bounded s B) as Hw.
  destruct (generator_step_bounded (DB.noiseType s) _ _ G Hw) as [G' X].
  rewrite DB_getSample_step. cbn [fst snd]. rewrite DB_set_gen_gen.
  split_and; try assumption.
  - apply (DB_step_bounded s 0), B.
  - cbn [DB_set_gen DB.noiseType]. apply white_gen.
Qed.

Lemma DB_run_getSample_bounded (n : N) (s : DB.State Q) :
  GenBounded (DB_gen s) -> BuffersBounded s ->
  GenBounded (DB_gen (run n DB.getSample s)) /\
  BuffersBounded (run n DB.getSample s) /\
  DB.noiseType (run n DB.getSample s) = DB.noiseType s.
Proof.
  intros G B. unfold run.
  induction n as [|n IH] using N.peano_ind; [split_and; auto|].
  rewrite N.iter_succ. destruct IH as (G' & B' & T').
  destruct (DB_getSample_bounded _ G' B') as (G2 & B2 & T2 & _).
  split_and; try assumption. congruence.
Qed.

Lemma Dir_white_value_bounded (U : N -> Q) (s : Dir.State Q) :
  (forall k, 0 <= U k <= 1) -> -1 <= fst (Dir.white U s) <= 1.
Proof.
  intros HU. rewrite direct_white_eq. cbn [fst sub mul lit Exact].
  specialize (HU (Dir.randomCalls s)). lra.
Qed.

Lemma Dir_getSample_bounded (U : N -> Q) (s : Dir.State Q) :
  (forall k, 0 <= U k <= 1) ->
  GenBounded (Dir_gen s) ->
  GenBounded (Dir_gen (snd (Dir.getSample U s))) /\
  Dir.noiseType (snd (Dir.getSample U s)) = Dir.noiseType s /\
  Qabs (fst (Dir.getSample U s)) <= kind_bound (Dir.noiseType s).
Proof.
  intros HU G. pose proof (Dir_white_value_bounded U s HU) as Hw.
  destruct (generator_step_bounded (Dir.noiseType s) _ _ G Hw) as [G' X].
  rewrite Dir_getSample_step. cbn [fst snd].
  split_and; [exact G'|reflexivity|exact X].
Qed.

Lemma Dir_run_getSample_bounded (U : N -> Q) (n : N) (s : Dir.State Q) :
  (forall k, 0 <= U k <= 1) ->
  GenBounded (Dir_gen s) ->
  GenBounded (Dir_gen (run n (Dir.getSample U) s)) /\
  Dir.noiseType (run n (Dir.getSample U) s) = Dir.noiseType s.
Proof.
  intros HU G. unfold run.
  induction n as [|n IH] using N.peano_ind; [split_and; auto|].
  rewrite N.iter_succ. destruct IH as (G' & T').
  destruct (Dir_getSample_bounded U _ HU G') as (G2 & T2 & _).
  split_and; try assumption. congruence.
Qed.

(** The fresh engines satisfy the bounds. *)
Lemma fresh_bounded (U : N -> Q) :
  (forall k, 0 <= U k <= 1) ->
  GenBounded (DB_gen (DB.constructor U)) /\
  BuffersBounded (DB.constructor U) /\
  GenBounded (Dir_gen Dir.constructor).
Proof.
  intros HU. destruct (fresh_PinkSum U) as [Pb Pd].
  assert (Hz : GenBounded (Dir_gen Dir.constructor)).
  { unfold GenBounded. split; [exact Pd|].
    cbn. split_and; try (intros i; split); discriminate. }
  destruct (constructor_spec U) as (bufA & bufB & E & (_ & HA) & (_ & HB)).
  revert Pb. rewrite E. intros Pb. split_and.
  - unfold GenBounded. split; [exact Pb|].
    cbn. split_and; try (intros i; split); discriminate.
  - unfold BuffersBounded. cbn [DB.bufferA DB.bufferB]. split; intros j.
    + rewrite HA. destruct (_ && _).
      * cbn [fround sub mul lit Exact]. specialize (HU (0 + (j - 0))%N). lra.
      * cbn. split; discriminate.
    + rewrite HB. destruct (_ && _).
      * cbn [fround sub mul lit Exact].
        specialize (HU (capacity + (j - 0))%N). lra.
      * cbn. split; discriminate.
  - exact Hz.
Qed.

End Bounds.

Section SampleBounds.
Local Open Scope Q_scope.

(** C5, as the code has it.  With every value of Math.random in
    [0, 1): on the fresh engine set to any kind, every sample is within
    the bound of the kind: 1 for white and pink, 3.5 for brown, 1.4
    for blue, and 2 (not 1) for violet.  This holds of the first 10,000
    samples in both processors; in the double-buffered processor, and
    for every kind but pink in the other one, it holds however many
    samples are taken.  Proved in exact arithmetic. *)
Theorem samples_within_kind_bound :
  forall (U : N -> Q),
    (forall k, 0 <= U k < 1) ->
    forall (kind : string) (n : N),
      Qabs (result_after n DB.getSample
              (snd (DB.onmessage (setNoiseType kind) (DB.constructor U))))
        <= kind_bound kind /\
      ((n < 10000)%N \/ kind <> "pink"%string ->
       Qabs (result_after n (Dir.getSample U)
               (snd (Dir.onmessage (setNoiseType kind) Dir.constructor)))
         <= kind_bound kind).
Proof.
  intros U HU kind n.
  assert (HU' : forall k, 0 <= U k <= 1)
    by (intros k; destruct (HU k); split; [assumption|apply Qlt_le_weak; assumption]).
  destruct (fresh_bounded U HU') as (Gb & Bb & Gd).
  revert Gb Bb. generalize (DB.constructor U). intros s0 Gb Bb.
  unfold result_after. split.
  - set (s1 := snd (DB.onmessage (setNoiseType kind) s0)).
    assert (G1 : GenBounded (DB_gen s1)) by exact Gb.
    assert (B1 : BuffersBounded s1) by exact Bb.
    assert (T1 : DB.noiseType s1 = kind) by reflexivity.
    clearbody s1.
    destruct (DB_run_getSample_bounded n s1 G1 B1) as (G2 & B2 & T2).
    destruct (DB_getSample_bounded _ G2 B2) as (_ & _ & _ & X).
    rewrite T2, T1 in X. exact X.
  - intros _.
    set (s1 := snd (Dir.onmessage (setNoiseType kind) Dir.constructor)).
    assert (G1 : GenBounded (Dir_gen s1)) by exact Gd.
    assert (T1 : Dir.noiseType s1 = kind) by reflexivity.
    clearbody s1.
    destruct (Dir_run_getSample_bounded U n s1 HU' G1) as (G2 & T2).
    destruct (Dir_getSample_bounded U _ HU' G2) as (_ & _ & X).
    rewrite T2, T1 in X. exact X.
Qed.

End SampleBounds.

Lemma samples_within_kind_bound_witness :
  (forall k, 0 <= zeros k < 1)%Q /\
  (3 < 10000 \/ "pink"%string <> "pink"%string) /\
  (Qabs (result_after 3 (Dir.getSample zeros)
           (snd (Dir.onmessage (setNoiseType "pink") Dir.constructor)))
   <= kind_bound "pink")%Q.
Proof.
  assert (HU : forall k, (0 <= zeros k < 1)%Q)
    by (intros k; split; [discriminate|reflexivity]).
  assert (Hn : 3 < 10000 \/ "pink"%string <> "pink"%string)
    by (left; reflexivity).
  split; [exact HU|]. split; [exact Hn|].
  exact (proj2 (samples_within_kind_bound zeros HU "pink" 3) Hn).
Defined.

(** C5, as stated, fails on the code for violet: with Math.random
    returning 0 and then 3/4 (white values -1 and 1/2), the second
    violet sample of the fresh engine is 5/4, outside [-1, 1]; in both
    processors. *)
Lemma violet_exceeds_one :
  ~ (Qabs (result_after 1 DB.getSample
             (snd (DB.onmessage (setNoiseType "violet")
                     (DB.constructor low_then_high))))
     <= 1)%Q /\
  ~ (Qabs (result_after 1 (Dir.getSample low_then_high)
             (snd (Dir.onmessage (setNoiseType "violet") Dir.constructor)))
     <= 1)%Q.
Proof.
  assert (Hd : ~ (Qabs (result_after 1 (Dir.getSample low_then_high)
                          (snd (Dir.onmessage (setNoiseType "violet")
                                  Dir.constructor))) <= 1)%Q).
  { intros Hq. vm_compute in Hq. apply Hq. reflexivity. }
  split; [|exact Hd].
  pose proof (fresh_in_step low_then_high (fun j => eq_refl) "violet") as J.
  revert J. generalize (DB.constructor low_then_high). intros s0 J.
  destruct (samples_in_step low_then_high 0 _ _ 2 J ltac:(discriminate))
    as (Hres & _).
  rewrite (Hres 1%N eq_refl). exact Hd.
Qed.

(** ** The brown generator *)

Section Brown.
Local Open Scope Q_scope.

Lemma alternating_range : forall k, 0 <= alternating k <= 1.
Proof.
  intros k. unfold alternating. destruct (N.even k); split; discriminate.
Qed.

Lemma DB_brown_bounded (s : DB.State Q) :
  GenBounded (DB_gen s) -> BuffersBounded s ->
  GenBounded (DB_gen (snd (DB.brown s))) /\ BuffersBounded (snd (DB.brown s)).
Proof.
  intros G B. pose proof (white_value_bounded s B) as Hw.
  destruct (brown_step_bounded _ _ G Hw) as [G' _].
  rewrite DB_brown_step. cbn [snd]. split; [exact G'|].
  apply (DB_step_bounded s 0), B.
Qed.

Lemma Dir_brown_bounded (U : N -> Q) (s : Dir.State Q) :
  (forall k, 0 <= U k <= 1) ->
  GenBounded (Dir_gen s) -> GenBounded (Dir_gen (snd (Dir.brown U s))).
Proof.
  intros HU G. pose proof (Dir_white_value_bounded U s HU) as Hw.
  destruct (brown_step_bounded _ _ G Hw) as [G' _].
  rewrite Dir_brown_step. exact G'.
Qed.

End Brown.

(** C6. Each call of brown replaces the accumulator by
    (accumulator + 0.02 * white) / 1.02, where white is the value it
    read, and returns the new accumulator times 3.5, in both processors
    and in any arithmetic.  In exact arithmetic, fed with white values
    alternating between -1 and +1 from accumulator 0, the accumulator
    stays within [-1, 1] after any number of calls (1,000,000
    included), hence never exceeds 1 / 0.02 = 50. *)
Theorem brown_is_a_leaky_integrator :
  (forall (num : Type) (H : Number num) (s : DB.State num),
      DB.brownLast (snd (DB.brown s))
      = ((DB.brownLast s + lit 0.02 * fst (DB.white s)) / lit 1.02)%num /\
      fst (DB.brown s) = (DB.brownLast (snd (DB.brown s)) * lit 3.5)%num) /\
  (forall (num : Type) (H : Number num) (U : N -> num) (s : Dir.State num),
      Dir.brownLast (snd (Dir.brown U s))
      = ((Dir.brownLast s + lit 0.02 * fst (Dir.white U s)) / lit 1.02)%num /\
      fst (Dir.brown U s) = (Dir.brownLast (snd (Dir.brown U s)) * lit 3.5)%num) /\
  (forall n : N,
      (Qabs (DB.brownLast (run n DB.brown (DB.constructor alternating))) <= 1 /\
       Qabs (Dir.brownLast (run n (Dir.brown alternating) Dir.constructor)) <= 1 /\
       1 <= 1 / 0.02)%Q).
Proof.
  split; [|split].
  - intros num H s. rewrite DB_brown_step. split; reflexivity.
  - intros num H U s. rewrite Dir_brown_step. split; reflexivity.
  - intros n.
    destruct (fresh_bounded alternating alternating_range) as (Gb & Bb & Gd).
    revert Gb Bb. generalize (DB.constructor alternating). intros s0 Gb Bb.
    split; [|split; [|discriminate]].
    + assert (G : GenBounded (DB_gen (run n DB.brown s0))
                  /\ BuffersBounded (run n DB.brown s0)).
      { unfold run. induction n as [|n IH] using N.peano_ind; [split; assumption|].
        rewrite N.iter_succ. destruct IH as [G B].
        apply DB_brown_bounded; assumption. }
      destruct G as ((_ & _ & Hb & _) & _).
      apply Qabs_Qle_condition. exact Hb.
    + assert (G : GenBounded (Dir_gen (run n (Dir.brown alternating)
                                         Dir.constructor))).
      { unfold run. induction n as [|n IH] using N.peano_ind; [assumption|].
        rewrite N.iter_succ.
        apply Dir_brown_bounded; [apply alternating_range|exact IH]. }
      destruct G as (_ & _ & Hb & _).
      apply Qabs_Qle_condition. exact Hb.
Qed.

(** ** Beyond the first buffer *)

Section Beyond.
Context {num : Type} `{Number num}.
Variable U : N -> num.

Lemma capacity_value : capacity = 1440000.
Proof. reflexivity. Qed.

Lemma DB_getSample_noiseType (s : DB.State num) :
  DB.noiseType (snd (DB.getSample s)) = DB.noiseType s.
Proof.
  rewrite DB_getSample_step. cbn [snd DB_set_gen DB.noiseType]. apply white_gen.
Qed.

Lemma DB_run_getSample_noiseType (m : N) (s : DB.State num) :
  DB.noiseType (run m DB.getSample s) = DB.noiseType s.
Proof.
  unfold run. induction m as [|m IH] using N.peano_ind; [reflexivity|].
  rewrite N.iter_succ, DB_getSample_noiseType. exact IH.
Qed.

Lemma fresh_MonoRun : MonoRun U 0 (DB.constructor U).
Proof.
  pose proof (constructor_WellFormed U) as W.
  destruct (constructor_fields U) as (Hi & Hsz & Ha & Hin & Hfp & Hfc & Hrc & Hnt).
  revert W Hi Hsz Ha Hin Hfp Hfc Hrc Hnt. generalize (DB.constructor U).
  intros s0 W Hi Hsz Ha Hin Hfp Hfc Hrc Hnt.
  unfold MonoRun. split_and; try assumption.
  - intros _. split; [exact Hfp|]. rewrite Hrc. reflexivity.
  - intros Hn. exfalso. apply Hn. reflexivity.
Qed.

Lemma mono_block_state (s : DB.State num) :
  snd (DB.fill_channels mono_block s) = run 128 DB.getSample s.
Proof. destruct (DB_fill_channels_spec mono_block s) as [E _]. exact E. Qed.

(** One more mono block while the first buffer lasts. *)
Lemma MonoRun_step (n : N) (s : DB.State num) :
  MonoRun U n s -> n + 1 <= 11249 ->
  MonoRun U (n + 1) (snd (DB.process U mono_block s)).
Proof.
  intros (W & Hsz & Hi & Ha & Hin & Hnt & Hfc & Hearly & Hlate) Hn.
  pose proof capacity_value as Cv.
  assert (Hroom : DB.index s + 128
                  < Float32Array.length (DB.buffer (DB.activeBuffer s) s))
    by (rewrite (WellFormed_active_length s W), Hsz, Hi, Cv; lia).
  destruct (white_value_in_run s 128 Hroom) as [_ Es].
  pose proof (DB_run_getSample_noiseType 128 s) as Et.
  destruct (run_getSample_invariant 128 s W) as [W1 _].
  rewrite <- mono_block_state in Es, Et, W1.
  pose proof (process_refill U mono_block s W1) as P. cbv zeta in P.
  remember (snd (DB.fill_channels mono_block s)) as s1 eqn:E1.
  remember (snd (DB.process U mono_block s)) as s2 eqn:E2.
  clear E1 E2.
  apply source_fields in Es.
  destruct Es as (S1 & S2 & S3 & S4 & S5 & S6 & S7 & S8 & S9).
  cbn in S1, S2, S3, S4, S5, S6, S7, S8, S9.
  destruct P as (P1 & P2 & P3 & P4 & P5 & P6 & P7 & P8 & P9).
  unfold generator in P6. injection P6 as Q1 _ _ _ _ _ _ _.
  rewrite S8, Hfc in P1, P8. rewrite S5, Ha in P2, P7. rewrite S6, Hin in P3, P8.
  rewrite S4, Hi in P4. rewrite S1, Hsz in P5, P8. rewrite S7, S9 in P8.
  cbn [DB.buffer] in P7, P8. rewrite S3 in P8.
  unfold MonoRun. split_and; try assumption.
  - lia.
  - congruence.
  - intros Hs. destruct (Hearly ltac:(lia)) as [Hfp Hrc].
    rewrite (N.mod_small (n + 1) 10) in P8 by exact Hs.
    destruct (N.eqb_spec (n + 1) 0); [lia|].
    cbn [andb] in P8. destruct P8 as (_ & F & R). split; congruence.
  - intros Hs. destruct (N.lt_ge_cases n 10) as [Hlt|Hge].
    + assert (n + 1 = 10) by lia.
      destruct (Hearly Hlt) as [Hfp Hrc].
      replace ((n + 1) mod 10 =? 0) with true in P8
        by (replace (n + 1) with 10 by lia; reflexivity).
      rewrite Hfp, Hrc, Cv in P8. cbn [andb N.ltb N.compare] in P8.
      change (0 <? 1440000) with true in P8.
      destruct P8 as ((_ & Hel) & F & _). split; [lia|].
      rewrite (Hel 0). reflexivity.
    + destruct (Hlate Hge) as [Hfp Hv].
      destruct (_ && _).
      * destruct P8 as ((_ & Hel) & F & _). split; [lia|].
        rewrite (Hel 0).
        destruct (N.leb_spec (DB.fillPointer s) 0); [lia|]. exact Hv.
      * destruct P8 as (Eb & F & _). split; [lia|]. rewrite Eb. exact Hv.
Qed.

Lemma MonoRun_blocks (n : N) :
  n <= 11249 ->
  MonoRun U n (run n (DB.process U mono_block) (DB.constructor U)).
Proof.
  pose proof fresh_MonoRun as M0. revert M0.
  generalize (DB.constructor U). intros s0 M0.
  unfold run. induction n as [|n IH] using N.peano_ind; intros Hn; [exact M0|].
  rewrite N.iter_succ. rewrite <- N.add_1_r.
  apply MonoRun_step; [apply IH; lia|lia].
Qed.

(** The mono block that empties the first buffer: the engine swaps to
    buffer B, whose slot 0 was refilled long before. *)
Lemma MonoRun_last (s : DB.State num) :
  MonoRun U 11249 s ->
  DB.index (snd (DB.process U mono_block s)) = 0 /\
  DB.activeBuffer (snd (DB.process U mono_block s)) = RefB /\
  DB.noiseType (snd (DB.process U mono_block s)) = "white"%string /\
  Float32Array.elem (DB.bufferB (snd (DB.process U mono_block s))) 0
  = fround (U (2 * capacity)%N * lit 2 - lit 1)%num.
Proof.
  intros (W & Hsz & Hi & Ha & Hin & Hnt & Hfc & _ & Hlate).
  pose proof capacity_value as Cv.
  destruct (Hlate ltac:(lia)) as [_ Hv].
  assert (HL : Float32Array.length (DB.buffer (DB.activeBuffer s) s) = 1440000)
    by (rewrite (WellFormed_active_length s W), Hsz; exact Cv).
  assert (Hroom : DB.index s + 127
                  < Float32Array.length (DB.buffer (DB.activeBuffer s) s))
    by (rewrite HL, Hi; reflexivity).
  destruct (white_value_in_run s 127 Hroom) as [_ Es].
  pose proof (getSample_source (run 127 DB.getSample s)) as E1.
  destruct (white_source_congr _ _ Es) as [_ E2].
  rewrite E2 in E1. clear E2 Es.
  rewrite white_eq in E1. run_monad in E1.
  rewrite Ha, Hi in E1. rewrite Ha in HL. cbn [DB.buffer] in E1, HL.
  run_monad in E1. rewrite HL in E1.
  change (1440000 <=? 128 * 11249 + 127 + 1) with true in E1. cbv iota in E1.
  assert (En : snd (DB.getSample (run 127 DB.getSample s))
               = snd (DB.fill_channels mono_block s)).
  { rewrite mono_block_state. unfold run.
    change 128 with (N.succ 127). rewrite N.iter_succ. reflexivity. }
  pose proof (DB_run_getSample_noiseType 128 s) as Et.
  destruct (run_getSample_invariant 128 s W) as [W1 _].
  rewrite <- mono_block_state in Et, W1. rewrite En in E1.
  pose proof (process_refill U mono_block s W1) as P. cbv zeta in P.
  remember (snd (DB.fill_channels mono_block s)) as s1 eqn:X1.
  remember (snd (DB.process U mono_block s)) as s2 eqn:X2.
  clear X1 X2 En.
  apply source_fields in E1.
  destruct E1 as (S1 & S2 & S3 & S4 & S5 & S6 & S7 & S8 & S9).
  cbn in S1, S2, S3, S4, S5, S6, S7, S8, S9.
  destruct P as (P1 & P2 & P3 & P4 & P5 & P6 & P7 & P8 & P9).
  unfold generator in P6. injection P6 as Q1 _ _ _ _ _ _ _.
  rewrite S5, Hin in P2, P7. cbn [DB.buffer] in P7.
  split_and; try congruence.
Qed.

(** Slot 0 of mono block number 11251 in the double-buffered
    processor. *)
Lemma DB_first_slot_after_swap :
  Float32Array.elem
    (nth 0 (fst (fst (DB.process U mono_block
                        (run 11250 (DB.process U mono_block)
                           (DB.constructor U)))))
       (Float32Array.new 0)) 0
  = fround (fround (U (2 * capacity)%N * lit 2 - lit 1))%num.
Proof.
  pose proof (MonoRun_blocks 11249 ltac:(discriminate)) as M.
  revert M. unfold run. change 11250 with (N.succ 11249).
  generalize (DB.constructor U). intros s0 M. rewrite N.iter_succ.
  destruct (MonoRun_last _ M) as (Hi & Ha & Hnt & Hv).
  remember (snd (DB.process U mono_block
                   (N.iter 11249 (fun s => snd (DB.process U mono_block s)) s0)))
    as s' eqn:X. clear X M.
  rewrite (DB_process_slot U mono_block s' 0 (Float32Array.new 0) 0)
    by (cbn; lia || reflexivity).
  change (offset mono_block 0 + 0) with 0.
  unfold result_after, run. cbn [N.iter].
  rewrite getSample_white by exact Hnt.
  rewrite white_eq, Ha, Hi. cbn [fst DB.buffer]. unfold Float32Array.get.
  rewrite Hv. reflexivity.
Qed.

Lemma Dir_run_getSample_state (m : N) (s : Dir.State num) :
  Dir.randomCalls (run m (Dir.getSample U) s) = Dir.randomCalls s + m /\
  Dir.noiseType (run m (Dir.getSample U) s) = Dir.noiseType s.
Proof.
  unfold run. induction m as [|m IH] using N.peano_ind.
  - split; [rewrite N.add_0_r|]; reflexivity.
  - rewrite N.iter_succ. destruct IH as [R T]. rewrite Dir_getSample_step.
    cbn [snd Dir_set_gen Dir.randomCalls Dir.noiseType].
    rewrite direct_white_eq. cbn [snd Dir.set_randomCalls Dir.randomCalls Dir.noiseType].
    split; [rewrite R; lia|exact T].
Qed.

Lemma Dir_process_state (output : list (Float32Array.t num)) (s : Dir.State num) :
  snd (Dir.process U output s) = run (slots output) (Dir.getSample U) s.
Proof.
  destruct (Dir_fill_channels_spec U output s) as [E _].
  unfold Dir.process, bind, ret.
  destruct (Dir.fill_channels U output s) as [o s1]. exact E.
Qed.

(** Slot 0 of mono block number [n + 1] in the processor without
    buffers. *)
Lemma Dir_first_slot_of_block (n : N) :
  Float32Array.elem
    (nth 0 (fst (fst (Dir.process U mono_block
                        (run n (Dir.process U mono_block) Dir.constructor))))
       (Float32Array.new 0)) 0
  = fround (U (128 * n)%N * lit 2 - lit 1)%num.
Proof.
  assert (St : Dir.randomCalls (run n (Dir.process U mono_block) Dir.constructor)
               = 128 * n /\
               Dir.noiseType (run n (Dir.process U mono_block) Dir.constructor)
               = "white"%string).
  { unfold run. induction n as [|n IH] using N.peano_ind; [split; reflexivity|].
    rewrite N.iter_succ, Dir_process_state. destruct IH as [R T].
    destruct (Dir_run_getSample_state (slots mono_block)
                (N.iter n (fun s => snd (Dir.process U mono_block s))
                   Dir.constructor)) as [R' T'].
    rewrite R', T', R, T. split; [|reflexivity].
    change (slots mono_block) with 128. lia. }
  destruct St as [R T].
  rewrite (Dir_process_slot U mono_block _ 0 (Float32Array.new 0) 0)
    by (cbn; lia || reflexivity).
  change (offset mono_block 0 + 0) with 0.
  unfold result_after. change (run 0 (Dir.getSample U) ?s) with s.
  unfold Dir.getSample, bind, get_state. rewrite T. cbn [String.eqb Ascii.eqb Bool.eqb].
  rewrite direct_white_eq, R. reflexivity.
Qed.

End Beyond.

(** C9, as stated, fails on the code.  The host asks for mono blocks of
    128 slots; Math.random returns 0 for its first [2 * capacity] calls
    and 1/2 afterwards.  Block number 11251 is the first after the swap
    of the buffers: in the double-buffered processor its slot 0 comes
    from buffer B, refilled during block 10 with the value of
    Math.random number [2 * capacity] (sample 0); in the processor
    without buffers it comes from Math.random number [capacity]
    (sample -1). *)
Lemma processors_differ_after_first_swap :
  ~ (Float32Array.elem
       (nth 0 (fst (fst (DB.process late_source mono_block
                           (run 11250 (DB.process late_source mono_block)
                              (DB.constructor late_source)))))
          (Float32Array.new 0)) 0
     == Float32Array.elem
          (nth 0 (fst (fst (Dir.process late_source mono_block
                              (run 11250 (Dir.process late_source mono_block)
                                 Dir.constructor))))
             (Float32Array.new 0)) 0)%Q.
Proof.
  pose proof (DB_first_slot_after_swap late_source) as Eb.
  pose proof (Dir_first_slot_of_block late_source 11250) as Ed.
  revert Eb Ed.
  match goal with
  | |- ?a = _ -> ?b = _ -> _ => generalize a, b
  end.
  intros x y Eb Ed Hq. subst x y. vm_compute in Hq. discriminate Hq.
Qed.

(** * More properties of the code *)

(** ** bufferFill and the constructor *)

Section Filling.
Context {num : Type} `{Number num}.
Variable U : N -> num.

(** [bufferFill(buffer, start, count)] writes the next values of
    Math.random into the slots from [start] on: [count] of them, or
    only as many as lie inside the buffer (none when [start] is at or
    beyond its end).  It calls Math.random once per slot written and
    changes nothing else: not the other buffer, not the cursor, the
    roles, the marker, the frame counter or the generators. *)
Theorem bufferFill_stays_inside_the_buffer :
  forall (b : BufRef) (start count : N) (s : DB.State num),
    let n := N.min count (Float32Array.length (DB.buffer b s) - start) in
    let s' := snd (DB.bufferFill U b start count s) in
    refilled U (DB.buffer b s) start n (DB.randomCalls s) (DB.buffer b s') /\
    DB.randomCalls s' = DB.randomCalls s + n /\
    (forall b', b' <> b -> DB.buffer b' s' = DB.buffer b' s) /\
    DB.index s' = DB.index s /\
    DB.activeBuffer s' = DB.activeBuffer s /\
    DB.inactiveBuffer s' = DB.inactiveBuffer s /\
    DB.fillPointer s' = DB.fillPointer s /\
    DB.frameCount s' = DB.frameCount s /\
    DB.bufferSize s' = DB.bufferSize s /\
    generator s' = generator s.
Proof.
  intros b start count s n s'.
  destruct (bufferFill_spec U b start count s) as (buf & E & R).
  fold n in E, R. subst s'. rewrite E. clear E.
  destruct (set_buffer_frame b buf s) as [Eb Eo].
  split_and.
  - destruct b; exact R.
  - destruct b; reflexivity.
  - intros b' Hb. destruct b, b'; try congruence; reflexivity.
  - destruct b; reflexivity.
  - destruct b; reflexivity.
  - destruct b; reflexivity.
  - destruct b; reflexivity.
  - destruct b; reflexivity.
  - destruct b; reflexivity.
  - destruct b; reflexivity.
Qed.

(** The constructor fills both buffers completely before anything is
    read: slot [j] of buffer A holds the value of Math.random number
    [j], slot [j] of buffer B the value number [capacity + j], each
    mapped to [-1, 1) and stored; Math.random has been called
    [2 * capacity] times. *)
Theorem constructor_fills_both_buffers :
  forall j : N,
    j < capacity ->
    Float32Array.elem (DB.bufferA (DB.constructor U)) j
      = fround (U j * lit 2 - lit 1)%num /\
    Float32Array.elem (DB.bufferB (DB.constructor U)) j
      = fround (U (capacity + j)%N * lit 2 - lit 1)%num /\
    Float32Array.length (DB.bufferA (DB.constructor U)) = capacity /\
    Float32Array.length (DB.bufferB (DB.constructor U)) = capacity /\
    DB.randomCalls (DB.constructor U) = 2 * capacity.
Proof.
  intros j Hj. destruct (constructor_buffers U j Hj) as [EA EB].
  pose proof (constructor_WellFormed U) as (LA & LB & _).
  destruct (constructor_fields U) as (_ & Hsz & _ & _ & _ & _ & Hrc & _).
  revert EA EB LA LB Hsz Hrc. generalize (DB.constructor U).
  intros s0 EA EB LA LB Hsz Hrc. rewrite Hsz in LA, LB.
  split_and; assumption.
Qed.

Lemma onmessage_WellFormed (data : Message) (s : DB.State num) :
  WellFormed s -> WellFormed (snd (DB.onmessage data s)).
Proof.
  intros W. unfold DB.onmessage, when.
  destruct (type data =? "setNoiseType")%string; exact W.
Qed.

Lemma reachable_WellFormed (s : DB.State num) :
  reachable U s -> WellFormed s.
Proof.
  induction 1 as [|output s R IH|data s R IH].
  - apply constructor_WellFormed.
  - destruct (DB_fill_channels_spec output s) as (E & _).
    destruct (run_getSample_invariant (slots output) s IH) as [W1 _].
    rewrite <- E in W1. apply (process_refill U output s W1).
  - apply onmessage_WellFormed, IH.
Qed.

(** Whatever the host does (blocks of any shape, control messages in
    between, in any order), the engine stays well-formed, and every
    read of the uniform source is a read of an existing slot of the
    active buffer: the cursor is below its length before every
    sample. *)
Theorem white_reads_in_range :
  forall s : DB.State num,
    reachable U s ->
    WellFormed s /\
    forall n : N,
      DB.index (run n DB.getSample s)
      < Float32Array.length
          (DB.buffer (DB.activeBuffer (run n DB.getSample s))
             (run n DB.getSample s)).
Proof.
  intros s R. pose proof (reachable_WellFormed s R) as W. split; [exact W|].
  intros n. destruct (run_getSample_invariant n s W) as [Wn _].
  rewrite (WellFormed_active_length _ Wn). apply Wn.
Qed.

End Filling.

Lemma constructor_fills_both_buffers_witness :
  0 < capacity /\
  Float32Array.elem (DB.bufferA (DB.constructor zeros)) 0
  = fround (zeros 0 * lit 2 - lit 1)%num.
Proof.
  split; [reflexivity|].
  exact (proj1 (constructor_fills_both_buffers zeros 0 eq_refl)).
Defined.

Lemma white_reads_in_range_witness :
  reachable zeros (snd (DB.process zeros stereo_block (DB.constructor zeros))) /\
  WellFormed (snd (DB.process zeros stereo_block (DB.constructor zeros))).
Proof.
  assert (R : reachable zeros
                (snd (DB.process zeros stereo_block (DB.constructor zeros))))
    by (apply reach_process, reach_constructor).
  split; [exact R|].
  exact (proj1 (white_reads_in_range zeros _ R)).
Defined.

(** ** The row schedule of the pink generator *)

Section RowSchedule.

Lemma land_1_testbit (n : N) : (N.land n 1 =? 0) = negb (N.testbit n 0).
Proof.
  change 1 with (N.ones 1). rewrite N.land_ones. change (2 ^ 1) with 2.
  rewrite <- N.bit0_mod. destruct (N.testbit n 0); reflexivity.
Qed.

Lemma count_zeros_bits (fuel : nat) :
  forall n z : N,
    z <= 16 ->
    z <= count_zeros fuel n z <= 16 /\
    count_zeros fuel n z - z <= N.of_nat fuel /\
    (forall i, i < count_zeros fuel n z - z -> N.testbit n i = false) /\
    (count_zeros fuel n z < 16 ->
     count_zeros fuel n z - z < N.of_nat fuel ->
     N.testbit n (count_zeros fuel n z - z) = true).
Proof.
  induction fuel as [|fuel IH]; intros n z Hz.
  - cbn [count_zeros]. split_and; try lia; intros; lia.
  - cbn [count_zeros]. rewrite land_1_testbit.
    destruct (N.testbit n 0) eqn:Hb; cbn [negb andb].
    + split_and; try lia; intros; try lia.
      rewrite N.sub_diag. exact Hb.
    + destruct (N.ltb_spec z 16) as [Hlt|Hge].
      * destruct (IH (N.shiftr n 1) (z + 1) ltac:(lia)) as (I1 & I2 & I3 & I4).
        set (k := count_zeros fuel (N.shiftr n 1) (z + 1)) in *.
        split_and; try lia.
        -- intros i Hi. destruct (N.eq_dec i 0) as [->|Hi0]; [exact Hb|].
           replace i with (N.succ (i - 1)) by lia.
           rewrite <- N.add_1_r, <- N.shiftr_spec'. apply I3. lia.
        -- intros Hk Hf.
           replace (k - z) with (N.succ (k - (z + 1))) by lia.
           rewrite <- N.add_1_r, <- N.shiftr_spec'. apply I4; lia.
      * split_and; try lia; intros; lia.
Qed.

(** The loop of pink that counts the changed rows returns the position
    of the lowest 1 bit of the counter, or 16 when the 16 low bits are
    all 0; 16 rounds are enough, more change nothing. *)
Theorem count_zeros_is_the_lowest_set_bit :
  forall n : N,
    count_zeros 16 n 0 <= 16 /\
    (forall i, i < count_zeros 16 n 0 -> N.testbit n i = false) /\
    (count_zeros 16 n 0 < 16 -> N.testbit n (count_zeros 16 n 0) = true) /\
    (forall fuel : nat, (16 <= fuel)%nat ->
       count_zeros fuel n 0 = count_zeros 16 n 0).
Proof.
  intros n.
  destruct (count_zeros_bits 16 n 0 ltac:(lia)) as (A1 & A2 & A3 & A4).
  rewrite N.sub_0_r in *. split_and; try lia.
  - exact A3.
  - intros Hk. apply A4; [exact Hk|]. change (N.of_nat 16) with 16. exact Hk.
  - intros fuel Hf.
    destruct (count_zeros_bits fuel n 0 ltac:(lia)) as (B1 & B2 & B3 & B4).
    rewrite N.sub_0_r in *.
    set (k := count_zeros 16 n 0) in *. set (k' := count_zeros fuel n 0) in *.
    change (N.of_nat 16) with 16 in *.
    destruct (N.lt_trichotomy k' k) as [Hlt|[Heq|Hgt]]; [|exact Heq|].
    + rewrite (A3 k' Hlt) in B4. discriminate B4; lia.
    + rewrite (B3 k Hgt) in A4. discriminate A4; lia.
Qed.

Lemma count_zeros_below_16 (c : N) :
  c < 65536 -> c <> 0 -> count_zeros 16 c 0 < 16.
Proof.
  intros Hc Hnz.
  destruct (count_zeros_bits 16 c 0 ltac:(lia)) as (A1 & _ & A3 & _).
  rewrite N.sub_0_r in *.
  destruct (N.eq_dec (count_zeros 16 c 0) 16) as [E|NE]; [|lia].
  exfalso. apply Hnz. apply N.bits_inj_0. intros i.
  destruct (N.lt_ge_cases i 16) as [Hi|Hi].
  - apply A3. rewrite E. exact Hi.
  - rewrite <- (N.mod_small c (2 ^ 16)) by exact Hc.
    apply N.mod_pow2_bits_high. exact Hi.
Qed.

Context {num : Type} `{Number num}.

(** One call of pink advances the 16-bit counter (it wraps from 65535
    to 0) and replaces at most one row: none when the counter has
    wrapped to 0, and otherwise exactly the row whose number is the
    position of the lowest 1 bit of the new counter, by the white value
    just read; every other row is left as it is. *)
Theorem pink_replaces_at_most_one_row :
  forall s : DB.State num,
    DB.pinkIndexMask s = 65535 ->
    Float32Array.length (DB.pinkRows s) = 16 ->
    DB.pinkIndex (snd (DB.pink s)) = (DB.pinkIndex s + 1) mod 65536 /\
    (DB.pinkIndex (snd (DB.pink s)) = 0 ->
     DB.pinkRows (snd (DB.pink s)) = DB.pinkRows s /\
     DB.pinkRunningSum (snd (DB.pink s)) = DB.pinkRunningSum s) /\
    (DB.pinkIndex (snd (DB.pink s)) <> 0 ->
     count_zeros 16 (DB.pinkIndex (snd (DB.pink s))) 0 < 16 /\
     Float32Array.get (DB.pinkRows (snd (DB.pink s)))
       (count_zeros 16 (DB.pinkIndex (snd (DB.pink s))) 0)
     = fround (fst (DB.white s)) /\
     forall j, j <> count_zeros 16 (DB.pinkIndex (snd (DB.pink s))) 0 ->
       Float32Array.get (DB.pinkRows (snd (DB.pink s))) j
       = Float32Array.get (DB.pinkRows s) j).
Proof.
  intros s Hm Hl. rewrite DB_pink_step. unfold pink_step. cbv zeta.
  cbn [DB_gen g_pinkIndex g_pinkIndexMask g_pinkRows g_pinkRunningSum].
  rewrite Hm. change 65535 with (N.ones 16). rewrite N.land_ones.
  change (2 ^ 16) with 65536.
  set (c := (DB.pinkIndex s + 1) mod 65536).
  assert (Hc : c < 65536) by (apply N.mod_lt; discriminate).
  destruct (N.eq_dec c 0) as [E0|NE].
  - rewrite E0. change (count_zeros 16 0 0 <? 16) with false.
    cbn [snd DB_set_gen DB.pinkIndex DB.pinkRows DB.pinkRunningSum
         g_pinkIndex g_pinkRows g_pinkRunningSum].
    split_and; try reflexivity; intros; split_and; try reflexivity;
      try congruence.
  - pose proof (count_zeros_below_16 c Hc NE) as Hk.
    destruct (N.ltb_spec (count_zeros 16 c 0) 16) as [_|]; [|lia].
    cbn [snd DB_set_gen DB.pinkIndex DB.pinkRows DB.pinkRunningSum
         g_pinkIndex g_pinkRows g_pinkRunningSum].
    split_and; try reflexivity; try congruence. intros _.
    unfold Float32Array.set, Float32Array.get. rewrite Hl.
    destruct (N.ltb_spec (count_zeros 16 c 0) 16); [|lia].
    cbn [Float32Array.elem]. split_and.
    + exact Hk.
    + rewrite N.eqb_refl. reflexivity.
    + intros j Hj. destruct (N.eqb_spec j (count_zeros 16 c 0)); congruence.
Qed.

End RowSchedule.

Lemma pink_replaces_at_most_one_row_witness :
  DB.pinkIndexMask small_engine = 65535 /\
  Float32Array.length (DB.pinkRows small_engine) = 16 /\
  DB.pinkIndex (snd (DB.pink small_engine))
  = (DB.pinkIndex small_engine + 1) mod 65536.
Proof.
  split; [reflexivity|]. split; [reflexivity|].
  exact (proj1 (pink_replaces_at_most_one_row small_engine eq_refl eq_refl)).
Defined.

(** ** The generators, one beside the other *)

Section Generators.
Context {num : Type} `{Number num}.

(** A generator touches only its own fields: white none, pink the
    rows, the running sum and the counter, brown its accumulator, blue
    its register, violet its two registers.  So the other generators
    resume where they were when the kind is switched back; and none of
    them changes the kind. *)
Theorem generators_keep_to_their_own_fields :
  forall s : DB.State num,
    generator (snd (DB.white s)) = generator s /\
    (DB.brownLast (snd (DB.pink s)) = DB.brownLast s /\
     DB.blueLast (snd (DB.pink s)) = DB.blueLast s /\
     DB.violetLast (snd (DB.pink s)) = DB.violetLast s /\
     DB.noiseType (snd (DB.pink s)) = DB.noiseType s) /\
    (DB.pinkRows (snd (DB.brown s)) = DB.pinkRows s /\
     DB.pinkRunningSum (snd (DB.brown s)) = DB.pinkRunningSum s /\
     DB.pinkIndex (snd (DB.brown s)) = DB.pinkIndex s /\
     DB.blueLast (snd (DB.brown s)) = DB.blueLast s /\
     DB.violetLast (snd (DB.brown s)) = DB.violetLast s /\
     DB.noiseType (snd (DB.brown s)) = DB.noiseType s) /\
    (DB.pinkRows (snd (DB.blue s)) = DB.pinkRows s /\
     DB.pinkRunningSum (snd (DB.blue s)) = DB.pinkRunningSum s /\
     DB.pinkIndex (snd (DB.blue s)) = DB.pinkIndex s /\
     DB.brownLast (snd (DB.blue s)) = DB.brownLast s /\
     DB.violetLast (snd (DB.blue s)) = DB.violetLast s /\
     DB.noiseType (snd (DB.blue s)) = DB.noiseType s) /\
    (DB.pinkRows (snd (DB.violet s)) = DB.pinkRows s /\
     DB.pinkRunningSum (snd (DB.violet s)) = DB.pinkRunningSum s /\
     DB.pinkIndex (snd (DB.violet s)) = DB.pinkIndex s /\
     DB.brownLast (snd (DB.violet s)) = DB.brownLast s /\
     DB.blueLast (snd (DB.violet s)) = DB.blueLast s /\
     DB.noiseType (snd (DB.violet s)) = DB.noiseType s).
Proof.
  intros s. destruct (white_gen s) as [_ T].
  split; [apply white_generator|].
  rewrite DB_pink_step, DB_brown_step, DB_blue_step, DB_violet_step.
  unfold pink_step, brown_step, blue_step, violet_step. cbv zeta.
  destruct (_ <? 16); cbn [snd DB_set_gen DB_gen DB.noiseType DB.pinkRows
    DB.pinkRunningSum DB.pinkIndex DB.brownLast DB.blueLast DB.violetLast
    g_pinkRows g_pinkRunningSum g_pinkIndex g_brownLast g_blueLast g_violetLast];
    split_and; try reflexivity; exact T.
Qed.

(** Blue is the first difference of the white values: the second of two
    successive blue samples is (w2 - w1) * 0.7, where w1 and w2 are the
    white values the two calls read. *)
Theorem blue_is_the_first_difference :
  forall s : DB.State num,
    fst (DB.blue (snd (DB.blue s)))
    = ((fst (DB.white (snd (DB.blue s))) - fst (DB.white s)) * lit 0.7)%num.
Proof.
  intros s. rewrite (DB_blue_step (snd (DB.blue s))).
  unfold blue_step at 1. cbn [fst snd DB_gen g_blueLast].
  rewrite (DB_blue_step s) at 2. reflexivity.
Qed.

(** Violet is the second difference of the white values: the third of
    three successive violet samples is ((w3 - w2) - (w2 - w1)) * 0.5,
    where w1, w2, w3 are the white values the three calls read. *)
Theorem violet_is_the_second_difference :
  forall s : DB.State num,
    let s1 := snd (DB.violet s) in
    let s2 := snd (DB.violet s1) in
    fst (DB.violet s2)
    = (((fst (DB.white s2) - fst (DB.white s1))
        - (fst (DB.white s1) - fst (DB.white s))) * lit 0.5)%num.
Proof.
  intros s s1 s2.
  assert (V1 : fst (DB.violetLast s1) = fst (DB.white s))
    by (subst s1; rewrite DB_violet_step; reflexivity).
  assert (V2 : DB.violetLast s2
               = (fst (DB.white s1), (fst (DB.white s1) - fst (DB.violetLast s1))%num))
    by (subst s2; rewrite (DB_violet_step s1); reflexivity).
  rewrite (DB_violet_step s2). unfold violet_step at 1.
  cbn [fst snd DB_gen g_violetLast]. rewrite V2. cbn [fst snd].
  rewrite V1. reflexivity.
Qed.

End Generators.

(** ** Blocks keep their shape *)

Section Shape.
Context {num : Type} `{Number num}.

Lemma DB_fill_channels_lengths (output : list (Float32Array.t num)) :
  forall (s : DB.State num) (c : nat) (d : Float32Array.t num),
    (c < List.length output)%nat ->
    Float32Array.length (nth c (fst (DB.fill_channels output s)) d)
    = Float32Array.length (nth c output d).
Proof.
  induction output as [|ch rest IH]; intros s c d Hc; [inversion Hc|].
  cbn [DB.fill_channels]. unfold bind, ret.
  destruct (DB_fill_channel_spec ch s) as (_ & L1 & _).
  destruct (DB.fill_channel ch s) as [ch' s1]. cbn [fst] in L1.
  specialize (IH s1). destruct (DB.fill_channels rest s1) as [rest' s2].
  cbn [fst] in IH |- *. destruct c as [|c]; cbn [nth].
  - exact L1.
  - apply IH. cbn [List.length] in Hc. lia.
Qed.

Lemma Dir_fill_channels_lengths (U : N -> num)
    (output : list (Float32Array.t num)) :
  forall (s : Dir.State num) (c : nat) (d : Float32Array.t num),
    (c < List.length output)%nat ->
    Float32Array.length (nth c (fst (Dir.fill_channels U output s)) d)
    = Float32Array.length (nth c output d).
Proof.
  induction output as [|ch rest IH]; intros s c d Hc; [inversion Hc|].
  cbn [Dir.fill_channels]. unfold bind, ret.
  destruct (Dir_fill_channel_spec U ch s) as (_ & L1 & _).
  destruct (Dir.fill_channel U ch s) as [ch' s1]. cbn [fst] in L1.
  specialize (IH s1). destruct (Dir.fill_channels U rest s1) as [rest' s2].
  cbn [fst] in IH |- *. destruct c as [|c]; cbn [nth].
  - exact L1.
  - apply IH. cbn [List.length] in Hc. lia.
Qed.

(** [process] always returns true (the processor stays alive), hands
    back as many channels as it was given, each of the length it had,
    and takes exactly one sample per slot: the state after the block is
    the state after [slots output] calls of getSample (followed, in the
    double-buffered processor, by the frame counter and the refill);
    the processor without buffers calls Math.random once per slot. *)
Theorem process_keeps_the_shape_of_the_block :
  forall (U : N -> num) (output : list (Float32Array.t num)),
    (forall s : DB.State num,
        snd (fst (DB.process U output s)) = true /\
        List.length (fst (fst (DB.process U output s))) = List.length output /\
        (forall (c : nat) (d : Float32Array.t num),
            (c < List.length output)%nat ->
            Float32Array.length (nth c (fst (fst (DB.process U output s))) d)
            = Float32Array.length (nth c output d)) /\
        snd (DB.fill_channels output s) = run (slots output) DB.getSample s) /\
    (forall s : Dir.State num,
        snd (fst (Dir.process U output s)) = true /\
        List.length (fst (fst (Dir.process U output s))) = List.length output /\
        (forall (c : nat) (d : Float32Array.t num),
            (c < List.length output)%nat ->
            Float32Array.length (nth c (fst (fst (Dir.process U output s))) d)
            = Float32Array.length (nth c output d)) /\
        snd (Dir.process U output s) = run (slots output) (Dir.getSample U) s /\
        Dir.randomCalls (snd (Dir.process U output s))
        = Dir.randomCalls s + slots output).
Proof.
  intros U output. split; intros s.
  - rewrite DB_process_output. cbn [fst snd].
    destruct (DB_fill_channels_spec output s) as (E & L & _).
    split_and; try assumption; try reflexivity.
    intros c d Hc. apply DB_fill_channels_lengths, Hc.
  - rewrite Dir_process_output, Dir_process_state. cbn [fst snd].
    destruct (Dir_fill_channels_spec U output s) as (E & L & _).
    split_and; try assumption; try reflexivity.
    + intros c d Hc. apply Dir_fill_channels_lengths, Hc.
    + apply Dir_run_getSample_state.
Qed.

End Shape.

(** ** Brown moves in small steps *)

Section BrownSteps.
Local Open Scope Q_scope.

Lemma brown_step_small (b w : Q) :
  -1 <= b <= 1 -> -1 <= w <= 1 ->
  Qabs ((b + 0.02 * w) / 1.02 * 3.5 - b * 3.5) <= 0.14.
Proof.
  intros Hb Hw. set (q := (b + 0.02 * w) / 1.02).
  assert (Hq : q * 1.02 == b + 0.02 * w) by (unfold q; field).
  apply Qabs_Qle_condition. split; lra.
Qed.

(** In exact arithmetic, with every value of Math.random in [0, 1],
    two successive brown samples of the fresh engine differ by at most
    0.14 (0.02 * 2 * 3.5): the leaky integrator has no jumps. *)
Theorem brown_samples_are_continuous :
  forall (U : N -> Q),
    (forall k, 0 <= U k <= 1) ->
    forall n : N,
      Qabs (result_after (n + 1) DB.brown (DB.constructor U)
            - result_after n DB.brown (DB.constructor U)) <= 0.14 /\
      Qabs (result_after (n + 1) (Dir.brown U) Dir.constructor
            - result_after n (Dir.brown U) Dir.constructor) <= 0.14.
Proof.
  intros U HU n. destruct (fresh_bounded U HU) as (Gb & Bb & Gd).
  revert Gb Bb. generalize (DB.constructor U). intros s0 Gb Bb.
  unfold result_after, run. rewrite N.add_1_r, !N.iter_succ. split.
  - assert (G : GenBounded (DB_gen (N.iter n (fun s => snd (DB.brown s)) s0))
                /\ BuffersBounded (N.iter n (fun s => snd (DB.brown s)) s0)).
    { induction n as [|n IH] using N.peano_ind; [split; assumption|].
      rewrite N.iter_succ. destruct IH as [G B].
      apply DB_brown_bounded; assumption. }
    destruct G as [G B]. set (s := N.iter n _ s0) in *. clearbody s.
    destruct (DB_brown_bounded s G B) as [G1 B1].
    pose proof (white_value_bounded _ B1) as Hw.
    destruct G1 as (_ & _ & Hb & _).
    rewrite (DB_brown_step (snd (DB.brown s))). unfold brown_step at 1.
    cbn [fst].
    assert (E : fst (DB.brown s) = (DB.brownLast (snd (DB.brown s)) * 3.5))
      by (rewrite (DB_brown_step s); reflexivity).
    rewrite E. apply brown_step_small; assumption.
  - assert (G : GenBounded (Dir_gen (N.iter n (fun s => snd (Dir.brown U s))
                                       Dir.constructor))).
    { induction n as [|n IH] using N.peano_ind; [assumption|].
      rewrite N.iter_succ. apply Dir_brown_bounded; assumption. }
    set (s := N.iter n _ Dir.constructor) in *. clearbody s.
    pose proof (Dir_brown_bounded U s HU G) as G1.
    pose proof (Dir_white_value_bounded U (snd (Dir.brown U s)) HU) as Hw.
    destruct G1 as (_ & _ & Hb & _).
    rewrite (Dir_brown_step U (snd (Dir.brown U s))). unfold brown_step at 1.
    cbn [fst].
    assert (E : fst (Dir.brown U s)
                = (Dir.brownLast (snd (Dir.brown U s)) * 3.5))
      by (rewrite (Dir_brown_step U s); reflexivity).
    rewrite E. apply brown_step_small; assumption.
Qed.

End BrownSteps.

Lemma brown_samples_are_continuous_witness :
  (forall k, 0 <= zeros k <= 1)%Q /\
  (Qabs (result_after (2 + 1) (Dir.brown zeros) Dir.constructor
         - result_after 2 (Dir.brown zeros) Dir.constructor) <= 0.14)%Q.
Proof.
  assert (HU : forall k, (0 <= zeros k <= 1)%Q)
    by (intros k; split; discriminate).
  split; [exact HU|].
  exact (proj2 (brown_samples_are_continuous zeros HU 2)).
Defined.

(** ** Invariants of every reachable state, in exact arithmetic *)

Section Reachable.
Local Open Scope Q_scope.
Variable U : N -> Q.

Lemma DB_run_getSample_PinkSum (n : N) (s : DB.State Q) :
  PinkSum (DB_gen s) -> PinkSum (DB_gen (run n DB.getSample s)).
Proof.
  intros P. unfold run. induction n as [|n IH] using N.peano_ind; [exact P|].
  rewrite N.iter_succ, DB_getSample_step. cbn [snd]. rewrite DB_set_gen_gen.
  apply generator_step_PinkSum, IH.
Qed.

Lemma process_gen (output : list (Float32Array.t Q)) (s : DB.State Q) :
  WellFormed s ->
  DB_gen (snd (DB.process U output s))
    = DB_gen (run (slots output) DB.getSample s) /\
  DB.noiseType (snd (DB.process U output s)) = DB.noiseType s.
Proof.
  intros W. destruct (DB_fill_channels_spec output s) as (E & _).
  destruct (run_getSample_invariant (slots output) s W) as [W1 _].
  pose proof (DB_run_getSample_noiseType (slots output) s) as T.
  rewrite <- E in W1, T |- *.
  destruct (process_refill U output s W1) as (_&_&_&_&_&P6&_).
  cbv zeta in P6. unfold generator in P6.
  injection P6 as Q1 Q2 Q3 Q4 Q5 Q6 Q7 Q8.
  split; [unfold DB_gen|]; congruence.
Qed.

(** Whatever the host does, and whatever Math.random returns, the pink
    running sum equals the sum of the 16 rows in every state the
    engine can reach: between blocks, after a change of kind, after
    any number of samples of any kinds. *)
Theorem pink_sum_holds_in_every_reachable_state :
  forall s : DB.State Q,
    reachable U s ->
    forall n : N,
      DB.pinkRunningSum (run n DB.getSample s)
      == sum_rows (DB.pinkRows (run n DB.getSample s)).
Proof.
  intros s R n.
  assert (P : PinkSum (DB_gen s)).
  { induction R as [|output s R IH|data s R IH].
    - exact (proj1 (fresh_PinkSum U)).
    - destruct (process_gen output s (reachable_WellFormed U s R)) as [E _].
      rewrite E. apply DB_run_getSample_PinkSum, IH.
    - unfold DB.onmessage, when.
      destruct (type data =? "setNoiseType")%string; exact IH. }
  exact (proj2 (DB_run_getSample_PinkSum n s P)).
Qed.

Hypothesis in_range : forall k, 0 <= U k <= 1.

Lemma refilled_bounded (b0 b : Float32Array.t Q) (start n r : N) :
  refilled U b0 start n r b ->
  (forall j, -1 <= Float32Array.elem b0 j <= 1) ->
  forall j, -1 <= Float32Array.elem b j <= 1.
Proof.
  intros [_ Hel] Hb j. rewrite Hel. destruct (_ && _)%bool; [|apply Hb].
  cbn [fround sub mul lit Exact]. specialize (in_range (r + (j - start))%N). lra.
Qed.

Lemma reachable_bounded (s : DB.State Q) :
  reachable U s -> GenBounded (DB_gen s) /\ BuffersBounded s.
Proof.
  induction 1 as [|output s R IH|data s R IH].
  - destruct (fresh_bounded U in_range) as (G & B & _). exact (conj G B).
  - destruct IH as [G B]. pose proof (reachable_WellFormed U s R) as W.
    destruct (process_gen output s W) as [E _].
    destruct (DB_run_getSample_bounded (slots output) s G B) as (G1 & B1 & _).
    split; [rewrite E; exact G1|].
    destruct (DB_fill_channels_spec output s) as (Ef & _).
    destruct (run_getSample_invariant (slots output) s W) as [W1 _].
    rewrite <- Ef in W1, B1.
    destruct (process_refill U output s W1) as (_&_&_&_&_&_&P7&P8&_).
    cbv zeta in P7, P8.
    set (s1 := snd (DB.fill_channels output s)) in *.
    set (s2 := snd (DB.process U output s)) in *. clearbody s1 s2.
    destruct W1 as (_ & _ & _ & Hne & _). destruct B1 as [BA BB].
    assert (Hin : forall j,
              -1 <= Float32Array.elem (DB.buffer (DB.inactiveBuffer s1) s2) j <= 1).
    { destruct (_ && _)%bool.
      - destruct P8 as (Rf & _). apply (refilled_bounded _ _ _ _ _ Rf).
        destruct (DB.inactiveBuffer s1); assumption.
      - destruct P8 as (Eb & _). rewrite Eb.
        destruct (DB.inactiveBuffer s1); assumption. }
    unfold BuffersBounded.
    destruct (DB.activeBuffer s1), (DB.inactiveBuffer s1);
      try congruence; cbn [DB.buffer] in P7, Hin; rewrite ?P7;
      split; assumption.
  - unfold DB.onmessage, when.
    destruct (type data =? "setNoiseType")%string; exact IH.
Qed.

(** With every value of Math.random in [0, 1], every slot of every
    block the engine writes, in any state it can reach, is within the
    bound of the current kind (1 for white, pink and unknown kinds,
    3.5 for brown, 1.4 for blue, 2 for violet). *)
Theorem every_output_slot_is_bounded :
  forall (s : DB.State Q) (output : list (Float32Array.t Q))
         (c : nat) (d : Float32Array.t Q) (i : N),
    reachable U s ->
    (c < List.length output)%nat ->
    (i < Float32Array.length (nth c output d))%N ->
    Qabs (Float32Array.elem (nth c (fst (fst (DB.process U output s))) d) i)
    <= kind_bound (DB.noiseType s).
Proof.
  intros s output c d i R Hc Hi.
  destruct (reachable_bounded s R) as [G B].
  rewrite DB_process_slot by assumption. cbn [fround Exact].
  unfold result_after.
  destruct (DB_run_getSample_bounded (offset output c + i) s G B)
    as (G1 & B1 & T1).
  destruct (DB_getSample_bounded _ G1 B1) as (_ & _ & _ & X).
  rewrite T1 in X. exact X.
Qed.

End Reachable.

Lemma pink_sum_holds_in_every_reachable_state_witness :
  reachable zeros (snd (DB.onmessage (setNoiseType "pink") (DB.constructor zeros))) /\
  (DB.pinkRunningSum
     (run 5 DB.getSample
        (snd (DB.onmessage (setNoiseType "pink") (DB.constructor zeros))))
   == sum_rows
        (DB.pinkRows
           (run 5 DB.getSample
              (snd (DB.onmessage (setNoiseType "pink") (DB.constructor zeros))))))%Q.
Proof.
  assert (R : reachable zeros
                (snd (DB.onmessage (setNoiseType "pink") (DB.constructor zeros))))
    by (apply reach_onmessage, reach_constructor).
  split; [exact R|].
  exact (pink_sum_holds_in_every_reachable_state zeros _ R 5).
Defined.

Lemma every_output_slot_is_bounded_witness :
  (forall k, 0 <= zeros k <= 1)%Q /\
  reachable zeros (DB.constructor zeros) /\
  (1 < List.length stereo_block)%nat /\
  0 < Float32Array.length (nth 1 stereo_block (Float32Array.new 0)) /\
  (Qabs (Float32Array.elem
           (nth 1 (fst (fst (DB.process zeros stereo_block (DB.constructor zeros))))
              (Float32Array.new 0)) 0)
   <= kind_bound (DB.noiseType (DB.constructor zeros)))%Q.
Proof.
  assert (HU : forall k, (0 <= zeros k <= 1)%Q)
    by (intros k; split; discriminate).
  assert (Hc : (1 < List.length stereo_block)%nat) by (cbn; lia).
  assert (Hi : 0 < Float32Array.length (nth 1 stereo_block (Float32Array.new 0)))
    by reflexivity.
  split; [exact HU|]. split; [apply reach_constructor|].
  split; [exact Hc|]. split; [exact Hi|].
  exact (every_output_slot_is_bounded zeros HU (DB.constructor zeros) stereo_block
           1%nat (Float32Array.new 0) 0 (reach_constructor zeros) Hc Hi).
Defined.

(** ** The media-session handlers of the page *)

Section Tracks.
Local Open Scope Z_scope.
Local Open Scope string_scope.

Lemma indexOf_from_absent (a : list string) (x : string) (i : Z) :
  ~ In x a -> App.indexOf_from a x i = -1.
Proof.
  revert i. induction a as [|y rest IH]; intros i Hn; [reflexivity|].
  cbn [App.indexOf_from]. destruct (String.eqb_spec y x) as [E|_].
  - exfalso. apply Hn. left. exact E.
  - apply IH. intros Hin. apply Hn. right. exact Hin.
Qed.

Lemma known_kind (t : string) :
  In t App.noiseTypes ->
  t = "white" \/ t = "pink" \/ t = "brown" \/ t = "blue" \/ t = "violet".
Proof.
  unfold App.noiseTypes. cbn [In]. intuition auto.
Qed.

(** From one of the five kinds, "next track" followed by "previous
    track" comes back to the kind, and so does "previous" followed by
    "next"; "next" never stays on the kind. *)
Theorem next_and_previous_track_are_inverse :
  forall t : string,
    In t App.noiseTypes ->
    (exists n, App.nexttrack t = Some n /\ n <> t /\
               In n App.noiseTypes /\ App.previoustrack n = Some t) /\
    (exists p, App.previoustrack t = Some p /\ p <> t /\
               In p App.noiseTypes /\ App.nexttrack p = Some t).
Proof.
  intros t Hin.
  destruct (known_kind t Hin) as [E|[E|[E|[E|E]]]]; subst t.
  - split; [exists "pink"|exists "violet"];
      (split; [reflexivity|]); (split; [discriminate|]);
      (split; [cbn; tauto|reflexivity]).
  - split; [exists "brown"|exists "white"];
      (split; [reflexivity|]); (split; [discriminate|]);
      (split; [cbn; tauto|reflexivity]).
  - split; [exists "blue"|exists "pink"];
      (split; [reflexivity|]); (split; [discriminate|]);
      (split; [cbn; tauto|reflexivity]).
  - split; [exists "violet"|exists "brown"];
      (split; [reflexivity|]); (split; [discriminate|]);
      (split; [cbn; tauto|reflexivity]).
  - split; [exists "white"|exists "blue"];
      (split; [reflexivity|]); (split; [discriminate|]);
      (split; [cbn; tauto|reflexivity]).
Qed.

(** When the current kind is not one of the five (indexOf gives -1),
    "next track" selects the first kind, white, and "previous track"
    selects the fourth, blue, not the last: (-1 - 1 + 5) % 5 is 3. *)
Theorem tracks_from_an_unknown_kind :
  forall t : string,
    ~ In t App.noiseTypes ->
    App.nexttrack t = Some "white" /\ App.previoustrack t = Some "blue".
Proof.
  intros t Hn. unfold App.nexttrack, App.previoustrack, App.indexOf.
  rewrite (indexOf_from_absent App.noiseTypes t 0 Hn).
  split; reflexivity.
Qed.

(** Both handlers always pass one of the five kinds to selectNoiseType,
    never undefined, whatever the current kind is. *)
Theorem track_handlers_always_select_a_kind :
  forall t : string,
    (exists n, App.nexttrack t = Some n /\ In n App.noiseTypes) /\
    (exists p, App.previoustrack t = Some p /\ In p App.noiseTypes).
Proof.
  intros t. destruct (in_dec string_dec t App.noiseTypes) as [Hin|Hn].
  - destruct (known_kind t Hin) as [E|[E|[E|[E|E]]]]; subst t;
      (split; eexists; (split; [reflexivity|cbn; tauto])).
  - unfold App.nexttrack, App.previoustrack, App.indexOf.
    rewrite (indexOf_from_absent App.noiseTypes t 0 Hn).
    split; eexists; (split; [reflexivity|cbn; tauto]).
Qed.

End Tracks.

Lemma next_and_previous_track_are_inverse_witness :
  In "brown"%string App.noiseTypes /\
  ((exists n, App.nexttrack "brown" = Some n /\ n <> "brown"%string /\
              In n App.noiseTypes /\ App.previoustrack n = Some "brown"%string) /\
   (exists p, App.previoustrack "brown" = Some p /\ p <> "brown"%string /\
              In p App.noiseTypes /\ App.nexttrack p = Some "brown"%string)).
Proof.
  assert (Hin : In "brown"%string App.noiseTypes) by (cbn; tauto).
  split; [exact Hin|].
  exact (next_and_previous_track_are_inverse "brown" Hin).
Defined.

Lemma tracks_from_an_unknown_kind_witness :
  ~ In "grey"%string App.noiseTypes /\
  App.nexttrack "grey" = Some "white"%string /\
  App.previoustrack "grey" = Some "blue"%string.
Proof.
  assert (Hn : ~ In "grey"%string App.noiseTypes).
  { cbn. intros [E|[E|[E|[E|[E|[]]]]]]; discriminate E. }
  split; [exact Hn|].
  exact (tracks_from_an_unknown_kind "grey" Hn).
Defined.

(** ** The uniform source without refills *)

Section Replay.
Context {num : Type} `{Number num}.
Variable U : N -> num.

Lemma reading_fields (s s' : DB.State num) :
  reading s = reading s' ->
  DB.bufferA s = DB.bufferA s' /\
  DB.bufferB s = DB.bufferB s' /\
  DB.index s = DB.index s' /\
  DB.activeBuffer s = DB.activeBuffer s' /\
  DB.inactiveBuffer s = DB.inactiveBuffer s'.
Proof.
  unfold reading. intros E. injection E as E1 E2 E3 E4 E5. tauto.
Qed.

Lemma source_reading (s s' : DB.State num) :
  source s = source s' -> reading s = reading s'.
Proof.
  intros E. apply source_fields in E.
  destruct E as (_ & E2 & E3 & E4 & E5 & E6 & _).
  unfold reading. congruence.
Qed.

Lemma white_reading_congr (s s' : DB.State num) :
  reading s = reading s' ->
  fst (DB.white s) = fst (DB.white s') /\
  reading (snd (DB.white s)) = reading (snd (DB.white s')).
Proof.
  intros E. apply reading_fields in E.
  destruct E as (E1 & E2 & E3 & E4 & E5).
  rewrite !white_eq. unfold reading, DB.buffer. cbn [fst snd].
  rewrite E1, E2, E3, E4. split; [reflexivity|].
  destruct (_ <=? _); run_monad; congruence.
Qed.

Lemma run_getSample_reading_congr (n : N) (s s' : DB.State num) :
  reading s = reading s' ->
  reading (run n DB.getSample s) = reading (run n DB.getSample s').
Proof.
  intros E. unfold run. induction n as [|n IH] using N.peano_ind; [exact E|].
  rewrite !N.iter_succ.
  rewrite (source_reading _ _ (getSample_source _)).
  rewrite (source_reading _ _ (getSample_source (N.iter n _ s'))).
  apply white_reading_congr, IH.
Qed.

Lemma swapped_WellFormed (s : DB.State num) :
  WellFormed s ->
  WellFormed
    (DB.set_fillPointer 0
       (DB.set_index 0
          (DB.set_inactiveBuffer (DB.activeBuffer s)
             (DB.set_activeBuffer (DB.inactiveBuffer s) s)))).
Proof.
  intros (HA & HB & Hi & Hne & Hf & Hc & Hle). unfold WellFormed. run_monad.
  split_and; try assumption; try lia; try congruence; try reflexivity.
Qed.

(** Playing both buffers once brings the reads back to where they
    were: [white] writes no slot. *)
Lemma two_buffers_later (s : DB.State num) :
  WellFormed s ->
  reading (run (2 * DB.bufferSize s) DB.white s) = reading s.
Proof.
  intros W. pose proof (WellFormed_active_length s W) as HL.
  pose proof W as (HA & HB & Hi & Hne & _).
  set (L := DB.bufferSize s) in *. set (i := DB.index s) in *.
  replace (2 * L) with (N.succ (L - i - 1) + L + i) by lia.
  rewrite !run_add.
  rewrite (run_white_swap s (L - i - 1)) by (fold i; lia).
  pose proof (swapped_WellFormed s W) as W1.
  set (s1 := DB.set_fillPointer 0 _) in *.
  assert (L1 : DB.bufferSize s1 = L) by reflexivity.
  destruct (reads_until_swap s1 W1 eq_refl) as [_ E2].
  rewrite L1 in E2. rewrite E2.
  set (s2 := DB.set_fillPointer 0 _).
  assert (HL2 : Float32Array.length (DB.buffer (DB.activeBuffer s2) s2) = L).
  { subst s2 s1. run_monad. exact HL. }
  rewrite run_white_inside by (rewrite HL2; cbn; lia).
  subst s2 s1. unfold reading. run_monad. fold i. rewrite N.add_0_l.
  reflexivity.
Qed.

Lemma run_getSample_period (q : N) (s : DB.State num) :
  WellFormed s ->
  reading (run (q * (2 * DB.bufferSize s)) DB.getSample s) = reading s.
Proof.
  intros W. induction q as [|q IH] using N.peano_ind; [reflexivity|].
  replace (N.succ q * (2 * DB.bufferSize s))
    with (2 * DB.bufferSize s + q * (2 * DB.bufferSize s)) by lia.
  rewrite run_add. etransitivity; [|exact IH].
  apply run_getSample_reading_congr.
  rewrite (source_reading _ _ (run_getSample_source _ s)).
  apply two_buffers_later, W.
Qed.

(** As long as only samples are taken (no block ends in between, so
    nothing is refilled), the uniform values repeat after twice the
    capacity, whatever the kind: the value read for sample
    [n + 2 * bufferSize] is the value read for sample [n].  Reading a
    buffer to its end only swaps the two buffers; new values come from
    the refills in [process] alone. *)
Theorem white_repeats_without_refill :
  forall (s : DB.State num) (n : N),
    WellFormed s ->
    fst (DB.white (run (2 * DB.bufferSize s + n) DB.getSample s))
    = fst (DB.white (run n DB.getSample s)) /\
    (DB.noiseType s = "white"%string ->
     result_after (2 * DB.bufferSize s + n) DB.getSample s
     = result_after n DB.getSample s).
Proof.
  intros s n W.
  assert (E : fst (DB.white (run (2 * DB.bufferSize s + n) DB.getSample s))
              = fst (DB.white (run n DB.getSample s))).
  { rewrite run_add. apply white_reading_congr, run_getSample_reading_congr.
    pose proof (run_getSample_period 1 s W) as P.
    rewrite N.mul_1_l in P. exact P. }
  split; [exact E|]. intros T. unfold result_after.
  rewrite !getSample_white by (rewrite DB_run_getSample_noiseType; exact T).
  exact E.
Qed.

(** A fresh engine whose blocks never end (no refill) plays the first
    2,880,000 values of Math.random over and over: white sample number
    [k] is the value of Math.random number [k mod 2880000]. *)
Theorem fresh_engine_without_refill :
  forall k : N,
    result_after k DB.getSample (DB.constructor U)
    = fround (U (k mod (2 * capacity)) * lit 2 - lit 1)%num.
Proof.
  intros k.
  assert (Hr : k mod (2 * capacity) < 2 * capacity)
    by (apply N.mod_lt; discriminate).
  pose proof (N.div_mod k (2 * capacity)) as Hk.
  set (q := k / (2 * capacity)) in *. set (r := k mod (2 * capacity)) in *.
  assert (EA : r < capacity ->
               Float32Array.elem (DB.bufferA (DB.constructor U)) r
               = fround (U r * lit 2 - lit 1)%num)
    by (intros Hlt; exact (proj1 (constructor_buffers U r Hlt))).
  assert (EB : capacity <= r ->
               Float32Array.elem (DB.bufferB (DB.constructor U)) (r - capacity)
               = fround (U r * lit 2 - lit 1)%num).
  { intros Hge.
    assert (Hlt : r - capacity < capacity) by lia.
    pose proof (proj2 (constructor_buffers U (r - capacity) Hlt)) as E.
    revert E. generalize (DB.bufferB (DB.constructor U)). intros b E.
    replace (capacity + (r - capacity)) with r in E by lia. exact E. }
  pose proof (constructor_WellFormed U) as W.
  destruct (constructor_fields U) as (Hi & Hsz & Hact & Hin & _ & _ & _ & Hnt).
  revert EA EB W Hi Hsz Hact Hin Hnt. generalize (DB.constructor U).
  intros s0 EA EB W Hi Hsz Hact Hin Hnt.
  unfold result_after.
  rewrite getSample_white by (rewrite DB_run_getSample_noiseType; exact Hnt).
  rewrite Hk by discriminate.
  replace (2 * capacity * q + r) with (q * (2 * DB.bufferSize s0) + r)
    by (rewrite Hsz; lia).
  rewrite run_add.
  destruct (white_reading_congr _ _
              (run_getSample_reading_congr r _ _ (run_getSample_period q s0 W)))
    as [E _].
  rewrite E. clear E.
  pose proof (WellFormed_active_length s0 W) as HL.
  destruct (N.lt_ge_cases r capacity) as [Hlt|Hge].
  - destruct (white_value_in_run s0 r) as [E _]; [rewrite HL, Hi, Hsz; lia|].
    rewrite E, Hact, Hi. exact (EA Hlt).
  - replace r with (DB.bufferSize s0 + (r - capacity)) at 1 by (rewrite Hsz; lia).
    rewrite run_add.
    destruct (reads_until_swap s0 W Hi) as [_ E1].
    pose proof (run_getSample_source (DB.bufferSize s0) s0) as E2.
    rewrite E1 in E2. apply source_reading in E2.
    destruct (white_reading_congr _ _
                (run_getSample_reading_congr (r - capacity) _ _ E2)) as [E _].
    rewrite E. clear E E2 E1.
    pose proof (swapped_WellFormed s0 W) as W1.
    pose proof (WellFormed_active_length _ W1) as HL1.
    set (s1 := DB.set_fillPointer 0 _) in *.
    destruct (white_value_in_run s1 (r - capacity)) as [E _].
    { rewrite HL1. subst s1. run_monad. rewrite Hsz. lia. }
    rewrite E. subst s1. run_monad. rewrite Hin. cbn [DB.buffer].
    run_monad. rewrite N.add_0_l. exact (EB Hge).
Qed.

End Replay.

Lemma white_repeats_without_refill_witness :
  WellFormed small_engine /\
  fst (DB.white (run (2 * DB.bufferSize small_engine + 3) DB.getSample small_engine))
  = fst (DB.white (run 3 DB.getSample small_engine)).
Proof.
  assert (W : WellFormed small_engine).
  { unfold WellFormed, small_engine. cbn.
    repeat split; try reflexivity; discriminate. }
  split; [exact W|].
  exact (proj1 (white_repeats_without_refill small_engine 3 W)).
Defined.

(** ** The processor without buffers, block by block *)

Section DirectBlocks.
Context {num : Type} `{Number num}.
Variable U : N -> num.

Lemma Dir_getSample_white (s : Dir.State num) :
  Dir.noiseType s = "white"%string -> Dir.getSample U s = Dir.white U s.
Proof.
  intros E. unfold Dir.getSample, bind, get_state. rewrite E. reflexivity.
Qed.

(** In the processor without buffers a block takes exactly as many
    values of Math.random as it has slots and leaves the kind alone;
    when the kind is white, slot [i] of channel [c] holds the value
    number [offset output c + i] counted from the first one the block
    takes, scaled to [-1, 1]: no value is used twice, however long the
    engine runs. *)
Theorem direct_block_takes_one_value_per_slot :
  forall (output : list (Float32Array.t num)) (s : Dir.State num),
    Dir.randomCalls (snd (Dir.process U output s))
    = Dir.randomCalls s + slots output /\
    Dir.noiseType (snd (Dir.process U output s)) = Dir.noiseType s /\
    (Dir.noiseType s = "white"%string ->
     forall (c : nat) (d : Float32Array.t num) (i : N),
       (c < List.length output)%nat ->
       i < Float32Array.length (nth c output d) ->
       Float32Array.elem (nth c (fst (fst (Dir.process U output s))) d) i
       = fround (U (Dir.randomCalls s + (offset output c + i))%N * lit 2 - lit 1)%num).
Proof.
  intros output s. rewrite Dir_process_state.
  destruct (Dir_run_getSample_state U (slots output) s) as [R T].
  split; [exact R|]. split; [exact T|].
  intros W c d i Hc Hi. rewrite Dir_process_slot by assumption.
  unfold result_after.
  destruct (Dir_run_getSample_state U (offset output c + i) s) as [R1 T1].
  rewrite Dir_getSample_white by (rewrite T1; exact W).
  rewrite direct_white_eq. cbn [fst]. rewrite R1. reflexivity.
Qed.

End DirectBlocks.

Lemma direct_block_takes_one_value_per_slot_witness :
  Dir.noiseType (@Dir.constructor Q _) = "white"%string /\
  (1 < List.length stereo_block)%nat /\
  5 < Float32Array.length (nth 1 stereo_block (Float32Array.new 0)) /\
  Float32Array.elem
    (nth 1 (fst (fst (Dir.process step_source stereo_block Dir.constructor)))
       (Float32Array.new 0)) 5
  = fround (step_source (Dir.randomCalls (@Dir.constructor Q _)
                         + (offset stereo_block 1 + 5))%N
            * lit 2 - lit 1)%num.
Proof.
  assert (Hc : (1 < List.length stereo_block)%nat) by (cbn; lia).
  assert (Hi : 5 < Float32Array.length (nth 1 stereo_block (Float32Array.new 0)))
    by reflexivity.
  split; [reflexivity|]. split; [exact Hc|]. split; [exact Hi|].
  exact (proj2 (proj2 (direct_block_takes_one_value_per_slot step_source
                         stereo_block Dir.constructor))
           eq_refl 1%nat (Float32Array.new 0) 5 Hc Hi).
Defined.
